(** * endorser-ch: claim ingestion, hash chaining and visibility

    A shallow embedding of [server/api/services/jwt.service.js] and of the two
    variants of [action.service.js], together with the theorems that settle
    the properties stated about them.

    JavaScript values are embedded as the inductive type [value]; an async
    function is a state-and-rejection computation over a [World] holding the
    store's tables, the visibility edges, the network cache, the log and the
    clock.  Every awaited call completes before the next statement runs, and
    promises started in a loop and joined by [Promise.all] are run in the
    order in which they were started. *)

From Stdlib Require Import ZArith String List Bool Lia Sorted.
From Stdlib Require DecimalString.
From stdpp Require Import base option list strings gmap pretty.

Set Warnings "-register-all".

Local Open Scope Z_scope.
Local Open Scope string_scope.

(** ** JavaScript values *)

(** The values a parsed JSON payload can hold, plus [undefined], which a read
    of a missing property yields.  An object keeps its properties in
    insertion order. *)
Inductive value : Type :=
| VUndef
| VNull
| VBool (b : bool)
| VNum (n : Z)
| VStr (s : string)
| VArr (elems : list value)
| VObj (props : list (string * value)).

(** Equality of values is decidable: the store compares columns with it. *)
#[global] Instance value_eq_dec : EqDecision value.
Proof.
  refine (fix go (a b : value) {struct a} : Decision (a = b) :=
    match a, b with
    | VUndef, VUndef => left eq_refl
    | VNull, VNull => left eq_refl
    | VBool x, VBool y => cast_if (decide (x = y))
    | VNum x, VNum y => cast_if (decide (x = y))
    | VStr x, VStr y => cast_if (decide (x = y))
    | VArr l, VArr m =>
        cast_if ((fix go_list (l m : list value) : Decision (l = m) :=
                    match l, m with
                    | [], [] => left eq_refl
                    | x :: l', y :: m' => cast_if_and (go x y) (go_list l' m')
                    | _, _ => right _
                    end) l m)
    | VObj l, VObj m =>
        cast_if ((fix go_props (l m : list (string * value)) : Decision (l = m) :=
                    match l, m with
                    | [], [] => left eq_refl
                    | (k, x) :: l', (k', y) :: m' =>
                        cast_if_and3 (decide (k = k')) (go x y) (go_props l' m')
                    | _, _ => right _
                    end) l m)
    | _, _ => right _
    end); clear go; try clear go_list; try clear go_props; congruence.
Defined.

(** ** Rejections and outcomes *)

(** Modelled from the spec: the [ERROR_CODES] table of [util.js] is not part
    of the sources; these are the codes the spec and the service name. *)
Inductive ERROR_CODES : Type :=
| JWT_VERIFY_FAILED
| UNREGISTERED_USER
| OVER_CLAIM_LIMIT
| OVER_REGISTRATION_LIMIT
| CANNOT_REGISTER_TOO_SOON.

(** What a promise can be rejected with: an object [{clientError: {message,
    code}}], an [Error] built with [new Error(message)], a bare string, a
    [TypeError] raised by the language (a read through [undefined] or [null],
    a write on a primitive in a module, which is strict code, or iteration
    over a value that is not iterable), or a failure of the store. *)
Inductive rejection : Type :=
| ClientError (message : string) (code : ERROR_CODES)
| JsError (message : string)
| RejectedString (message : string)
| TypeError
| StoreError.

Inductive outcome (A : Type) : Type :=
| Resolved (a : A)
| Rejected (e : rejection).
Arguments Resolved {A} a.
Arguments Rejected {A} e.

(** ** Reading and writing properties *)

Fixpoint lookup_prop (k : string) (props : list (string * value)) : value :=
  match props with
  | [] => VUndef
  | kv :: rest => if String.eqb k kv.1 then kv.2 else lookup_prop k rest
  end.

Fixpoint update_prop (k : string) (v : value) (props : list (string * value))
  : list (string * value) :=
  match props with
  | [] => [(k, v)]
  | kv :: rest =>
      if String.eqb k kv.1 then (k, v) :: rest else kv :: update_prop k v rest
  end.

(** [o[k]] and [o.k] for the property names this service reads: a read through
    [undefined] or [null] throws, an object yields the property or
    [undefined], and a primitive or an array has none of these names. *)
Definition get (o : value) (k : string) : outcome value :=
  match o with
  | VUndef | VNull => Rejected TypeError
  | VObj props => Resolved (lookup_prop k props)
  | _ => Resolved VUndef
  end.

(** [o[k] = v].  On an array the named property lives beside the elements,
    where nothing this service later does with the array (iteration,
    canonicalization, the identity scan) can see it: the elements are kept. *)
Definition set (o : value) (k : string) (v : value) : outcome value :=
  match o with
  | VObj props => Resolved (VObj (update_prop k v props))
  | VArr elems => Resolved (VArr elems)
  | _ => Rejected TypeError
  end.

(** [v == null] *)
Definition nullish (v : value) : bool :=
  match v with VUndef | VNull => true | _ => false end.

(** [v === 'text'] *)
Definition is_string (v : value) (text : string) : bool :=
  match v with VStr s => String.eqb s text | _ => false end.

(** The truth value of [v] in a condition. *)
Definition truthy (v : value) : bool :=
  match v with
  | VUndef | VNull => false
  | VBool b => b
  | VNum n => negb (Z.eqb n 0)
  | VStr s => negb (String.eqb s "")
  | VArr _ | VObj _ => true
  end.

(** [Array.isArray(v)] *)
Definition isArray (v : value) : bool :=
  match v with VArr _ => true | _ => false end.

(** The values a [for (x of v)] loop visits: the elements of an array, the
    characters of a string; anything else is not iterable. *)
Definition iterate (v : value) : outcome (list value) :=
  match v with
  | VArr elems => Resolved elems
  | VStr s => Resolved ((λ c, VStr (String c EmptyString)) <$> list_ascii_of_string s)
  | _ => Rejected TypeError
  end.

(** ** The store

    [endorser.db.service] is not part of the sources.  Its tables are modelled
    from the spec's data model (section 3): rows carry the fields the service
    passes to the insert operations, and a field taken from a claim holds the
    claim's value as it is. *)

Record jwt_row : Type := {
  jwt_id : Z;
  jwt_issuedAt : value;
  jwt_issuer : value;
  jwt_subject : value;
  jwt_claimContext : value;
  jwt_claimType : value;
  jwt_claim : string;
  jwt_claimEncoded : string;
  jwt_jwtEncoded : string;
  jwt_hashHex : option string;
  jwt_hashChainHex : option string
}.

Record event_row : Type := {
  event_id : Z;
  event_orgName : value;
  event_name : value;
  event_startTime : value
}.

Record action_row : Type := {
  action_id : Z;
  action_jwtId : Z;
  action_issuerDid : value;
  action_agentDid : value;
  action_eventRowId : Z;
  action_eventOrgName : value;
  action_eventName : value;
  action_eventStartTime : value
}.

Record tenure_row : Type := {
  tenure_id : Z;
  tenure_jwtId : Z;
  tenure_issuerDid : value;
  tenure_partyDid : value;
  tenure_polygon : value;
  tenure_westLon : value;
  tenure_minLat : value;
  tenure_eastLon : value;
  tenure_maxLat : value
}.

Record orgRole_row : Type := {
  orgRole_id : Z;
  orgRole_jwtId : Z;
  orgRole_issuerDid : value;
  orgRole_orgName : value;
  orgRole_roleName : value;
  orgRole_startDate : value;
  orgRole_endDate : value;
  orgRole_memberDid : value
}.

Record vote_row : Type := {
  vote_id : Z;
  vote_jwtId : Z;
  vote_issuerDid : value;
  vote_actionOption : value;
  vote_candidate : value;
  vote_eventName : value;
  vote_eventStartTime : value
}.

Record registration_row : Type := {
  registration_id : Z;
  registration_did : value;
  registration_agent : value;
  registration_epoch : option Z;
  registration_jwtId : option Z;
  registration_maxRegs : option Z;
  registration_maxClaims : option Z
}.

Record confirmation_row : Type := {
  confirmation_id : Z;
  confirmation_jwtId : Z;
  confirmation_issuer : value;
  confirmation_origClaim : string;
  confirmation_actionRowId : option Z;
  confirmation_tenureRowId : option Z;
  confirmation_orgRoleRowId : option Z
}.

Record Db : Type := {
  jwts : list jwt_row;
  events : list event_row;
  actions : list action_row;
  tenures : list tenure_row;
  orgRoles : list orgRole_row;
  votes : list vote_row;
  registrations : list registration_row;
  confirmations : list confirmation_row;
  (** the "sees" edges: (observer, observed) *)
  network : list (value * value)
}.

Definition with_jwts (x : list jwt_row) (d : Db) : Db :=
  {| jwts := x; events := events d; actions := actions d; tenures := tenures d;
     orgRoles := orgRoles d; votes := votes d; registrations := registrations d;
     confirmations := confirmations d; network := network d |}.
Definition with_events (x : list event_row) (d : Db) : Db :=
  {| jwts := jwts d; events := x; actions := actions d; tenures := tenures d;
     orgRoles := orgRoles d; votes := votes d; registrations := registrations d;
     confirmations := confirmations d; network := network d |}.
Definition with_actions (x : list action_row) (d : Db) : Db :=
  {| jwts := jwts d; events := events d; actions := x; tenures := tenures d;
     orgRoles := orgRoles d; votes := votes d; registrations := registrations d;
     confirmations := confirmations d; network := network d |}.
Definition with_tenures (x : list tenure_row) (d : Db) : Db :=
  {| jwts := jwts d; events := events d; actions := actions d; tenures := x;
     orgRoles := orgRoles d; votes := votes d; registrations := registrations d;
     confirmations := confirmations d; network := network d |}.
Definition with_orgRoles (x : list orgRole_row) (d : Db) : Db :=
  {| jwts := jwts d; events := events d; actions := actions d; tenures := tenures d;
     orgRoles := x; votes := votes d; registrations := registrations d;
     confirmations := confirmations d; network := network d |}.
Definition with_votes (x : list vote_row) (d : Db) : Db :=
  {| jwts := jwts d; events := events d; actions := actions d; tenures := tenures d;
     orgRoles := orgRoles d; votes := x; registrations := registrations d;
     confirmations := confirmations d; network := network d |}.
Definition with_registrations (x : list registration_row) (d : Db) : Db :=
  {| jwts := jwts d; events := events d; actions := actions d; tenures := tenures d;
     orgRoles := orgRoles d; votes := votes d; registrations := x;
     confirmations := confirmations d; network := network d |}.
Definition with_confirmations (x : list confirmation_row) (d : Db) : Db :=
  {| jwts := jwts d; events := events d; actions := actions d; tenures := tenures d;
     orgRoles := orgRoles d; votes := votes d; registrations := registrations d;
     confirmations := x; network := network d |}.
Definition with_network (x : list (value * value)) (d : Db) : Db :=
  {| jwts := jwts d; events := events d; actions := actions d; tenures := tenures d;
     orgRoles := orgRoles d; votes := votes d; registrations := registrations d;
     confirmations := confirmations d; network := x |}.

(** ** The world an async function runs in *)

Inductive log_level : Type := LInfo | LWarn | LError | LConsole.

(** One line written through the logger [l] (trace lines are left out) or
    through [console.log]. *)
Inductive log_entry : Type :=
| Log (level : log_level) (text : string)
| LogRejection (level : log_level) (e : rejection) (text : string).

Record World : Type := {
  db : Db;
  (** the process-wide cache of visible sets, keyed by requester *)
  netCache : gmap string (list value);
  logs : list log_entry;
  (** the clock, in milliseconds since the epoch *)
  now : Z;
  (** which of the coming store calls fail: [true] makes the next call fail,
      and once the list is used up no call fails *)
  faults : list bool
}.

Definition with_db (x : Db) (w : World) : World :=
  {| db := x; netCache := netCache w; logs := logs w; now := now w;
     faults := faults w |}.
Definition with_netCache (x : gmap string (list value)) (w : World) : World :=
  {| db := db w; netCache := x; logs := logs w; now := now w;
     faults := faults w |}.
Definition with_logs (x : list log_entry) (w : World) : World :=
  {| db := db w; netCache := netCache w; logs := x; now := now w;
     faults := faults w |}.
Definition with_faults (x : list bool) (w : World) : World :=
  {| db := db w; netCache := netCache w; logs := logs w; now := now w;
     faults := x |}.

(** ** Async functions as computations *)

Definition M (A : Type) : Type := World → outcome A * World.

Definition resolve {A} (a : A) : M A := λ w, (Resolved a, w).
Definition reject {A} (e : rejection) : M A := λ w, (Rejected e, w).
Definition settle {A} (o : outcome A) : M A := λ w, (o, w).

(** [await m] followed by the rest of the function: a rejection of [m] leaves
    the function at once, with whatever [m] already did to the world. *)
Definition bind {A B} (m : M A) (k : A → M B) : M B :=
  λ w, match m w with
       | (Resolved a, w') => k a w'
       | (Rejected e, w') => (Rejected e, w')
       end.

(** [m.catch(h)] *)
Definition catch {A} (m : M A) (h : rejection → M A) : M A :=
  λ w, match m w with
       | (Resolved a, w') => (Resolved a, w')
       | (Rejected e, w') => h e w'
       end.

Notation "'let!' x ':=' m 'in' k" := (bind m (λ x, k))
  (at level 10, x pattern, m at level 100, k at level 200).
Notation "m ';;' k" := (bind m (λ _, k))
  (at level 100, k at level 200, right associativity).

(** The promises of [ms] were all started before [Promise.all] is awaited:
    each of them runs, and the join is rejected with the first rejection. *)
Fixpoint promise_all {A} (ms : list (M A)) : M (list A) :=
  match ms with
  | [] => resolve []
  | m :: rest =>
      λ w, match m w with
           | (Resolved a, w') =>
               match promise_all rest w' with
               | (Resolved l, w'') => (Resolved (a :: l), w'')
               | (Rejected e, w'') => (Rejected e, w'')
               end
           | (Rejected e, w') => (Rejected e, (promise_all rest w').2)
           end
  end.

(** A sequential [for] loop whose body is awaited at every turn. *)
Fixpoint for_each {A B} (f : A → M B) (xs : list A) : M (list B) :=
  match xs with
  | [] => resolve []
  | x :: rest =>
      let! b := f x in
      let! bs := for_each f rest in
      resolve (b :: bs)
  end.

Definition log (e : log_entry) : M unit :=
  λ w, (Resolved tt, with_logs (logs w ++ [e]) w).

Definition clock : M Z := λ w, (Resolved (now w), w).

(** A call into the store: it fails when the world says so, and otherwise runs
    the query or statement [q] on the tables.  A call that fails is taken to
    fail before it has any effect: whether a statement that the store reports
    as failed has been committed all the same is not modelled. *)
Definition db_call {A} (q : Db → outcome A * Db) : M A :=
  λ w, match faults w with
       | true :: rest => (Rejected StoreError, with_faults rest w)
       | false :: rest =>
           let r := q (db w) in (r.1, with_db r.2 (with_faults rest w))
       | [] => let r := q (db w) in (r.1, with_db r.2 w)
       end.

Definition db_query {A} (q : Db → A) : M A :=
  db_call (λ d, (Resolved (q d), d)).

(** ** What the service takes from its platform

    Library functions, the process environment and the constants of [util.js]
    that the sources import but do not define. *)
Class Platform : Type := {
  (** [canonicalize] (the npm package) *)
  canonicalize : value → string;
  (** [base64url.encode] *)
  base64url_encode : string → string;
  (** [JSON.parse(base64url.decode(R.split('.', jwt)[1]))], which throws on a
      malformed token *)
  decode_payload : string → outcome value;
  (** [didJwt.verifyJWT(jwt, {resolver})] at a given time: the verified
      object, or the text of the error it throws *)
  verifyJWT : string → Z → string + value;
  (** [JSON.parse] of a stored claim *)
  JSON_parse : string → value;
  (** a SHA-256 digest, in hexadecimal *)
  sha256_hex : string → string;
  (** a template literal's rendering of a value *)
  js_string : value → string;
  (** the number a string converts to, if any *)
  string_to_number : string → option Z;
  (** [process.env.NODE_ENV] *)
  NODE_ENV : string;
  (** [process.env.SERVICE_ID] *)
  SERVICE_ID : value;
  (** the number [process.env.DEFAULT_MAX_REGISTRATIONS_PER_MONTH] stands
      for, when it is set and not empty *)
  env_DEFAULT_MAX_REGISTRATIONS_PER_MONTH : option Z;
  (** the number [process.env.DEFAULT_MAX_CLAIMS_PER_WEEK] stands for, when it
      is set and not empty *)
  env_DEFAULT_MAX_CLAIMS_PER_WEEK : option Z;
  (** [HIDDEN_TEXT] of [util.js] *)
  HIDDEN_TEXT : string;
  (** whether a string is an identity (a DID) *)
  isDid : string → bool;
  (** the fixed placeholder that stands for an identity in a content hash *)
  DID_PLACEHOLDER : string;
  (** [calcBbox] of [util.js], which may throw *)
  calcBbox : value → outcome value;
  (** luxon: the first instant of the month of an instant, the instant one
      month later, and the ISO-8601 rendering *)
  startOfMonth : Z → Z;
  plusOneMonth : Z → Z;
  toISO : Z → string;
  (** how many edges the store follows when it computes a visible set, less
      one *)
  networkDepth : nat
}.

(** ** Store operations

    Pure readings and updates of the tables; [db_call] turns them into calls
    that can fail. *)

Definition next_id {R} (id : R → Z) (rows : list R) : Z :=
  1 + foldr (λ r m, Z.max (id r) m) 0 rows.

Definition value_is (a b : value) : bool := bool_decide (a = b).

Module Store.

(** Modelled from the spec: [registrationByDid] is the Registration row of
    an identity, if there is one. *)
Definition registrationByDid (did : value) (d : Db) : option registration_row :=
  find (λ r, value_is (registration_did r) did) (registrations d).

Definition issued_since (start : Z) (r : jwt_row) : bool :=
  match jwt_issuedAt r with
  | VNum secs => Z.leb start (secs * 1000)
  | _ => false
  end.

(** Modelled from the spec: [jwtCountByAfter] counts the envelopes issued by
    an identity since an instant. *)
Definition jwtCountByAfter (did : value) (start : Z) (d : Db) : Z :=
  Z.of_nat (length (List.filter (λ r, value_is (jwt_issuer r) did && issued_since start r)
                           (jwts d))).

Definition registered_since (startEpoch : Z) (r : registration_row) : bool :=
  match registration_epoch r with
  | Some e => Z.leb startEpoch e
  | None => false
  end.

(** Modelled from the spec: [registrationCountByAfter] counts the
    registrations an identity has made since an instant (in seconds). *)
Definition registrationCountByAfter (did : value) (startEpoch : Z) (d : Db) : Z :=
  Z.of_nat (length (List.filter (λ r, value_is (registration_agent r) did
                                 && registered_since startEpoch r)
                           (registrations d))).

(** Modelled from the spec: [jwtInsert] appends the envelope row and yields
    its id. *)
Definition jwtInsert (entity : jwt_row) (d : Db) : outcome Z * Db :=
  (Resolved (jwt_id entity), with_jwts (jwts d ++ [entity]) d).

(** Modelled from the spec: an Event is found by (organizer name, event
    name, start time). *)
Definition eventsByParams (orgName name startTime : value) (d : Db) : list event_row :=
  List.filter (λ e, value_is (event_orgName e) orgName && value_is (event_name e) name
               && value_is (event_startTime e) startTime)
         (events d).

Definition eventInsert (orgName name startTime : value) (d : Db) : outcome Z * Db :=
  let id := next_id event_id (events d) in
  (Resolved id,
   with_events (events d ++ [{| event_id := id; event_orgName := orgName;
                                event_name := name; event_startTime := startTime |}]) d).

(** Modelled from the spec: the action claim of an agent at an event, or
    [null]. *)
Definition actionClaimIdByDidEventId (did : value) (eventId : Z) (d : Db) : option Z :=
  action_id <$> find (λ a, value_is (action_agentDid a) did
                           && Z.eqb (action_eventRowId a) eventId)
                     (actions d).

Definition actionClaimInsert (issuerDid agentDid : value) (jwtId : Z) (event : event_row)
    (d : Db) : outcome Z * Db :=
  let id := next_id action_id (actions d) in
  (Resolved id,
   with_actions (actions d ++
     [{| action_id := id; action_jwtId := jwtId; action_issuerDid := issuerDid;
         action_agentDid := agentDid; action_eventRowId := event_id event;
         action_eventOrgName := event_orgName event;
         action_eventName := event_name event;
         action_eventStartTime := event_startTime event |}]) d).

Definition actionClaimById (id : Z) (d : Db) : option action_row :=
  find (λ a, Z.eqb (action_id a) id) (actions d).

(** Modelled from the spec: the tenure claim of a party over a polygon, or
    [null]. *)
Definition tenureClaimIdByPartyAndGeoShape (partyDid polygon : value) (d : Db) : option Z :=
  tenure_id <$> find (λ t, value_is (tenure_partyDid t) partyDid
                           && value_is (tenure_polygon t) polygon)
                     (tenures d).

Definition tenureInsert (entity : tenure_row) (d : Db) : outcome Z * Db :=
  let id := next_id tenure_id (tenures d) in
  (Resolved id,
   with_tenures (tenures d ++
     [{| tenure_id := id; tenure_jwtId := tenure_jwtId entity;
         tenure_issuerDid := tenure_issuerDid entity;
         tenure_partyDid := tenure_partyDid entity;
         tenure_polygon := tenure_polygon entity;
         tenure_westLon := tenure_westLon entity;
         tenure_minLat := tenure_minLat entity;
         tenure_eastLon := tenure_eastLon entity;
         tenure_maxLat := tenure_maxLat entity |}]) d).

(** Modelled from the spec: the role claim with this organization, role,
    dates and member, or [null]. *)
Definition orgRoleClaimIdByOrgAndDates (orgName roleName startDate endDate memberDid : value)
    (d : Db) : option Z :=
  orgRole_id <$> find (λ r, value_is (orgRole_orgName r) orgName
                            && value_is (orgRole_roleName r) roleName
                            && value_is (orgRole_startDate r) startDate
                            && value_is (orgRole_endDate r) endDate
                            && value_is (orgRole_memberDid r) memberDid)
                      (orgRoles d).

Definition orgRoleInsert (entity : orgRole_row) (d : Db) : outcome Z * Db :=
  let id := next_id orgRole_id (orgRoles d) in
  (Resolved id,
   with_orgRoles (orgRoles d ++
     [{| orgRole_id := id; orgRole_jwtId := orgRole_jwtId entity;
         orgRole_issuerDid := orgRole_issuerDid entity;
         orgRole_orgName := orgRole_orgName entity;
         orgRole_roleName := orgRole_roleName entity;
         orgRole_startDate := orgRole_startDate entity;
         orgRole_endDate := orgRole_endDate entity;
         orgRole_memberDid := orgRole_memberDid entity |}]) d).

Definition voteInsert (entity : vote_row) (d : Db) : outcome Z * Db :=
  let id := next_id vote_id (votes d) in
  (Resolved id,
   with_votes (votes d ++
     [{| vote_id := id; vote_jwtId := vote_jwtId entity;
         vote_issuerDid := vote_issuerDid entity;
         vote_actionOption := vote_actionOption entity;
         vote_candidate := vote_candidate entity;
         vote_eventName := vote_eventName entity;
         vote_eventStartTime := vote_eventStartTime entity |}]) d).

Definition registrationInsert (did agent : value) (epoch jwtId : Z) (d : Db)
    : outcome Z * Db :=
  let id := next_id registration_id (registrations d) in
  (Resolved id,
   with_registrations (registrations d ++
     [{| registration_id := id; registration_did := did;
         registration_agent := agent; registration_epoch := Some epoch;
         registration_jwtId := Some jwtId; registration_maxRegs := None;
         registration_maxClaims := None |}]) d).

(** Modelled from the spec: at most one confirmation per (issuer, target);
    these find the one there is. *)
Definition confirmationByIssuerAndAction (issuer : value) (actionId : Z) (d : Db)
    : option confirmation_row :=
  find (λ c, value_is (confirmation_issuer c) issuer
             && bool_decide (confirmation_actionRowId c = Some actionId))
       (confirmations d).

Definition confirmationByIssuerAndTenure (issuer : value) (tenureId : Z) (d : Db)
    : option confirmation_row :=
  find (λ c, value_is (confirmation_issuer c) issuer
             && bool_decide (confirmation_tenureRowId c = Some tenureId))
       (confirmations d).

Definition confirmationByIssuerAndOrgRole (issuer : value) (orgRoleId : Z) (d : Db)
    : option confirmation_row :=
  find (λ c, value_is (confirmation_issuer c) issuer
             && bool_decide (confirmation_orgRoleRowId c = Some orgRoleId))
       (confirmations d).

(** Modelled from the spec: a confirmation of an untyped claim is
    distinguished by matching the canonicalized claim content. *)
Definition confirmationByIssuerAndOrigClaim `{Platform} (issuer origClaim : value) (d : Db)
    : option confirmation_row :=
  find (λ c, value_is (confirmation_issuer c) issuer
             && String.eqb (confirmation_origClaim c) (canonicalize origClaim))
       (confirmations d).

Definition confirmationInsert (issuer : value) (jwtId : Z) (origClaim : string)
    (actionId tenureId orgRoleId : option Z) (d : Db) : outcome Z * Db :=
  let id := next_id confirmation_id (confirmations d) in
  (Resolved id,
   with_confirmations (confirmations d ++
     [{| confirmation_id := id; confirmation_jwtId := jwtId;
         confirmation_issuer := issuer; confirmation_origClaim := origClaim;
         confirmation_actionRowId := actionId;
         confirmation_tenureRowId := tenureId;
         confirmation_orgRoleRowId := orgRoleId |}]) d).

(** Modelled from the spec: [jwtById] is the envelope with this id, if there
    is one. *)
Definition jwtById (id : Z) (d : Db) : option jwt_row :=
  find (λ r, Z.eqb (jwt_id r) id) (jwts d).

(** Modelled from the spec: [confirmationsByClaim] yields the confirmations
    that hold this canonicalized claim. *)
Definition confirmationsByClaim (claim : string) (d : Db) : list confirmation_row :=
  List.filter (λ c, String.eqb (confirmation_origClaim c) claim) (confirmations d).

End Store.

(** ** [util.js] *)

(** Modelled from the spec: [allDidsInside] is not part of the sources; it
    scans the claim's object graph recursively and yields each identity found
    in it once. *)
Fixpoint didsInside `{Platform} (v : value) : list string :=
  match v with
  | VStr s => if isDid s then [s] else []
  | VArr elems => concat (map didsInside elems)
  | VObj props => concat (map (λ kv, didsInside kv.2) props)
  | _ => []
  end.

Definition allDidsInside `{Platform} (v : value) : list string :=
  remove_dups (didsInside v).

(** Modelled from the spec: the claim with every embedded identity replaced by
    the fixed placeholder. *)
Fixpoint maskDids `{Platform} (v : value) : value :=
  match v with
  | VStr s => if isDid s then VStr DID_PLACEHOLDER else VStr s
  | VArr elems => VArr (map maskDids elems)
  | VObj props => VObj (map (λ kv, (kv.1, maskDids kv.2)) props)
  | _ => v
  end.

(** What [jwtClaimsAndIdsUnmerkled] yields for a row. *)
Record idAndClaim : Type := {
  iac_id : Z;
  iac_claim : string;
  iac_hashHex : option string
}.

(** Modelled from the spec: [hashedClaimWithHashedDids] (the spec's
    [maskedHash]) is a digest over the canonical claim with every embedded
    identity masked. *)
Definition hashedClaimWithHashedDids `{Platform} (r : idAndClaim) : string :=
  sha256_hex (canonicalize (maskDids (JSON_parse (iac_claim r)))).

(** Modelled from the spec: [hashChain] folds the spec's [chainLink] over the
    records, [chainLink(previousHex, record) = hash(previousHex ||
    maskedHash(record))]. *)
Definition chainLink `{Platform} (previousHex : string) (r : idAndClaim) : string :=
  sha256_hex (previousHex +:+ hashedClaimWithHashedDids r).

Definition hashChain `{Platform} (seed : string) (rs : list idAndClaim) : string :=
  fold_left chainLink rs seed.

Module MerkleStore.

Fixpoint insert_by_id (r : jwt_row) (sorted : list jwt_row) : list jwt_row :=
  match sorted with
  | [] => [r]
  | x :: rest =>
      if Z.leb (jwt_id r) (jwt_id x) then r :: x :: rest
      else x :: insert_by_id r rest
  end.

Definition order_by_id (rows : list jwt_row) : list jwt_row :=
  foldr insert_by_id [] rows.

Definition as_idAndClaim (r : jwt_row) : idAndClaim :=
  {| iac_id := jwt_id r; iac_claim := jwt_claim r; iac_hashHex := jwt_hashHex r |}.

(** Modelled from the spec: the stored rows lacking a chain value, in id
    order. *)
Definition jwtClaimsAndIdsUnmerkled (d : Db) : list idAndClaim :=
  as_idAndClaim <$>
    order_by_id (List.filter (λ r, bool_decide (jwt_hashChainHex r = None)) (jwts d)).

(** Modelled from the spec: the last stored chain value, as a result set of
    at most one row. *)
Definition jwtLastMerkleHash (d : Db) : list string :=
  match reverse (order_by_id (jwts d)) ≫= (λ r, option_list (jwt_hashChainHex r)) with
  | [] => []
  | h :: _ => [h]
  end.

(** Modelled from the spec: sets the content hash and the chain value of the
    row with this id. *)
Definition jwtSetMerkleHash (i : Z) (hashHex : string) (hashChainHex : string) (d : Db)
    : outcome unit * Db :=
  (Resolved tt,
   with_jwts ((λ r, if Z.eqb (jwt_id r) i then
                      {| jwt_id := jwt_id r; jwt_issuedAt := jwt_issuedAt r;
                         jwt_issuer := jwt_issuer r; jwt_subject := jwt_subject r;
                         jwt_claimContext := jwt_claimContext r;
                         jwt_claimType := jwt_claimType r; jwt_claim := jwt_claim r;
                         jwt_claimEncoded := jwt_claimEncoded r;
                         jwt_jwtEncoded := jwt_jwtEncoded r;
                         jwt_hashHex := Some hashHex;
                         jwt_hashChainHex := Some hashChainHex |}
                    else r) <$> jwts d) d).

End MerkleStore.

(** ** [network-cache.service] *)

Module Network.

Definition seenBy (edges : list (value * value)) (observer : value) : list value :=
  snd <$> List.filter (λ e, value_is e.1 observer) edges.

Fixpoint reach (n : nat) (edges : list (value * value)) (frontier : list value)
    : list value :=
  let next := frontier ≫= seenBy edges in
  match n with
  | O => next
  | S n' => next ++ reach n' edges next
  end.

(** Modelled from the spec: [getNetwork] returns every identity visible to
    an identity, computed by traversal from the stored edges up to a depth
    the implementation chooses. *)
Definition getNetwork `{Platform} (did : value) (d : Db) : list value :=
  remove_dups (reach networkDepth (network d) [did]).

(** Modelled from the spec: recording an edge that is already there is a
    no-op. *)
Definition canSeeInsert (observer observed : value) (d : Db) : outcome unit * Db :=
  (Resolved tt,
   if bool_decide ((observer, observed) ∈ network d) then d
   else with_network (network d ++ [(observer, observed)]) d).

(** Modelled from the spec: [addCanSee] records the directed edge by which
    the first identity sees the second, and cached visible sets, stale from
    then on, are dropped. *)
Definition addCanSee (observer observed : value) : M unit :=
  db_call (canSeeInsert observer observed);;
  λ w, (Resolved tt, with_netCache ∅ w).

End Network.

(** ** [jwt.service.js] *)

(** [a === b] *)
Definition strict_equal (a b : value) : bool :=
  match a, b with
  | VArr _, _ | VObj _, _ | _, VArr _ | _, VObj _ => false
  | _, _ => value_is a b
  end.

(** [a && b] on conditions whose evaluation can throw *)
Definition and_then (a b : outcome bool) : outcome bool :=
  match a with
  | Resolved true => b
  | _ => a
  end.

Definition omap_outcome {A B} (f : A → B) (o : outcome A) : outcome B :=
  match o with
  | Resolved a => Resolved (f a)
  | Rejected e => Rejected e
  end.

(** [o.k1.k2...] *)
Fixpoint path (o : value) (ks : list string) : outcome value :=
  match ks with
  | [] => Resolved o
  | k :: rest =>
      match get o k with
      | Resolved v => path v rest
      | Rejected e => Rejected e
      end
  end.

Definition ms_per_day : Z := 86400000.

(** luxon's [startOf('week')] in UTC: weeks start on Mondays, and day 0 of
    the epoch was a Thursday. *)
Definition startOfWeek (t : Z) : Z :=
  let day := t `div` ms_per_day in
  (day - (day + 3) `mod` 7) * ms_per_day.

Definition plusOneWeek (t : Z) : Z := t + 7 * ms_per_day.

(** The number a value converts to in a comparison; [None] is [NaN]. *)
Definition to_number `{Platform} (v : value) : option Z :=
  match v with
  | VNum n => Some n
  | VNull => Some 0
  | VBool b => Some (if b then 1 else 0)
  | VUndef => None
  | VStr s => string_to_number s
  | VArr _ | VObj _ => string_to_number (js_string v)
  end.

Record RateLimits : Type := {
  nextMonthBeginDateTime : string;
  nextWeekBeginDateTime : string;
  doneClaimsThisWeek : Z;
  doneRegistrationsThisMonth : Z;
  maxClaimsPerWeek : Z;
  maxRegistrationsPerMonth : Z
}.

(** The object [createOneConfirmation] resolves to. *)
Record Confirmed : Type := {
  confirmId : Z;
  actionClaimId : option Z;
  tenureClaimId : option Z;
  orgRoleClaimId : option Z
}.

(** [x || dflt] on a nullable number column *)
Definition or_else (x : option Z) (dflt : Z) : Z :=
  match x with
  | Some n => if Z.eqb n 0 then dflt else n
  | None => dflt
  end.

(** [x != null ? x : dflt] *)
Definition unless_null (x : option Z) (dflt : Z) : Z :=
  match x with
  | Some n => n
  | None => dflt
  end.

(** The object [byId] builds for an envelope: the stored row without its
    encodings and hashes, and with the claim parsed. *)
Record JwtSummary : Type := {
  summary_id : Z;
  summary_issuedAt : value;
  summary_issuer : value;
  summary_subject : value;
  summary_claimContext : value;
  summary_claimType : value;
  summary_claim : value
}.

(** ramda's [R.uniq]: each element once, where it first occurs. *)
Fixpoint uniq (l : list value) : list value :=
  match l with
  | [] => []
  | x :: rest => x :: List.filter (λ y, negb (value_is y x)) (uniq rest)
  end.

(** [delete o[k]] *)
Definition delete_property (o : value) (k : string) : value :=
  match o with
  | VObj props => VObj (List.filter (λ kv, negb (String.eqb k kv.1)) props)
  | _ => o
  end.

Module JwtService.
Section JwtService.
Context `{Platform}.

Definition DEFAULT_MAX_REGISTRATIONS_PER_MONTH : Z :=
  default 10 env_DEFAULT_MAX_REGISTRATIONS_PER_MONTH.
Definition DEFAULT_MAX_CLAIMS_PER_WEEK : Z :=
  default 100 env_DEFAULT_MAX_CLAIMS_PER_WEEK.

Definition isContextSchemaOrg (context : value) : bool :=
  is_string context "https://schema.org" || is_string context "http://schema.org".

Definition isContextSchemaForConfirmation (context : value) : bool :=
  isContextSchemaOrg context.

Definition isEndorserRegistrationClaim (claim : value) : outcome bool :=
  and_then (omap_outcome isContextSchemaOrg (get claim "@context"))
    (and_then (omap_outcome (λ t, is_string t "RegisterAction") (get claim "@type"))
       (omap_outcome (λ o, strict_equal o SERVICE_ID) (get claim "object"))).

Definition getRateLimits (requestorDid : value) : M RateLimits :=
  let! registered := db_query (Store.registrationByDid requestorDid) in
  match registered with
  | Some registered =>
      let! t := clock in
      let startOfMonthDate := startOfMonth t in
      let startOfMonthEpoch := startOfMonthDate `div` 1000 in
      let startOfWeekDate := startOfWeek t in
      let! claimedCount := db_query (Store.jwtCountByAfter requestorDid startOfWeekDate) in
      let! regCount :=
        db_query (Store.registrationCountByAfter requestorDid startOfMonthEpoch) in
      resolve
        {| nextMonthBeginDateTime := toISO (plusOneMonth startOfMonthDate);
           nextWeekBeginDateTime := toISO (plusOneWeek startOfWeekDate);
           doneClaimsThisWeek := claimedCount;
           doneRegistrationsThisMonth := regCount;
           maxClaimsPerWeek :=
             or_else (registration_maxClaims registered) DEFAULT_MAX_CLAIMS_PER_WEEK;
           maxRegistrationsPerMonth :=
             or_else (registration_maxRegs registered)
                     DEFAULT_MAX_REGISTRATIONS_PER_MONTH |}
  | None =>
      reject (ClientError "Rate limits are only available to existing users."
                          UNREGISTERED_USER)
  end.

Definition extractClaim (payload : value) : outcome value :=
  match get payload "claim" with
  | Rejected e => Rejected e
  | Resolved c =>
      let claim :=
        if truthy c then Resolved c
        else match get payload "vc" with
             | Rejected e => Rejected e
             | Resolved vc => if truthy vc then get vc "credentialSubject" else Resolved vc
             end in
      omap_outcome (λ claim, if truthy claim then claim else VNull) claim
  end.

(** The loop of [merkleUnmerkled]: the store calls it starts, one for each
    row, with the chain value running from one row to the next. *)
Fixpoint merkleUpdates (latestHashChainHex : string) (rows : list idAndClaim)
    : list (M unit) :=
  match rows with
  | [] => []
  | idAndClaim :: rest =>
      let latestHashChainHex := hashChain latestHashChainHex [idAndClaim] in
      match iac_hashHex idAndClaim with
      | None =>
          (log (Log LError "Found entries without a hashed claim, indicating some problem when inserting jwt records. Will create.");;
           db_call (MerkleStore.jwtSetMerkleHash (iac_id idAndClaim)
                      (hashedClaimWithHashedDids idAndClaim) latestHashChainHex))
      | Some hashHex =>
          db_call (MerkleStore.jwtSetMerkleHash (iac_id idAndClaim) hashHex
                     latestHashChainHex)
      end :: merkleUpdates latestHashChainHex rest
  end.

Definition merkleUnmerkled : M (list unit) :=
  catch
    (let! idAndClaimArray := db_query MerkleStore.jwtClaimsAndIdsUnmerkled in
     catch
       (let! hashHexArray := db_query MerkleStore.jwtLastMerkleHash in
        let seedHex := match hashHexArray with
                       | hashChainHex :: _ => hashChainHex
                       | [] => ""
                       end in
        promise_all (merkleUpdates seedHex idAndClaimArray))
       (λ e, log (LogRejection LError e "Got error while saving hashes, with this toString(): ");;
             reject e))
    (λ e, log (LogRejection LError e "Got error while retrieving unchained claims, with this toString(): ");;
          reject e).

(** The first statement of [createOneConfirmation]: an original claim with
    no context gets the schema.org one, written into the object itself. *)
Definition defaultContext (origClaim : value) : outcome value :=
  match get origClaim "@context" with
  | Rejected e => Rejected e
  | Resolved context =>
      if nullish context then set origClaim "@context" (VStr "https://schema.org")
      else Resolved origClaim
  end.

(** The caller's object once [createOneConfirmation] has run on it. *)
Definition origClaimAfter (origClaim : value) : value :=
  match defaultContext origClaim with
  | Resolved c => c
  | Rejected _ => origClaim
  end.

Definition isOrgRoleConfirmation (origClaim : value) : outcome bool :=
  and_then (omap_outcome isContextSchemaOrg (get origClaim "@context"))
    (and_then (omap_outcome (λ t, is_string t "Organization") (get origClaim "@type"))
       (and_then (omap_outcome truthy (get origClaim "member"))
          (and_then (omap_outcome (λ t, is_string t "OrganizationRole")
                       (path origClaim ["member"; "@type"]))
             (and_then (omap_outcome truthy (path origClaim ["member"; "member"]))
                (omap_outcome truthy
                   (path origClaim ["member"; "member"; "identifier"])))))).

Definition typeIs (claim : value) (context : value → bool) (type : string)
    : outcome bool :=
  and_then (omap_outcome context (get claim "@context"))
           (omap_outcome (λ t, is_string t type) (get claim "@type")).

(** [createOneConfirmation] after the context default *)
Definition confirmOne (jwtId : Z) (issuerDid origClaim : value) : M Confirmed :=
  let! isJoin := settle (typeIs origClaim isContextSchemaOrg "JoinAction") in
  if isJoin then
    let! orgName := settle (path origClaim ["event"; "organizer"; "name"]) in
    let! name := settle (path origClaim ["event"; "name"]) in
    let! startTime := settle (path origClaim ["event"; "startTime"]) in
    let! events := db_query (Store.eventsByParams orgName name startTime) in
    match events with
    | [] => reject (JsError "Attempted to confirm action at an unrecorded event.")
    | event0 :: _ =>
        let! agentDid := settle (path origClaim ["agent"; "did"]) in
        let! actionClaimId :=
          db_query (Store.actionClaimIdByDidEventId agentDid (event_id event0)) in
        match actionClaimId with
        | None => reject (JsError "Attempted to confirm an unrecorded action.")
        | Some actionClaimId =>
            let! confirmation :=
              db_query (Store.confirmationByIssuerAndAction issuerDid actionClaimId) in
            match confirmation with
            | Some confirmation =>
                reject (JsError ("Attempted to confirm an action already confirmed in # "
                                 +:+ pretty (confirmation_id confirmation)))
            | None =>
                let origClaimStr := canonicalize origClaim in
                let! result :=
                  db_call (Store.confirmationInsert issuerDid jwtId origClaimStr
                             (Some actionClaimId) None None) in
                resolve {| confirmId := result; actionClaimId := Some actionClaimId;
                           tenureClaimId := None; orgRoleClaimId := None |}
            end
        end
    end
  else
  let! isTenure :=
    settle (typeIs origClaim (λ c, is_string c "https://endorser.ch") "Tenure") in
  if isTenure then
    let! partyDid := settle (path origClaim ["party"; "did"]) in
    let! polygon := settle (path origClaim ["spatialUnit"; "geo"; "polygon"]) in
    let! tenureClaimId :=
      db_query (Store.tenureClaimIdByPartyAndGeoShape partyDid polygon) in
    match tenureClaimId with
    | None => reject (JsError "Attempted to confirm an unrecorded tenure.")
    | Some tenureClaimId =>
        let! confirmation :=
          db_query (Store.confirmationByIssuerAndTenure issuerDid tenureClaimId) in
        match confirmation with
        | Some confirmation =>
            reject (JsError ("Attempted to confirm a tenure already confirmed in # "
                             +:+ pretty (confirmation_id confirmation)))
        | None =>
            let origClaimStr := canonicalize origClaim in
            let! result :=
              db_call (Store.confirmationInsert issuerDid jwtId origClaimStr
                         None (Some tenureClaimId) None) in
            resolve {| confirmId := result; actionClaimId := None;
                       tenureClaimId := Some tenureClaimId; orgRoleClaimId := None |}
        end
    end
  else
  let! isOrgRole := settle (isOrgRoleConfirmation origClaim) in
  if isOrgRole then
    let! orgName := settle (get origClaim "name") in
    let! roleName := settle (path origClaim ["member"; "roleName"]) in
    let! startDate := settle (path origClaim ["member"; "startDate"]) in
    let! endDate := settle (path origClaim ["member"; "endDate"]) in
    let! memberDid := settle (path origClaim ["member"; "member"; "identifier"]) in
    let! orgRoleClaimId :=
      db_query (Store.orgRoleClaimIdByOrgAndDates orgName roleName startDate endDate
                  memberDid) in
    match orgRoleClaimId with
    | None => reject (JsError "Attempted to confirm an unrecorded orgRole.")
    | Some orgRoleClaimId =>
        let! confirmation :=
          db_query (Store.confirmationByIssuerAndOrgRole issuerDid orgRoleClaimId) in
        match confirmation with
        | Some confirmation =>
            reject (JsError ("Attempted to confirm a orgRole already confirmed in # "
                             +:+ pretty (confirmation_id confirmation)))
        | None =>
            let origClaimStr := canonicalize origClaim in
            let! result :=
              db_call (Store.confirmationInsert issuerDid jwtId origClaimStr
                         None None (Some orgRoleClaimId)) in
            resolve {| confirmId := result; actionClaimId := None;
                       tenureClaimId := None; orgRoleClaimId := Some orgRoleClaimId |}
        end
    end
  else
    let! confirmation :=
      db_query (Store.confirmationByIssuerAndOrigClaim issuerDid origClaim) in
    match confirmation with
    | Some confirmation =>
        reject (JsError ("Attempted to confirm a claim already confirmed in # "
                         +:+ pretty (confirmation_id confirmation)))
    | None =>
        let origClaimStr := canonicalize origClaim in
        let! result :=
          db_call (Store.confirmationInsert issuerDid jwtId origClaimStr
                     None None None) in
        resolve {| confirmId := result; actionClaimId := None;
                   tenureClaimId := None; orgRoleClaimId := None |}
    end.

Definition createOneConfirmation (jwtId : Z) (issuerDid origClaim : value) : M Confirmed :=
  let! origClaim := settle (defaultContext origClaim) in
  confirmOne jwtId issuerDid origClaim.

(** [p.catch(console.log)]: the rejection is printed and the promise
    resolves to [undefined]. *)
Definition caught (m : M Confirmed) : M (option Confirmed) :=
  catch (let! r := m in resolve (Some r))
        (λ e, log (LogRejection LConsole e "");; resolve None).

(** The branches of [createEmbeddedClaimRecord], in the order in which their
    conditions are tried. *)
Inductive ClaimKind : Type :=
| KAgreeAction
| KJoinAction
| KOrganizationRole
| KRegistration
| KTenure
| KVoteAction
| KConfirmation
| KUnknown.

Fixpoint first_match (tests : list (outcome bool * ClaimKind)) : outcome ClaimKind :=
  match tests with
  | [] => Resolved KUnknown
  | (Rejected e, _) :: _ => Rejected e
  | (Resolved true, k) :: _ => Resolved k
  | (Resolved false, _) :: rest => first_match rest
  end.

Definition isOrgRoleClaim (claim : value) : outcome bool :=
  and_then (typeIs claim isContextSchemaOrg "Organization")
    (and_then (omap_outcome truthy (get claim "member"))
       (and_then (omap_outcome (λ t, is_string t "OrganizationRole")
                    (path claim ["member"; "@type"]))
          (omap_outcome truthy (path claim ["member"; "member"; "identifier"])))).

Definition claimKind (claim : value) : outcome ClaimKind :=
  first_match
    [ (typeIs claim isContextSchemaOrg "AgreeAction", KAgreeAction);
      (typeIs claim isContextSchemaOrg "JoinAction", KJoinAction);
      (isOrgRoleClaim claim, KOrganizationRole);
      (isEndorserRegistrationClaim claim, KRegistration);
      (typeIs claim (λ c, is_string c "https://endorser.ch") "Tenure", KTenure);
      (typeIs claim isContextSchemaOrg "VoteAction", KVoteAction);
      (typeIs claim isContextSchemaForConfirmation "Confirmation", KConfirmation) ].

(** [a && a.k] *)
Definition and_get (a : value) (k : string) : outcome value :=
  if truthy a then get a k else Resolved a.

Definition recordJoinAction (jwtId : Z) (issuerDid claim : value) : M unit :=
  let! agentDid := settle (path claim ["agent"; "did"]) in
  if negb (truthy agentDid) then
    log (Log LError ("Error in JwtService: JoinAction for " +:+ pretty jwtId
                     +:+ " has no agent DID."));;
    reject (JsError "Attempted to record a JoinAction claim with no agent DID.")
  else
  let! claimEvent := settle (get claim "event") in
  if negb (truthy claimEvent) then
    log (Log LError ("Error in JwtService: JoinAction for " +:+ pretty jwtId
                     +:+ " has no event info."));;
    reject (JsError "Attempted to record a JoinAction claim with no event info.")
  else
  let! organizer := settle (get claimEvent "organizer") in
  let! orgName := settle (and_get organizer "name") in
  let! name := settle (get claimEvent "name") in
  let! startTime := settle (get claimEvent "startTime") in
  let! events := db_query (Store.eventsByParams orgName name startTime) in
  let! event :=
    match events with
    | [] =>
        let! eventId := db_call (Store.eventInsert orgName name startTime) in
        resolve {| event_id := eventId; event_orgName := orgName;
                   event_name := name; event_startTime := startTime |}
    | event0 :: others =>
        (match others with
         | [] => resolve tt
         | _ :: _ =>
             log (Log LWarn ("JwtService Multiple events exist with orgName "
                             +:+ js_string orgName +:+ " name " +:+ js_string name
                             +:+ " startTime " +:+ js_string startTime))
         end);;
        let! actionClaimId :=
          db_query (Store.actionClaimIdByDidEventId agentDid (event_id event0)) in
        if truthy (from_option VNum VNull actionClaimId) then
          reject (JsError ("Same user attempted to record an action claim that already exists with ID "
                           +:+ pretty (default 0 actionClaimId)))
        else resolve event0
    end in
  let! actionId := db_call (Store.actionClaimInsert issuerDid agentDid jwtId event) in
  resolve tt.

Definition recordOrgRole (jwtId : Z) (issuerDid claim : value) : M unit :=
  let! orgName := settle (get claim "name") in
  let! roleName := settle (path claim ["member"; "roleName"]) in
  let! startDate := settle (path claim ["member"; "startDate"]) in
  let! endDate := settle (path claim ["member"; "endDate"]) in
  let! memberDid := settle (path claim ["member"; "member"; "identifier"]) in
  let! orgRoleId :=
    db_call (Store.orgRoleInsert
               {| orgRole_id := 0; orgRole_jwtId := jwtId; orgRole_issuerDid := issuerDid;
                  orgRole_orgName := orgName; orgRole_roleName := roleName;
                  orgRole_startDate := startDate; orgRole_endDate := endDate;
                  orgRole_memberDid := memberDid |}) in
  resolve tt.

Definition recordRegistration (jwtId : Z) (claim : value) : M unit :=
  let! did := settle (path claim ["participant"; "did"]) in
  let! agent := settle (path claim ["agent"; "did"]) in
  let! t := clock in
  let! registrationId :=
    db_call (Store.registrationInsert did agent (t `div` 1000) jwtId) in
  resolve tt.

Definition recordTenure (jwtId : Z) (issuerDid claim : value) : M unit :=
  let! polygon := settle (path claim ["spatialUnit"; "geo"; "polygon"]) in
  let! bbox := settle (calcBbox polygon) in
  let! party := settle (get claim "party") in
  let! partyDid := settle (and_get party "did") in
  let! westLon := settle (get bbox "westLon") in
  let! minLat := settle (get bbox "minLat") in
  let! eastLon := settle (get bbox "eastLon") in
  let! maxLat := settle (get bbox "maxLat") in
  let! tenureId :=
    db_call (Store.tenureInsert
               {| tenure_id := 0; tenure_jwtId := jwtId; tenure_issuerDid := issuerDid;
                  tenure_partyDid := partyDid; tenure_polygon := polygon;
                  tenure_westLon := westLon; tenure_minLat := minLat;
                  tenure_eastLon := eastLon; tenure_maxLat := maxLat |}) in
  resolve tt.

Definition recordVote (jwtId : Z) (issuerDid claim : value) : M unit :=
  let! actionOption := settle (get claim "actionOption") in
  let! candidate := settle (get claim "candidate") in
  let! eventName := settle (path claim ["object"; "event"; "name"]) in
  let! eventStartTime := settle (path claim ["object"; "event"; "startDate"]) in
  let! eventId :=
    db_call (Store.voteInsert
               {| vote_id := 0; vote_jwtId := jwtId; vote_issuerDid := issuerDid;
                  vote_actionOption := actionOption; vote_candidate := candidate;
                  vote_eventName := eventName; vote_eventStartTime := eventStartTime |}) in
  resolve tt.

Definition confirmEach (jwtId : Z) (issuerDid : value) (origClaims : list value)
    : M (list (option Confirmed)) :=
  for_each (λ origClaim, caught (createOneConfirmation jwtId issuerDid origClaim))
           origClaims.

Definition createEmbeddedClaimRecord (jwtId : Z) (issuerDid claim : value) : M unit :=
  let! kind := settle (claimKind claim) in
  match kind with
  | KAgreeAction =>
      let! origClaim := settle (get claim "object") in
      if isArray origClaim then
        let! elems := settle (iterate origClaim) in
        confirmEach jwtId issuerDid elems;; resolve tt
      else if truthy origClaim then
        caught (createOneConfirmation jwtId issuerDid origClaim);; resolve tt
      else resolve tt
  | KJoinAction => recordJoinAction jwtId issuerDid claim
  | KOrganizationRole => recordOrgRole jwtId issuerDid claim
  | KRegistration => recordRegistration jwtId claim
  | KTenure => recordTenure jwtId issuerDid claim
  | KVoteAction => recordVote jwtId issuerDid claim
  | KConfirmation =>
      let! origClaim := settle (get claim "originalClaim") in
      (if truthy origClaim then
         caught (createOneConfirmation jwtId issuerDid origClaim);; resolve tt
       else resolve tt);;
      let! origClaims := settle (get claim "originalClaims") in
      if truthy origClaims then
        let! elems := settle (iterate origClaims) in
        confirmEach jwtId issuerDid elems;; resolve tt
      else resolve tt
  | KUnknown =>
      let! context := settle (get claim "@context") in
      let! type := settle (get claim "@type") in
      log (Log LInfo ("Submitted unknown claim type with @context " +:+ js_string context
                      +:+ " and @type " +:+ js_string type
                      +:+ "  This isn't a problem, it just means there is no dedicated storage or reporting for that type."))
  end.

Definition set_or_keep (o : value) (k : string) (v : value) : value :=
  match set o k v with
  | Resolved o' => o'
  | Rejected _ => o
  end.

(** The caller's claim once [createEmbeddedClaimRecord] has run on it: the
    original claims it handed to [createOneConfirmation] are parts of the
    claim, and carry the context written into them. *)
Definition claimAfterRecord (claim : value) : value :=
  match claimKind claim with
  | Resolved KAgreeAction =>
      match get claim "object" with
      | Resolved (VArr elems) => set_or_keep claim "object" (VArr (origClaimAfter <$> elems))
      | Resolved origClaim =>
          if truthy origClaim then set_or_keep claim "object" (origClaimAfter origClaim)
          else claim
      | Rejected _ => claim
      end
  | Resolved KConfirmation =>
      let claim1 :=
        match get claim "originalClaim" with
        | Resolved origClaim =>
            if truthy origClaim
            then set_or_keep claim "originalClaim" (origClaimAfter origClaim)
            else claim
        | Rejected _ => claim
        end in
      match get claim1 "originalClaims" with
      | Resolved (VArr elems) =>
          set_or_keep claim1 "originalClaims" (VArr (origClaimAfter <$> elems))
      | _ => claim1
      end
  | _ => claim
  end.

Definition claimAfterRecords (claim : value) : value :=
  match claim with
  | VArr elems => VArr (claimAfterRecord <$> elems)
  | _ => claimAfterRecord claim
  end.

Definition createEmbeddedClaimRecords (jwtId : Z) (issuerDid claim : value) : M unit :=
  (if isArray claim then
     let! subClaims := settle (iterate claim) in
     promise_all (createEmbeddedClaimRecord jwtId issuerDid <$> subClaims);; resolve tt
   else
     createEmbeddedClaimRecord jwtId issuerDid claim);;
  (* now record all the "sees" relationships to the issuer *)
  promise_all ((λ did, Network.addCanSee (VStr did) issuerDid)
                 <$> allDidsInside (claimAfterRecords claim));;
  resolve tt.

(** [a < b] for a value and a number *)
Definition less_than (a : value) (b : Z) : bool :=
  match to_number a with
  | Some n => Z.ltb n b
  | None => false
  end.

Definition decodeAndVerifyJwt (jwt : string) : M value :=
  if String.eqb NODE_ENV "test-local" then
    let! payload := settle (decode_payload jwt) in
    let! t := clock in
    let nowEpoch := t `div` 1000 in
    let! exp := settle (get payload "exp") in
    let! payload :=
      if less_than exp nowEpoch then
        log (Log LWarn ("JWT with exp " +:+ js_string exp
                        +:+ " has expired but we're in test mode so using a new time."));;
        settle (set payload "exp" (VNum (nowEpoch + 100)))
      else resolve payload in
    let! iss := settle (get payload "iss") in
    resolve (VObj [("payload", payload); ("issuer", iss);
                   ("header", VObj [("typ", VStr "test")])])
  else
    let! t := clock in
    match verifyJWT jwt t with
    | inr verified => resolve verified
    | inl e =>
        reject (ClientError ("JWT failed verification: " +:+ e) JWT_VERIFY_FAILED)
    end.

(** Modelled from the spec: [buildJwtEntity] of the store service.  The
    envelope takes its fields from the payload and the claim; its id is
    assigned by the store and is larger than every id stored so far; the
    content hash is the masked hash of the claim and there is no chain value
    yet. *)
Definition buildJwtEntity (payload claim : value) (claimStr claimEncoded jwtEncoded : string)
    : M jwt_row :=
  let! issuedAt := settle (get payload "iat") in
  let! issuer := settle (get payload "iss") in
  let! subject := settle (get payload "sub") in
  let! claimContext := settle (get claim "@context") in
  let! claimType := settle (get claim "@type") in
  λ w,
    let id := next_id jwt_id (jwts (db w)) in
    (Resolved
       {| jwt_id := id; jwt_issuedAt := issuedAt; jwt_issuer := issuer;
          jwt_subject := subject; jwt_claimContext := claimContext;
          jwt_claimType := claimType; jwt_claim := claimStr;
          jwt_claimEncoded := claimEncoded; jwt_jwtEncoded := jwtEncoded;
          jwt_hashHex :=
            Some (hashedClaimWithHashedDids
                    {| iac_id := id; iac_claim := claimStr; iac_hashHex := None |});
          jwt_hashChainHex := None |}, w).

(** [a > b] for a nullable number column and a number *)
Definition column_greater (a : option Z) (b : Z) : bool := Z.ltb b (default 0 a).

Definition createWithClaimRecord (jwtEncoded : string) (authIssuerId : value) : M Z :=
  let! verified := decodeAndVerifyJwt jwtEncoded in
  let! payload := settle (get verified "payload") in
  let! mismatch :=
    settle (and_then (Resolved (truthy authIssuerId))
              (omap_outcome (λ iss, negb (strict_equal iss authIssuerId))
                            (get payload "iss"))) in
  if mismatch then
    let! iss := settle (get payload "iss") in
    reject (RejectedString ("JWT issuer " +:+ js_string authIssuerId
                            +:+ " does not match claim issuer " +:+ js_string iss))
  else
  let! iss := settle (get payload "iss") in
  let! registered := db_query (Store.registrationByDid iss) in
  match registered with
  | None =>
      reject (ClientError "You are not registered to make claims. Contact an existing user for help."
                          UNREGISTERED_USER)
  | Some registered =>
      let! t := clock in
      let startOfWeekDate := startOfWeek t in
      let! claimedCount := db_query (Store.jwtCountByAfter iss startOfWeekDate) in
      (* 0 shouldn't mean DEFAULT *)
      let maxAllowedClaims :=
        unless_null (registration_maxClaims registered) DEFAULT_MAX_CLAIMS_PER_WEEK in
      if Z.leb maxAllowedClaims claimedCount then
        reject (ClientError ("You have already made " +:+ pretty maxAllowedClaims
                             +:+ " claims this week. Contact an administrator for a higher limit.")
                            OVER_CLAIM_LIMIT)
      else
      let! payloadClaim := settle (extractClaim payload) in
      if truthy payloadClaim then
        let! isRegistration := settle (isEndorserRegistrationClaim payloadClaim) in
        (if isRegistration then
           let startOfMonthDate := startOfMonth t in
           let startOfMonthEpoch := startOfMonthDate `div` 1000 in
           let! regCount :=
             db_query (Store.registrationCountByAfter iss startOfMonthEpoch) in
           (* 0 shouldn't mean DEFAULT *)
           let maxAllowedRegs :=
             unless_null (registration_maxRegs registered)
                         DEFAULT_MAX_REGISTRATIONS_PER_MONTH in
           if Z.leb maxAllowedRegs regCount then
             reject (ClientError ("You have already registered " +:+ pretty maxAllowedRegs
                                  +:+ " this month. Contact an administrator for a higher limit.")
                                 OVER_REGISTRATION_LIMIT)
           else
           (* disallow registering others in the same week they got registered *)
           let startOfWeekEpoch := startOfWeekDate `div` 1000 in
           if column_greater (registration_epoch registered) startOfWeekEpoch then
             reject (ClientError "You cannot register others the same week you got registered."
                                 CANNOT_REGISTER_TOO_SOON)
           else resolve tt
         else resolve tt);;
        let claimStr := canonicalize payloadClaim in
        let claimEncoded := base64url_encode claimStr in
        let! jwtEntity :=
          buildJwtEntity payload payloadClaim claimStr claimEncoded jwtEncoded in
        let! jwtRowId := db_call (Store.jwtInsert jwtEntity) in
        let issuerDid := iss in
        catch (createEmbeddedClaimRecords (jwt_id jwtEntity) issuerDid payloadClaim)
              (λ err, log (LogRejection LWarn err "Failed to create embedded claim records."));;
        resolve (jwt_id jwtEntity)
      else
        log (Log LWarn "JwtService JWT received without a claim.");;
        reject (RejectedString "JWT had no 'claim' property.")
  end.

(** The stored claim is the canonical form of a claim, which [JSON.parse]
    reads back. *)
Definition summary (jwtRec : jwt_row) : JwtSummary :=
  {| summary_id := jwt_id jwtRec; summary_issuedAt := jwt_issuedAt jwtRec;
     summary_issuer := jwt_issuer jwtRec; summary_subject := jwt_subject jwtRec;
     summary_claimContext := jwt_claimContext jwtRec;
     summary_claimType := jwt_claimType jwtRec;
     summary_claim := JSON_parse (jwt_claim jwtRec) |}.

Definition byId (id : Z) (requesterDid : value) : M (option JwtSummary) :=
  let! jwtRec := db_query (Store.jwtById id) in
  match jwtRec with
  | Some jwtRec => resolve (Some (summary jwtRec))
  | None => resolve None
  end.

(** Dangerous: this includes encoded data that might include private DIDs. *)
Definition fullJwtById (id : Z) (requesterDid : value) : M (option jwt_row) :=
  let! jwtRec := db_query (Store.jwtById id) in
  match jwtRec with
  | Some jwtRec => resolve (Some jwtRec)
  | None => resolve None
  end.

Definition thisClaimAndConfirmationsIssuersMatchingClaimId (claimId : Z)
    : M (list value) :=
  let! jwtClaim := db_query (Store.jwtById claimId) in
  match jwtClaim with
  | None => resolve []
  | Some jwtClaim =>
      let! confirmations := db_query (Store.confirmationsByClaim (jwt_claim jwtClaim)) in
      let allDids :=
        ((confirmation_issuer <$> confirmations) ++ [jwt_issuer jwtClaim])%list in
      resolve (uniq allDids)
  end.

End JwtService.
End JwtService.

(** ** [action.service.js] *)

(** The variant that takes the requester (the file whose name is not known). *)
Module ActionServiceForRequester.
Section ActionService.
Context `{Platform}.

Definition hideAgent (a : action_row) : action_row :=
  {| action_id := action_id a; action_jwtId := action_jwtId a;
     action_issuerDid := action_issuerDid a; action_agentDid := VStr HIDDEN_TEXT;
     action_eventRowId := action_eventRowId a;
     action_eventOrgName := action_eventOrgName a;
     action_eventName := action_eventName a;
     action_eventStartTime := action_eventStartTime a |}.

(** [objects.indexOf(x) !== -1] *)
Definition indexOf (objects : list value) (x : value) : bool :=
  existsb (strict_equal x) objects.

Definition byId (id : Z) (requesterDid : string) : M (option action_row) :=
  let! actionClaim := db_query (Store.actionClaimById id) in
  match actionClaim with
  | None => resolve None
  | Some actionClaim =>
      let! objects :=
        (λ w, match netCache w !! requesterDid with
              | Some objects => (Resolved objects, w)
              | None =>
                  (let! objects := db_query (Network.getNetwork (VStr requesterDid)) in
                   λ w, (Resolved objects,
                         with_netCache (<[requesterDid := objects]> (netCache w)) w)) w
              end) in
      if indexOf objects (action_agentDid actionClaim) then
        resolve (Some actionClaim)
      else
        resolve (Some (hideAgent actionClaim))
  end.

End ActionService.
End ActionServiceForRequester.

(** The variant of [server/api/services/action.service.js]. *)
Module ActionService.

Definition byId (id : Z) : M (option action_row) :=
  db_query (Store.actionClaimById id).

(** [byQuery] hands its filter to [actionClaimsByParams] of the store, which is
    not part of the sources: the query is taken as it comes. *)
Section Queries.
Variable actionClaimsByParams : value → Db → list action_row.

(** The filter as the store receives it: a given [id] is renamed [rowid]. *)
Definition storeParams (params : value) : outcome value :=
  match get params "id" with
  | Rejected e => Rejected e
  | Resolved id =>
      if truthy id then
        match set params "rowid" id with
        | Resolved params => Resolved (delete_property params "id")
        | Rejected e => Rejected e
        end
      else Resolved params
  end.

Definition byQuery (params : value) : M (list action_row) :=
  let! params := settle (storeParams params) in
  let! resultData := db_query (actionClaimsByParams params) in
  resolve resultData.

End Queries.

End ActionService.

(** ** A platform to run the service on

    Tokens are looked up in a table, the digest is symbolic, and
    canonicalization prints a value with the keys of every object in order. *)
Module Reference.

Fixpoint insert_key (kv : string * string) (sorted : list (string * string))
    : list (string * string) :=
  match sorted with
  | [] => [kv]
  | x :: rest =>
      if String.leb kv.1 x.1 then kv :: x :: rest else x :: insert_key kv rest
  end.

Definition join (sep : string) (parts : list string) : string :=
  match parts with
  | [] => ""
  | p :: rest => fold_left (λ acc q, acc +:+ sep +:+ q) rest p
  end.

Fixpoint print (v : value) : string :=
  match v with
  | VUndef => "undefined"
  | VNull => "null"
  | VBool b => if b then "true" else "false"
  | VNum n => pretty n
  | VStr s => "'" +:+ s +:+ "'"
  | VArr elems => "[" +:+ join "," (map print elems) +:+ "]"
  | VObj props =>
      "{" +:+ join ","
                ((λ kv, "'" +:+ kv.1 +:+ "':" +:+ kv.2)
                   <$> foldr insert_key [] (map (λ kv, (kv.1, print kv.2)) props))
          +:+ "}"
  end.

Definition platform (tokens : list (string * value)) : Platform :=
  {| canonicalize := print;
     base64url_encode := λ s, "b64(" +:+ s +:+ ")";
     decode_payload := λ jwt,
       match find (λ kv, String.eqb kv.1 jwt) tokens with
       | Some kv => Resolved kv.2
       | None => Rejected TypeError
       end;
     verifyJWT := λ jwt _, inl "not resolved";
     JSON_parse := λ s, VStr s;
     sha256_hex := λ s, "sha256(" +:+ s +:+ ")";
     js_string := print;
     string_to_number := λ _, None;
     NODE_ENV := "test-local";
     SERVICE_ID := VStr "endorser.ch";
     env_DEFAULT_MAX_REGISTRATIONS_PER_MONTH := None;
     env_DEFAULT_MAX_CLAIMS_PER_WEEK := None;
     HIDDEN_TEXT := "did:none:HIDDEN";
     isDid := String.prefix "did:";
     DID_PLACEHOLDER := "did:none:MASKED";
     calcBbox := λ _, Rejected TypeError;
     startOfMonth := λ t, t;
     plusOneMonth := λ t, t + 30 * ms_per_day;
     toISO := pretty;
     networkDepth := 0 |}.

Definition emptyDb : Db :=
  {| jwts := []; events := []; actions := []; tenures := []; orgRoles := [];
     votes := []; registrations := []; confirmations := []; network := [] |}.

Definition world (d : Db) (t : Z) : World :=
  {| db := d; netCache := ∅; logs := []; now := t; faults := [] |}.

Definition seeded (id : Z) (did : string) (maxRegs maxClaims : option Z)
  : registration_row :=
  {| registration_id := id; registration_did := VStr did; registration_agent := VNull;
     registration_epoch := None; registration_jwtId := None;
     registration_maxRegs := maxRegs; registration_maxClaims := maxClaims |}.

Definition joinAction (agent org name start : string) : value :=
  VObj [("@context", VStr "https://schema.org"); ("@type", VStr "JoinAction");
        ("agent", VObj [("did", VStr agent)]);
        ("event", VObj [("organizer", VObj [("name", VStr org)]);
                        ("name", VStr name); ("startTime", VStr start)])].

Definition token (iss : string) (iat : Z) (claim : value) : value :=
  VObj [("iat", VNum iat); ("exp", VNum (iat + 1000000000)); ("iss", VStr iss);
        ("claim", claim)].

End Reference.

(** The same platform outside test mode: a token verifies when the table holds
    it and it has not expired. *)
Module Production.
Import Reference.

Definition verify (tokens : list (string * value)) (jwt : string) (t : Z)
    : string + value :=
  match find (λ kv, String.eqb kv.1 jwt) tokens with
  | Some kv =>
      match lookup_prop "exp" (match kv.2 with VObj props => props | _ => [] end) with
      | VNum exp =>
          if Z.ltb exp (t `div` 1000) then inl "Error: JWT has expired"
          else inr (VObj [("payload", kv.2);
                          ("issuer", lookup_prop "iss"
                                       (match kv.2 with VObj props => props | _ => [] end))])
      | _ => inl "Error: JWT has no exp"
      end
  | None => inl "Error: Signature invalid for JWT"
  end.

Definition platform (tokens : list (string * value)) : Platform :=
  let test := Reference.platform tokens in
  {| canonicalize := @canonicalize test;
     base64url_encode := @base64url_encode test;
     decode_payload := @decode_payload test;
     verifyJWT := verify tokens;
     JSON_parse := @JSON_parse test;
     sha256_hex := @sha256_hex test;
     js_string := @js_string test;
     string_to_number := @string_to_number test;
     NODE_ENV := "production";
     SERVICE_ID := @SERVICE_ID test;
     env_DEFAULT_MAX_REGISTRATIONS_PER_MONTH :=
       @env_DEFAULT_MAX_REGISTRATIONS_PER_MONTH test;
     env_DEFAULT_MAX_CLAIMS_PER_WEEK := @env_DEFAULT_MAX_CLAIMS_PER_WEEK test;
     HIDDEN_TEXT := @HIDDEN_TEXT test;
     isDid := @isDid test;
     DID_PLACEHOLDER := @DID_PLACEHOLDER test;
     calcBbox := @calcBbox test;
     startOfMonth := @startOfMonth test;
     plusOneMonth := @plusOneMonth test;
     toISO := @toISO test;
     networkDepth := @networkDepth test |}.

End Production.

(** Issuers whose registration carries an override of 0. *)
Module RateLimitsAtZero.
Import Reference.

Definition registerAction : value :=
  VObj [("@context", VStr "https://schema.org"); ("@type", VStr "RegisterAction");
        ("agent", VObj [("did", VStr "did:ethr:0xaaa")]);
        ("participant", VObj [("did", VStr "did:ethr:0xbbb")]);
        ("object", VStr "endorser.ch")].

Definition tokens : list (string * value) :=
  [("join", token "did:ethr:0xaaa" 1700000000
              (joinAction "did:ethr:0xccc" "Org" "Meeting" "2023-11-14T08:00:00Z"));
   ("register", token "did:ethr:0xaaa" 1700000000 registerAction)].

Definition P : Platform := platform tokens.

(** An issuer whose weekly override is 0. *)
Definition noClaims : World :=
  world (with_registrations [seeded 1 "did:ethr:0xaaa" None (Some 0)] emptyDb)
        1700000500000.

(** An issuer whose monthly override is 0. *)
Definition noRegistrations : World :=
  world (with_registrations [seeded 1 "did:ethr:0xaaa" (Some 0) None] emptyDb)
        1700000500000.
End RateLimitsAtZero.

(** An action whose agent nobody may see. *)
Module HiddenAgent.
Import Reference.

Definition action : action_row :=
{| action_id := 1; action_jwtId := 1; action_issuerDid := VStr "did:ethr:0xaaa";
   action_agentDid := VStr "did:ethr:0xccc"; action_eventRowId := 1;
   action_eventOrgName := VStr "Org"; action_eventName := VStr "Meeting";
   action_eventStartTime := VStr "2023-11-14T08:00:00Z" |}.

(** A store with one action and no visibility edge at all. *)
Definition nobodySees : World := world (with_actions [action] emptyDb) 1700000500000.

(** The same store with one edge: [did:ethr:0xbbb] sees the agent. *)
Definition agentSeen : World :=
  world (with_network [(VStr "did:ethr:0xbbb", VStr "did:ethr:0xccc")]
           (with_actions [action] emptyDb))
        1700000500000.

End HiddenAgent.

(** One small history: Alice and Bob are registered, Dave is not; Alice
    claims that Carol joined a meeting, and then Bob claims the same. *)
Module Scenario.
Import Reference.

Definition alice : string := "did:ethr:0xaaa".
Definition bob : string := "did:ethr:0xbbb".
Definition carol : string := "did:ethr:0xccc".
Definition dave : string := "did:ethr:0xddd".

Definition meeting : value := joinAction carol "Org" "Meeting" "2023-11-14T08:00:00Z".

Definition tokens : list (string * value) :=
[("alice-join", token alice 1700000000 meeting);
 ("bob-join", token bob 1700000100 meeting);
 ("dave-join", token dave 1700000200 meeting)].

Definition P : Platform := platform tokens.

Definition start : World :=
world (with_registrations [seeded 1 alice None None; seeded 2 bob None None] emptyDb)
      1700000500000.

Definition afterAlice : World :=
(@JwtService.createWithClaimRecord P "alice-join" VUndef start).2.


(** Three envelopes: one chained, one with its content hash, one without. *)
Definition envelope (i : Z) (hashHex hashChainHex : option string) : jwt_row :=
{| jwt_id := i; jwt_issuedAt := VNum 1700000000; jwt_issuer := VStr alice;
   jwt_subject := VUndef; jwt_claimContext := VStr "https://schema.org";
   jwt_claimType := VStr "JoinAction"; jwt_claim := "claim " +:+ pretty i;
   jwt_claimEncoded := ""; jwt_jwtEncoded := ""; jwt_hashHex := hashHex;
   jwt_hashChainHex := hashChainHex |}.

Definition unchained : World :=
world (with_jwts [envelope 3 None None; envelope 1 (Some "h1") (Some "c1");
                  envelope 2 (Some "h2") None] emptyDb)
      1700000500000.

(** A person claim without a context, as an AgreeAction would embed it. *)
Definition person : list (string * value) :=
[("@type", VStr "Person"); ("name", VStr "Carol")].

End Scenario.

(** More submissions to the same service: tokens that are expired, that
    carry no expiry or no claim, and claims of other kinds. *)
Module Cases.
Import Reference.

Definition registerCarol : value :=
VObj [("@context", VStr "https://schema.org"); ("@type", VStr "RegisterAction");
      ("agent", VObj [("did", VStr Scenario.alice)]);
      ("participant", VObj [("did", VStr Scenario.carol)]);
      ("object", VStr "endorser.ch")].

Definition note : value :=
VObj [("@context", VStr "https://example.org"); ("@type", VStr "Note");
      ("text", VStr "hello")].

(** An agreement with the meeting claim, twice over, and with nothing. *)
Definition agree : value :=
VObj [("@context", VStr "https://schema.org"); ("@type", VStr "AgreeAction");
      ("object", VArr [Scenario.meeting; Scenario.meeting; VNull])].

(** A deprecated Confirmation whose [originalClaims] is not a list. *)
Definition legacy : value :=
VObj [("@context", VStr "https://schema.org"); ("@type", VStr "Confirmation");
      ("originalClaim", Scenario.meeting); ("originalClaims", VNum 3)].

(** A vote at the meeting, and a vote that names no event. *)
Definition vote : value :=
VObj [("@context", VStr "https://schema.org"); ("@type", VStr "VoteAction");
      ("actionOption", VStr "yes"); ("candidate", VStr Scenario.carol);
      ("object", VObj [("event", VObj [("name", VStr "Meeting");
                                       ("startDate", VStr "2023-11-14T08:00:00Z")])])].

Definition voteForNothing : value :=
VObj [("@context", VStr "https://schema.org"); ("@type", VStr "VoteAction");
      ("actionOption", VStr "yes"); ("candidate", VStr Scenario.carol)].

(** A JoinAction whose agent has no identity. *)
Definition anonymousJoin : value :=
VObj [("@context", VStr "https://schema.org"); ("@type", VStr "JoinAction");
      ("agent", VObj [("name", VStr "Carol")])].

Definition tokens : list (string * value) :=
[("expired", VObj [("iat", VNum 1600000000); ("exp", VNum 1600086400);
                   ("iss", VStr Scenario.alice); ("claim", Scenario.meeting)]);
 ("no-exp", VObj [("iss", VStr Scenario.alice); ("claim", Scenario.meeting)]);
 ("no-claim", VObj [("iat", VNum 1700000000); ("exp", VNum 2700000000);
                    ("iss", VStr Scenario.alice)]);
 ("register-carol", token Scenario.alice 1700000000 registerCarol);
 ("note", token Scenario.alice 1700000000 note);
 ("bob-agree", token Scenario.bob 1700000100 agree)].

Definition P : Platform := platform tokens.

(** The store once Bob has agreed with the claim Alice made. *)
Definition afterAgree : World :=
(@JwtService.createEmbeddedClaimRecord P 2 (VStr Scenario.bob) agree
   Scenario.afterAlice).2.

(** A store that fails the query for the last chain value. *)
Definition failing : World := with_faults [false; true] Scenario.unchained.

End Cases.

(** A platform with the months of the calendar and with bounding boxes, and
    histories on it in which issuers reach their maxima. *)
Module Registry.
Import Reference.

(** The day of the month of a day counted from 1970-01-01. *)
Definition dayOfMonth (days : Z) : Z :=
let dayOfEra := (days + 719468) `mod` 146097 in
let yearOfEra :=
  (dayOfEra - dayOfEra `div` 1460 + dayOfEra `div` 36524 - dayOfEra `div` 146096)
    `div` 365 in
let dayOfYear :=
  dayOfEra - (365 * yearOfEra + yearOfEra `div` 4 - yearOfEra `div` 100) in
let monthFromMarch := (5 * dayOfYear + 2) `div` 153 in
dayOfYear - (153 * monthFromMarch + 2) `div` 5 + 1.

Definition startOfCalendarMonth (t : Z) : Z :=
(t `div` ms_per_day - (dayOfMonth (t `div` ms_per_day) - 1)) * ms_per_day.

Fixpoint before_comma (s : string) : string :=
match s with
| EmptyString => EmptyString
| String a rest =>
    if String.eqb (String a EmptyString) "," then EmptyString
    else String a (before_comma rest)
end.

Fixpoint after_comma (s : string) : string :=
match s with
| EmptyString => EmptyString
| String a rest =>
    if String.eqb (String a EmptyString) "," then rest else after_comma rest
end.

Definition whole_number (s : string) : option Z :=
Z.of_int <$> DecimalString.NilZero.int_of_string s.

(** A point [lat,lon] in whole degrees. *)
Definition coordinates (point : string) : option (Z * Z) :=
lat ← whole_number (before_comma point);
lon ← whole_number (after_comma point);
Some (lat, lon).

(** The box around a polygon written as points separated by spaces. *)
Definition boundingBox (polygon : value) : outcome value :=
match polygon with
| VStr s =>
    match mapM coordinates (String.words s) with
    | Some ((lat, lon) :: points) =>
        Resolved (VObj [("westLon", VNum (foldr Z.min lon (snd <$> points)));
                        ("minLat", VNum (foldr Z.min lat (fst <$> points)));
                        ("eastLon", VNum (foldr Z.max lon (snd <$> points)));
                        ("maxLat", VNum (foldr Z.max lat (fst <$> points)))])
    | _ => Rejected TypeError
    end
| _ => Rejected TypeError
end.

Definition platform (tokens : list (string * value)) : Platform :=
let test := Reference.platform tokens in
{| canonicalize := @canonicalize test;
   base64url_encode := @base64url_encode test;
   decode_payload := @decode_payload test;
   verifyJWT := @verifyJWT test;
   JSON_parse := @JSON_parse test;
   sha256_hex := @sha256_hex test;
   js_string := @js_string test;
   string_to_number := @string_to_number test;
   NODE_ENV := @NODE_ENV test;
   SERVICE_ID := @SERVICE_ID test;
   env_DEFAULT_MAX_REGISTRATIONS_PER_MONTH :=
     @env_DEFAULT_MAX_REGISTRATIONS_PER_MONTH test;
   env_DEFAULT_MAX_CLAIMS_PER_WEEK := @env_DEFAULT_MAX_CLAIMS_PER_WEEK test;
   HIDDEN_TEXT := @HIDDEN_TEXT test;
   isDid := @isDid test;
   DID_PLACEHOLDER := @DID_PLACEHOLDER test;
   calcBbox := boundingBox;
   startOfMonth := startOfCalendarMonth;
   plusOneMonth := @plusOneMonth test;
   toISO := @toISO test;
   networkDepth := @networkDepth test |}.

Definition register (agent participant : string) : value :=
VObj [("@context", VStr "https://schema.org"); ("@type", VStr "RegisterAction");
      ("agent", VObj [("did", VStr agent)]);
      ("participant", VObj [("did", VStr participant)]);
      ("object", VStr "endorser.ch")].

Definition tokens : list (string * value) :=
[("alice-join", token Scenario.alice 1700000000 Scenario.meeting);
 ("alice-note", token Scenario.alice 1700000100 Cases.note);
 ("alice-registers-carol",
  token Scenario.alice 1700000000 (register Scenario.alice Scenario.carol));
 ("alice-registers-dave",
  token Scenario.alice 1700003600 (register Scenario.alice Scenario.dave));
 ("carol-registers-dave",
  token Scenario.carol 1700003600 (register Scenario.carol Scenario.dave))].

Definition P : Platform := platform tokens.

(** The same world some milliseconds later. *)
Definition later (ms : Z) (w : World) : World :=
{| db := db w; netCache := netCache w; logs := logs w; now := now w + ms;
   faults := faults w |}.

(** Alice may make one claim a week, and has made it. *)
Definition oneClaimAWeek : World :=
world (with_registrations [seeded 1 Scenario.alice None (Some 1)] emptyDb)
      1700000500000.

Definition afterClaim : World :=
later 3600000 (@JwtService.createWithClaimRecord P "alice-join" VUndef oneClaimAWeek).2.

(** Alice may make one registration a month, and has registered Carol an
    hour ago. *)
Definition oneRegistrationAMonth : World :=
world (with_registrations [seeded 1 Scenario.alice (Some 1) None] emptyDb)
      1700000500000.

Definition afterCarol : World :=
later 3600000
  (@JwtService.createWithClaimRecord P "alice-registers-carol" VUndef
     oneRegistrationAMonth).2.

(** Carol's registration, as Alice's submission has recorded it. *)
Definition carolsRegistration : registration_row :=
{| registration_id := 2; registration_did := VStr Scenario.carol;
   registration_agent := VStr Scenario.alice;
   registration_epoch := Some 1700000500; registration_jwtId := Some 1;
   registration_maxRegs := None; registration_maxClaims := None |}.

(** Carol as the president of an organization, Carol's tenure of a plot, and a
    tenure whose polygon cannot be read. *)
Definition role : value :=
VObj [("@context", VStr "https://schema.org"); ("@type", VStr "Organization");
      ("name", VStr "Org");
      ("member", VObj [("@type", VStr "OrganizationRole");
                       ("roleName", VStr "President");
                       ("startDate", VStr "2023-01-01");
                       ("endDate", VStr "2023-12-31");
                       ("member", VObj [("@type", VStr "Person");
                                        ("identifier", VStr Scenario.carol)])])].

Definition plot (polygon : string) : value :=
VObj [("@context", VStr "https://endorser.ch"); ("@type", VStr "Tenure");
      ("spatialUnit", VObj [("geo", VObj [("@type", VStr "GeoShape");
                                          ("polygon", VStr polygon)])]);
      ("party", VObj [("did", VStr Scenario.carol)])].

Definition tenure : value := plot "40,-112 41,-112 41,-111 40,-111 40,-112".

Definition tenureOfNowhere : value := plot "somewhere".

End Registry.

(** * Worlds and vocabulary of the statements *)

(** A relation between the world before and the world after that a
    computation keeps, whatever its outcome. *)
Definition keeps (R : World → World → Prop) {A} (m : M A) : Prop :=
  ∀ w, R w (m w).2.

Definition same_jwts (w w' : World) : Prop := jwts (db w') = jwts (db w).


Definition only_logs (w w' : World) : Prop :=
  db w' = db w ∧ netCache w' = netCache w ∧ now w' = now w ∧ faults w' = faults w.

Definition has_code (code : ERROR_CODES) {A} (o : outcome A) : Prop :=
  ∃ message, o = Rejected (ClientError message code).

Definition never_code (code : ERROR_CODES) {A} (m : M A) : Prop :=
  ∀ w, ¬ has_code code (m w).1.

Definition throws_only {A} (o : outcome A) : Prop :=
  ∀ e, o = Rejected e → e = TypeError.

(** What the store holds for the envelope with a given id. *)
Definition storedRow (d : Db) (i : Z) : option jwt_row :=
find (λ r, Z.eqb (jwt_id r) i) (jwts d).

Definition chainValue (d : Db) (i : Z) : option string :=
storedRow d i ≫= jwt_hashChainHex.

Definition contentHash (d : Db) (i : Z) : option string :=
storedRow d i ≫= jwt_hashHex.

(** The seed of a pass: the last stored chain value, or the empty string. *)
Definition seedOf (d : Db) : string :=
match MerkleStore.jwtLastMerkleHash d with
| hashChainHex :: _ => hashChainHex
| [] => ""
end.

(** The chain value before the [n]th row of a pass: the seed for the first
    row, and otherwise what the store holds for the row before. *)
Definition previousChain (seed : string) (rows : list idAndClaim) (d : Db) (n : nat)
  : string :=
match n with
| O => seed
| S m => default "" (rows !! m ≫= λ r, chainValue d (iac_id r))
end.

(** What a confirmation is of: a recorded action, tenure or organization
    role, or, for any other claim, the canonicalized claim itself. *)
Inductive Target : Type :=
| OfAction (actionId : Z)
| OfTenure (tenureId : Z)
| OfOrgRole (orgRoleId : Z)
| OfClaim (canonical : string).

Definition confirmsTarget (c : confirmation_row) (t : Target) : Prop :=
match t with
| OfAction i => confirmation_actionRowId c = Some i
| OfTenure i => confirmation_tenureRowId c = Some i
| OfOrgRole i => confirmation_orgRoleRowId c = Some i
| OfClaim s => confirmation_origClaim c = s
end.

Definition confirmedBy (issuer : value) (t : Target) (c : confirmation_row) : Prop :=
confirmation_issuer c = issuer ∧ confirmsTarget c t.

(** The row [confirmationInsert] writes for a target. *)
Definition targetColumns (t : Target) : option Z * option Z * option Z :=
match t with
| OfAction i => (Some i, None, None)
| OfTenure i => (None, Some i, None)
| OfOrgRole i => (None, None, Some i)
| OfClaim _ => (None, None, None)
end.

Definition alreadyConfirmedText (t : Target) : string :=
match t with
| OfAction _ => "Attempted to confirm an action already confirmed in # "
| OfTenure _ => "Attempted to confirm a tenure already confirmed in # "
| OfOrgRole _ => "Attempted to confirm a orgRole already confirmed in # "
| OfClaim _ => "Attempted to confirm a claim already confirmed in # "
end.

Definition lookupConfirmation (issuer : value) (t : Target) (d : Db)
  : option confirmation_row :=
match t with
| OfAction i => Store.confirmationByIssuerAndAction issuer i d
| OfTenure i => Store.confirmationByIssuerAndTenure issuer i d
| OfOrgRole i => Store.confirmationByIssuerAndOrgRole issuer i d
| OfClaim s =>
    find (λ c, value_is (confirmation_issuer c) issuer
               && String.eqb (confirmation_origClaim c) s)
         (confirmations d)
end.

Definition insertedConfirmation (jwtId : Z) (issuer : value) (canonical : string)
    (t : Target) (d : Db) : confirmation_row :=
{| confirmation_id := next_id confirmation_id (confirmations d);
   confirmation_jwtId := jwtId; confirmation_issuer := issuer;
   confirmation_origClaim := canonical;
   confirmation_actionRowId := (targetColumns t).1.1;
   confirmation_tenureRowId := (targetColumns t).1.2;
   confirmation_orgRoleRowId := (targetColumns t).2 |}.

Definition recordedAction (issuerDid agentDid : value) (jwtId : Z) (event : event_row)
    (d : Db) : action_row :=
{| action_id := next_id action_id (actions d); action_jwtId := jwtId;
   action_issuerDid := issuerDid; action_agentDid := agentDid;
   action_eventRowId := event_id event; action_eventOrgName := event_orgName event;
   action_eventName := event_name event;
   action_eventStartTime := event_startTime event |}.

(** The count the weekly check makes, and the maximum it compares with. *)
Definition claimsThisWeek (iss : value) (w : World) : Z :=
  Store.jwtCountByAfter iss (startOfWeek (now w)) (db w).



(** The visible set the requester-aware [byId] works with: the cached one when
    the cache holds one, otherwise what the store computes. *)
Definition visibleSet `{Platform} (requesterDid : string) (w : World) : list value :=
match netCache w !! requesterDid with
| Some objects => objects
| None => Network.getNetwork (VStr requesterDid) (db w)
end.


Section Vocabulary.
Context `{Platform}.

(** The part of a submission that comes before the registration check:
    the token verifies, its payload names an issuer, and the issuer is the
    declared one when one is declared. *)
Record presented (jwtEncoded : string) (authIssuerId : value) (w : World)
    (payload iss : value) (w1 : World) : Prop := {
  presented_verified :
    ∃ verified, JwtService.decodeAndVerifyJwt jwtEncoded w = (Resolved verified, w1)
                ∧ get verified "payload" = Resolved payload;
  presented_issuer : get payload "iss" = Resolved iss;
  presented_match : truthy authIssuerId = true → strict_equal iss authIssuerId = true
}.

Definition effectiveMaxClaims (registered : registration_row) : Z :=
  unless_null (registration_maxClaims registered)
              JwtService.DEFAULT_MAX_CLAIMS_PER_WEEK.

(** The chain replayed from a seed over rows in order. *)
Fixpoint replay (seed : string) (rows : list idAndClaim) : list string :=
match rows with
| [] => []
| r :: rest => chainLink seed r :: replay (chainLink seed r) rest
end.

Definition writtenHash (r : idAndClaim) : string :=
default (hashedClaimWithHashedDids r) (iac_hashHex r).

Fixpoint rebuilt (latest : string) (rows : list idAndClaim) (d : Db) : Db :=
match rows with
| [] => d
| r :: rest =>
    rebuilt (chainLink latest r) rest
      (MerkleStore.jwtSetMerkleHash (iac_id r) (writtenHash r) (chainLink latest r) d).2
end.

(** How an original claim (with its context in place) names its target in a
    store: an action by its agent and the first event found for the
    organizer, event name and start time; a tenure by its party and polygon;
    a role by organization, role, dates and member; any other claim by its
    canonical form. *)
Inductive resolves (d : Db) (origClaim : value) : Target → Prop :=
| resolves_action orgName name startTime event0 others agentDid actionId :
    JwtService.typeIs origClaim JwtService.isContextSchemaOrg "JoinAction"
      = Resolved true →
    path origClaim ["event"; "organizer"; "name"] = Resolved orgName →
    path origClaim ["event"; "name"] = Resolved name →
    path origClaim ["event"; "startTime"] = Resolved startTime →
    Store.eventsByParams orgName name startTime d = event0 :: others →
    path origClaim ["agent"; "did"] = Resolved agentDid →
    Store.actionClaimIdByDidEventId agentDid (event_id event0) d = Some actionId →
    resolves d origClaim (OfAction actionId)
| resolves_tenure partyDid polygon tenureId :
    JwtService.typeIs origClaim JwtService.isContextSchemaOrg "JoinAction"
      = Resolved false →
    JwtService.typeIs origClaim (λ c, is_string c "https://endorser.ch") "Tenure"
      = Resolved true →
    path origClaim ["party"; "did"] = Resolved partyDid →
    path origClaim ["spatialUnit"; "geo"; "polygon"] = Resolved polygon →
    Store.tenureClaimIdByPartyAndGeoShape partyDid polygon d = Some tenureId →
    resolves d origClaim (OfTenure tenureId)
| resolves_orgRole orgName roleName startDate endDate memberDid orgRoleId :
    JwtService.typeIs origClaim JwtService.isContextSchemaOrg "JoinAction"
      = Resolved false →
    JwtService.typeIs origClaim (λ c, is_string c "https://endorser.ch") "Tenure"
      = Resolved false →
    JwtService.isOrgRoleConfirmation origClaim = Resolved true →
    get origClaim "name" = Resolved orgName →
    path origClaim ["member"; "roleName"] = Resolved roleName →
    path origClaim ["member"; "startDate"] = Resolved startDate →
    path origClaim ["member"; "endDate"] = Resolved endDate →
    path origClaim ["member"; "member"; "identifier"] = Resolved memberDid →
    Store.orgRoleClaimIdByOrgAndDates orgName roleName startDate endDate memberDid d
      = Some orgRoleId →
    resolves d origClaim (OfOrgRole orgRoleId)
| resolves_claim :
    JwtService.typeIs origClaim JwtService.isContextSchemaOrg "JoinAction"
      = Resolved false →
    JwtService.typeIs origClaim (λ c, is_string c "https://endorser.ch") "Tenure"
      = Resolved false →
    JwtService.isOrgRoleConfirmation origClaim = Resolved false →
    resolves d origClaim (OfClaim (canonicalize origClaim)).

Definition multipleEventsWarning (orgName name startTime : value) : log_entry :=
Log LWarn ("JwtService Multiple events exist with orgName " +:+ js_string orgName
           +:+ " name " +:+ js_string name +:+ " startTime " +:+ js_string startTime).

(** A JoinAction claim as it reaches the event lookup: it names an agent and
    an event, and the event's key is (organizer name, event name, start
    time). *)
Record joinActionOf (claim agentDid orgName name startTime : value) : Prop := {
  join_kind : JwtService.claimKind claim = Resolved JwtService.KJoinAction;
  join_agent : path claim ["agent"; "did"] = Resolved agentDid;
  join_agent_given : truthy agentDid = true;
  join_event : ∃ claimEvent organizer,
      get claim "event" = Resolved claimEvent ∧ truthy claimEvent = true
      ∧ get claimEvent "organizer" = Resolved organizer
      ∧ JwtService.and_get organizer "name" = Resolved orgName
      ∧ get claimEvent "name" = Resolved name
      ∧ get claimEvent "startTime" = Resolved startTime
}.

End Vocabulary.

(** ** Vocabulary of the further properties *)

Definition same_db (w w' : World) : Prop := db w' = db w.

(** A computation that resolves or fails in the store, or else has left every
    table as it was. *)
Definition resolves_or_keeps_db {A} (m : M A) : Prop :=
  ∀ w, db (m w).2 = db w
       ∨ (∃ a, (m w).1 = Resolved a) ∨ (m w).1 = Rejected StoreError.

(** A store that is reliable before is reliable after. *)
Definition stays_reliable (w w' : World) : Prop := faults w = [] → faults w' = [].

(** No edge is lost, and every new edge points to [observed]. *)
Definition edges_only_towards (observed : value) (w w' : World) : Prop :=
  network (db w) ⊆ network (db w')
  ∧ ∀ e, e ∈ network (db w') → e ∈ network (db w) ∨ e.2 = observed.

(** Every table but the confirmations is as it was. *)
Definition only_confirmations (w w' : World) : Prop :=
  jwts (db w') = jwts (db w) ∧ events (db w') = events (db w)
  ∧ actions (db w') = actions (db w) ∧ tenures (db w') = tenures (db w)
  ∧ orgRoles (db w') = orgRoles (db w) ∧ votes (db w') = votes (db w)
  ∧ registrations (db w') = registrations (db w)
  ∧ network (db w') = network (db w).

(** Nothing but the record of coming store failures has changed. *)
Definition only_reads (w w' : World) : Prop :=
  db w' = db w ∧ netCache w' = netCache w ∧ logs w' = logs w ∧ now w' = now w.

(** Two confirmations of the same recorded action, tenure or role. *)
Definition sameRecord (c1 c2 : confirmation_row) : Prop :=
  (∃ i, confirmation_actionRowId c1 = Some i ∧ confirmation_actionRowId c2 = Some i)
  ∨ (∃ i, confirmation_tenureRowId c1 = Some i ∧ confirmation_tenureRowId c2 = Some i)
  ∨ (∃ i, confirmation_orgRoleRowId c1 = Some i ∧ confirmation_orgRoleRowId c2 = Some i).

(** At most one confirmation per issuer and recorded action, tenure or
    role. *)
Definition confirmedOnce (l : list confirmation_row) : Prop :=
  ∀ i j c1 c2,
    l !! i = Some c1 → l !! j = Some c2 →
    confirmation_issuer c1 = confirmation_issuer c2 → sameRecord c1 c2 → i = j.

Definition keeps_confirmedOnce (w w' : World) : Prop :=
  confirmedOnce (confirmations (db w)) → confirmedOnce (confirmations (db w')).

(** What one confirmation does to the table: nothing, or it appends a row
    that is the first by its issuer for its record. *)
Definition confirms_afresh {A} (m : M A) : Prop :=
  ∀ w, confirmations (db (m w).2) = confirmations (db w)
       ∨ ∃ row, confirmations (db (m w).2) = (confirmations (db w) ++ [row])%list
                ∧ ∀ c, c ∈ confirmations (db w) →
                       confirmation_issuer c = confirmation_issuer row →
                       ¬ sameRecord c row.

(** The key by which an event is found again. *)
Definition eventKey (e : event_row) : value * value * value :=
  (event_orgName e, event_name e, event_startTime e).

(** The events and actions as JoinActions should leave them: no event
    twice, no agent twice at an event, and every action with an id other
    than 0 at an event that is stored. *)
Definition joinsInOrder (d : Db) : Prop :=
  NoDup (eventKey <$> events d)
  ∧ NoDup ((λ a, (action_agentDid a, action_eventRowId a)) <$> actions d)
  ∧ Forall (λ a, action_id a ≠ 0%Z ∧ action_eventRowId a ∈ event_id <$> events d)
           (actions d).

Definition keeps_joins (w w' : World) : Prop :=
  joinsInOrder (db w) → joinsInOrder (db w').

Section FurtherVocabulary.
Context `{Platform}.

(** The count the monthly check makes, and the maximum it compares with. *)
Definition registrationsThisMonth (iss : value) (w : World) : Z :=
  Store.registrationCountByAfter iss (startOfMonth (now w) `div` 1000) (db w).

Definition effectiveMaxRegistrations (registered : registration_row) : Z :=
  unless_null (registration_maxRegs registered)
              JwtService.DEFAULT_MAX_REGISTRATIONS_PER_MONTH.

(** A submission that has passed the weekly check and carries a claim. *)
Record cleared (jwtEncoded : string) (authIssuerId : value) (w : World)
    (payload iss : value) (w1 : World) (registered : registration_row)
    (payloadClaim : value) : Prop := {
  cleared_presented : presented jwtEncoded authIssuerId w payload iss w1;
  cleared_reliable : faults w = [];
  cleared_registered : Store.registrationByDid iss (db w) = Some registered;
  cleared_below : (claimsThisWeek iss w < effectiveMaxClaims registered)%Z;
  cleared_claim : JwtService.extractClaim payload = Resolved payloadClaim
}.

End FurtherVocabulary.

(** * Reasoning about computations *)

Lemma bind_resolved {A B} (m : M A) (k : A → M B) w a w' :
  m w = (Resolved a, w') → bind m k w = k a w'.
Proof. intros E. unfold bind. rewrite E. reflexivity. Qed.

Lemma bind_rejected {A B} (m : M A) (k : A → M B) w e w' :
  m w = (Rejected e, w') → bind m k w = (Rejected e, w').
Proof. intros E. unfold bind. rewrite E. reflexivity. Qed.

Lemma with_db_same w : with_db (db w) w = w.
Proof. destruct w. reflexivity. Qed.

Lemma db_call_reliable {A} (q : Db → outcome A * Db) w :
  faults w = [] → db_call q w = ((q (db w)).1, with_db (q (db w)).2 w).
Proof. intros E. unfold db_call. rewrite E. reflexivity. Qed.

Lemma db_query_reliable {A} (q : Db → A) w :
  faults w = [] → db_query q w = (Resolved (q (db w)), w).
Proof.
  intros E. unfold db_query. rewrite db_call_reliable by exact E.
  simpl. rewrite with_db_same. reflexivity.
Qed.

(** A store call leaves the tables alone or applies its statement. *)
Lemma db_call_cases {A} (q : Db → outcome A * Db) w :
  (∃ rest, db_call q w = (Rejected StoreError, with_faults rest w))
  ∨ (∃ rest, db_call q w = ((q (db w)).1, with_db (q (db w)).2 (with_faults rest w))).
Proof.
  unfold db_call. destruct (faults w) as [| [] rest] eqn:E.
  - right. exists []. replace (with_faults [] w) with w; [reflexivity |].
    destruct w; simpl in *; subst; reflexivity.
  - left. eauto.
  - right. eauto.
Qed.

(** ** Relations a computation keeps between the world before and after *)

Section Keeps.
Variable R : World → World → Prop.
Hypothesis R_refl : ∀ w, R w w.
Hypothesis R_trans : ∀ a b c, R a b → R b c → R a c.

Lemma keeps_resolve {A} (a : A) : keeps R (resolve a).
Proof. intros w. apply R_refl. Qed.

Lemma keeps_reject {A} e : keeps R (@reject A e).
Proof. intros w. apply R_refl. Qed.

Lemma keeps_settle {A} (o : outcome A) : keeps R (settle o).
Proof. intros w. apply R_refl. Qed.

Lemma keeps_clock : keeps R clock.
Proof. intros w. apply R_refl. Qed.

Lemma keeps_bind {A B} (m : M A) (k : A → M B) :
  keeps R m → (∀ a, keeps R (k a)) → keeps R (bind m k).
Proof.
  intros Hm Hk w. unfold bind. specialize (Hm w).
  destruct (m w) as [[a | e] w']; simpl in *; [| exact Hm].
  eapply R_trans; [exact Hm | apply Hk].
Qed.

Lemma keeps_catch {A} (m : M A) (h : rejection → M A) :
  keeps R m → (∀ e, keeps R (h e)) → keeps R (catch m h).
Proof.
  intros Hm Hh w. unfold catch. specialize (Hm w).
  destruct (m w) as [[a | e] w']; simpl in *; [exact Hm |].
  eapply R_trans; [exact Hm | apply Hh].
Qed.

Lemma keeps_promise_all {A} (ms : list (M A)) :
  Forall (keeps R) ms → keeps R (promise_all ms).
Proof.
  induction 1 as [| m ms Hm _ IH]; intros w; simpl; [apply R_refl |].
  specialize (Hm w). destruct (m w) as [[a | e] w']; simpl in *.
  - specialize (IH w'). destruct (promise_all ms w') as [[l | e] w'']; simpl in *;
      eapply R_trans; eauto.
  - eapply R_trans; [exact Hm | apply IH].
Qed.

Lemma keeps_for_each {A B} (f : A → M B) (xs : list A) :
  (∀ x, keeps R (f x)) → keeps R (for_each f xs).
Proof.
  intros Hf. induction xs as [| x xs IH]; simpl; [apply keeps_resolve |].
  apply keeps_bind; [apply Hf |]. intros b.
  apply keeps_bind; [exact IH |]. intros bs. apply keeps_resolve.
Qed.

Hypothesis R_logs : ∀ w l, R w (with_logs l w).

Lemma keeps_log e : keeps R (log e).
Proof. intros w. apply R_logs. Qed.

Hypothesis R_faults : ∀ w l, R w (with_faults l w).

Lemma keeps_db_call {A} (q : Db → outcome A * Db) :
  (∀ w fs, R w (with_db (q (db w)).2 (with_faults fs w))) → keeps R (db_call q).
Proof.
  intros Hq w. destruct (db_call_cases q w) as [[rest ->] | [rest ->]]; simpl.
  - apply R_faults.
  - apply Hq.
Qed.

Lemma keeps_db_query {A} (q : Db → A) : keeps R (db_query q).
Proof.
  apply keeps_db_call. intros w fs. simpl.
  replace (with_db (db w) (with_faults fs w)) with (with_faults fs w);
    [apply R_faults | destruct w; reflexivity].
Qed.
End Keeps.

(** One step through a computation for a relation with the given proofs of
    reflexivity, transitivity and indifference to the log; [dbtac] deals with
    the calls into the store. *)
Ltac keeps_step Hrefl Htrans Hlogs dbtac :=
  lazymatch goal with
  | |- keeps _ (bind _ _) => apply (keeps_bind _ Htrans); [| intros ?]
  | |- keeps _ (catch _ _) => apply (keeps_catch _ Htrans); [| intros ?]
  | |- keeps _ (resolve _) => apply (keeps_resolve _ Hrefl)
  | |- keeps _ (reject _) => apply (keeps_reject _ Hrefl)
  | |- keeps _ (settle _) => apply (keeps_settle _ Hrefl)
  | |- keeps _ clock => apply (keeps_clock _ Hrefl)
  | |- keeps _ (log _) => apply (keeps_log _ Hlogs)
  | |- keeps _ (db_query _) => dbtac
  | |- keeps _ (db_call _) => dbtac
  | |- keeps _ (for_each _ _) => apply (keeps_for_each _ Hrefl Htrans); intros ?
  | |- keeps _ (promise_all (_ <$> _)) =>
      apply (keeps_promise_all _ Hrefl Htrans), Forall_fmap, Forall_true;
      intros ?; simpl
  | |- keeps _ (if ?b then _ else _) => destruct b
  | |- keeps _ (match ?x with _ => _ end) => destruct x
  end.

(** ** The envelope table is touched by [jwtInsert] alone *)

Lemma same_jwts_refl w : same_jwts w w.
Proof. reflexivity. Qed.

Lemma same_jwts_trans a b c : same_jwts a b → same_jwts b c → same_jwts a c.
Proof. unfold same_jwts. congruence. Qed.

Lemma same_jwts_logs w l : same_jwts w (with_logs l w).
Proof. reflexivity. Qed.

Lemma same_jwts_faults w l : same_jwts w (with_faults l w).
Proof. reflexivity. Qed.

Create HintDb keeps_jwts.

Ltac keeps_jwts_step :=
  lazymatch goal with
  | |- keeps _ (bind _ _) => apply (keeps_bind _ same_jwts_trans); [| intros ?]
  | |- keeps _ (catch _ _) => apply (keeps_catch _ same_jwts_trans); [| intros ?]
  | |- keeps _ (resolve _) => apply (keeps_resolve _ same_jwts_refl)
  | |- keeps _ (reject _) => apply (keeps_reject _ same_jwts_refl)
  | |- keeps _ (settle _) => apply (keeps_settle _ same_jwts_refl)
  | |- keeps _ clock => apply (keeps_clock _ same_jwts_refl)
  | |- keeps _ (log _) => apply (keeps_log _ same_jwts_logs)
  | |- keeps _ (db_query _) => apply (keeps_db_query _ same_jwts_faults)
  | |- keeps _ (db_call _) =>
      apply (keeps_db_call _ same_jwts_faults); intros ? ?; reflexivity
  | |- keeps _ (for_each _ _) =>
      apply (keeps_for_each _ same_jwts_refl same_jwts_trans); intros ?
  | |- keeps _ (if ?b then _ else _) => destruct b
  | |- keeps _ (match ?x with _ => _ end) => destruct x
  | |- _ => solve [auto with keeps_jwts]
  end.

Ltac keeps_jwts := repeat keeps_jwts_step.

Section EnvelopesStay.
Context `{Platform}.

Lemma confirmOne_keeps_jwts jwtId issuerDid origClaim :
  keeps same_jwts (JwtService.confirmOne jwtId issuerDid origClaim).
Proof. unfold JwtService.confirmOne. keeps_jwts. Qed.
Hint Resolve confirmOne_keeps_jwts : keeps_jwts.

Lemma createOneConfirmation_keeps_jwts jwtId issuerDid origClaim :
  keeps same_jwts (JwtService.createOneConfirmation jwtId issuerDid origClaim).
Proof. unfold JwtService.createOneConfirmation. keeps_jwts. Qed.
Hint Resolve createOneConfirmation_keeps_jwts : keeps_jwts.

Lemma caught_keeps_jwts m :
  keeps same_jwts m → keeps same_jwts (JwtService.caught m).
Proof. intros Hm. unfold JwtService.caught. keeps_jwts. Qed.
Hint Resolve caught_keeps_jwts : keeps_jwts.

Lemma confirmEach_keeps_jwts jwtId issuerDid origClaims :
  keeps same_jwts (JwtService.confirmEach jwtId issuerDid origClaims).
Proof. unfold JwtService.confirmEach. keeps_jwts. Qed.
Hint Resolve confirmEach_keeps_jwts : keeps_jwts.

Lemma createEmbeddedClaimRecord_keeps_jwts jwtId issuerDid claim :
  keeps same_jwts (JwtService.createEmbeddedClaimRecord jwtId issuerDid claim).
Proof.
  unfold JwtService.createEmbeddedClaimRecord, JwtService.recordJoinAction,
    JwtService.recordOrgRole, JwtService.recordRegistration,
    JwtService.recordTenure, JwtService.recordVote.
  keeps_jwts.
Qed.
Hint Resolve createEmbeddedClaimRecord_keeps_jwts : keeps_jwts.

Lemma addCanSee_keeps_jwts observer observed :
  keeps same_jwts (Network.addCanSee observer observed).
Proof.
  unfold Network.addCanSee.
  apply (keeps_bind _ same_jwts_trans).
  - apply (keeps_db_call _ same_jwts_faults). intros w fs.
    unfold same_jwts, Network.canSeeInsert. simpl. case_bool_decide; reflexivity.
  - intros _ w. reflexivity.
Qed.
Hint Resolve addCanSee_keeps_jwts : keeps_jwts.

Lemma createEmbeddedClaimRecords_keeps_jwts jwtId issuerDid claim :
  keeps same_jwts (JwtService.createEmbeddedClaimRecords jwtId issuerDid claim).
Proof.
  unfold JwtService.createEmbeddedClaimRecords.
  apply (keeps_bind _ same_jwts_trans).
  - destruct (isArray claim); [| keeps_jwts].
    apply (keeps_bind _ same_jwts_trans); [keeps_jwts |]. intros subClaims.
    apply (keeps_bind _ same_jwts_trans); [| intros; keeps_jwts].
    apply (keeps_promise_all _ same_jwts_refl same_jwts_trans).
    apply Forall_fmap, Forall_true. intros x. simpl. keeps_jwts.
  - intros _. apply (keeps_bind _ same_jwts_trans); [| intros; keeps_jwts].
    apply (keeps_promise_all _ same_jwts_refl same_jwts_trans).
    apply Forall_fmap, Forall_true. intros x. simpl. keeps_jwts.
Qed.

End EnvelopesStay.

(** ** C2: the envelope id is returned whatever happens after the insert *)




Section EnvelopeReturned.
Context `{Platform}.





End EnvelopeReturned.

(** ** Token verification touches the log alone *)

Lemma only_logs_refl w : only_logs w w.
Proof. repeat split. Qed.

Lemma only_logs_trans a b c : only_logs a b → only_logs b c → only_logs a c.
Proof. unfold only_logs. intros (? & ? & ? & ?) (? & ? & ? & ?). repeat split; congruence. Qed.

Lemma only_logs_logs w l : only_logs w (with_logs l w).
Proof. repeat split. Qed.

Ltac only_logs_step :=
  lazymatch goal with
  | |- keeps _ (bind _ _) => apply (keeps_bind _ only_logs_trans); [| intros ?]
  | |- keeps _ (resolve _) => apply (keeps_resolve _ only_logs_refl)
  | |- keeps _ (reject _) => apply (keeps_reject _ only_logs_refl)
  | |- keeps _ (settle _) => apply (keeps_settle _ only_logs_refl)
  | |- keeps _ clock => apply (keeps_clock _ only_logs_refl)
  | |- keeps _ (log _) => apply (keeps_log _ only_logs_logs)
  | |- keeps _ (if ?b then _ else _) => destruct b
  | |- keeps _ (match ?x with _ => _ end) => destruct x
  end.

Lemma bind_settle {A B} (o : outcome A) (k : A → M B) w a :
  o = Resolved a → bind (settle o) k w = k a w.
Proof. intros ->. reflexivity. Qed.

Lemma bind_settle_rejected {A B} (o : outcome A) (k : A → M B) w e :
  o = Rejected e → bind (settle o) k w = (Rejected e, w).
Proof. intros ->. reflexivity. Qed.

Lemma bind_bind {A B C} (m : M A) (f : A → M B) (g : B → M C) w :
  bind (bind m f) g w = bind m (λ a, bind (f a) g) w.
Proof. unfold bind. destruct (m w) as [[a | e] w']; reflexivity. Qed.

Lemma bind_resolve {A B} (a : A) (k : A → M B) w : bind (resolve a) k w = k a w.
Proof. reflexivity. Qed.

Lemma bind_reject {A B} e (k : A → M B) w : bind (reject e) k w = (Rejected e, w).
Proof. reflexivity. Qed.

Lemma bind_db_call_reliable {A B} (q : Db → outcome A * Db) (k : A → M B) w :
  faults w = [] →
  bind (db_call q) k w
  = match (q (db w)).1 with
    | Resolved a => k a (with_db (q (db w)).2 w)
    | Rejected e => (Rejected e, with_db (q (db w)).2 w)
    end.
Proof. intros Hf. unfold bind. rewrite (db_call_reliable _ _ Hf). reflexivity. Qed.

Ltac run Hf :=
  repeat first
    [ erewrite bind_settle by eassumption
    | rewrite (bind_resolved _ _ _ _ _ (db_query_reliable _ _ Hf))
    | progress cbv beta iota ].

(** ** Rejections that carry a client error code *)

Lemma get_throws_only o k : throws_only (get o k).
Proof. intros e. destruct o; simpl; congruence. Qed.

Lemma path_throws_only ks : ∀ o, throws_only (path o ks).
Proof.
  induction ks as [| k ks IH]; intros o e; simpl; [congruence |].
  destruct (get o k) eqn:E; [apply IH |].
  intros [= <-]. eapply get_throws_only, E.
Qed.

Lemma omap_outcome_throws_only {A B} (f : A → B) o :
  throws_only o → throws_only (omap_outcome f o).
Proof. intros Ho e. destruct o; simpl; [congruence | intros [= <-]; auto]. Qed.

Lemma and_then_throws_only a b :
  throws_only a → throws_only b → throws_only (and_then a b).
Proof. intros Ha Hb e. destruct a as [[] |]; simpl; auto. Qed.

Lemma never_code_settle code {A} (o : outcome A) :
  throws_only o → never_code code (settle o).
Proof. intros Ho w [message E]. simpl in E. apply Ho in E. discriminate. Qed.

Lemma never_code_resolve code {A} (a : A) : never_code code (resolve a).
Proof. intros w [message E]. discriminate. Qed.

Lemma never_code_bind code {A B} (m : M A) (k : A → M B) :
  never_code code m → (∀ a, never_code code (k a)) → never_code code (bind m k).
Proof.
  intros Hm Hk w. unfold bind. specialize (Hm w).
  destruct (m w) as [[a | e] w']; simpl in *; [apply Hk |].
  intros [message E]. apply Hm. exists message. congruence.
Qed.

Lemma never_code_db_query code {A} (q : Db → A) : never_code code (db_query q).
Proof.
  intros w [message E].
  destruct (db_call_cases (λ d, (Resolved (q d), d)) w) as [[rest E'] | [rest E']];
    unfold db_query in E; rewrite E' in E; discriminate.
Qed.

Lemma never_code_db_call code {A} (q : Db → outcome A * Db) :
  (∀ d, ∃ a, (q d).1 = Resolved a) → never_code code (db_call q).
Proof.
  intros Hq w [message E].
  destruct (db_call_cases q w) as [[rest E'] | [rest E']]; rewrite E' in E;
    [discriminate |].
  destruct (Hq (db w)) as [a Ha]. simpl in E. rewrite Ha in E. discriminate.
Qed.

Lemma never_code_swallowed code {A} (m : M A) (h : rejection → M A) :
  (∀ e w, ∃ a, (h e w).1 = Resolved a) → never_code code (catch m h).
Proof.
  intros Hh w [message E]. unfold catch in E.
  destruct (m w) as [[a | e] w']; [discriminate |].
  destruct (Hh e w') as [a Ha]. rewrite Ha in E. discriminate.
Qed.

Lemma never_code_log code e : never_code code (log e).
Proof. intros w [message E]. discriminate. Qed.

Lemma never_code_other code {A} e :
  (∀ message, e ≠ ClientError message code) → never_code code (@reject A e).
Proof. intros He w [message E]. simpl in E. injection E as E. eapply He, E. Qed.

Ltac never_code_step :=
  lazymatch goal with
  | |- never_code _ (bind _ _) => apply never_code_bind; [| intros ?]
  | |- never_code _ (resolve _) => apply never_code_resolve
  | |- never_code _ (log _) => apply never_code_log
  | |- never_code _ (db_query _) => apply never_code_db_query
  | |- never_code _ (reject _) => apply never_code_other; intros ?; discriminate
  | |- never_code _ (if ?b then _ else _) => destruct b
  | |- never_code _ (match ?x with _ => _ end) => destruct x
  end.

(** ** C7 and C8: the registration check and the weekly limit *)

Section Admission.
Context `{Platform}.

Lemma decodeAndVerifyJwt_only_logs jwt :
  keeps only_logs (JwtService.decodeAndVerifyJwt jwt).
Proof. unfold JwtService.decodeAndVerifyJwt. repeat only_logs_step. Qed.

Lemma extractClaim_throws_only payload : throws_only (JwtService.extractClaim payload).
Proof.
  unfold JwtService.extractClaim. intros e.
  destruct (get payload "claim") as [c | e'] eqn:Ec.
  - destruct (truthy c); simpl; [discriminate |].
    destruct (get payload "vc") as [vc | e''] eqn:Evc; simpl.
    + destruct (truthy vc); simpl; [| discriminate].
      apply omap_outcome_throws_only, get_throws_only.
    + intros [= <-]. eapply get_throws_only, Evc.
  - intros [= <-]. eapply get_throws_only, Ec.
Qed.

Lemma isEndorserRegistrationClaim_throws_only claim :
  throws_only (JwtService.isEndorserRegistrationClaim claim).
Proof.
  unfold JwtService.isEndorserRegistrationClaim.
  repeat first [ apply and_then_throws_only
               | apply omap_outcome_throws_only
               | apply get_throws_only ].
Qed.

Lemma buildJwtEntity_never_code code payload claim claimStr claimEncoded jwtEncoded :
  never_code code
    (JwtService.buildJwtEntity payload claim claimStr claimEncoded jwtEncoded).
Proof.
  unfold JwtService.buildJwtEntity.
  repeat (apply never_code_bind;
          [apply never_code_settle, get_throws_only | intros ?]).
  intros w [message E]. discriminate.
Qed.

Lemma presented_world jwtEncoded authIssuerId w payload iss w1 :
  presented jwtEncoded authIssuerId w payload iss w1 → only_logs w w1.
Proof.
  intros [(verified & Hdec & _) _ _].
  pose proof (decodeAndVerifyJwt_only_logs jwtEncoded w) as Hk.
  rewrite Hdec in Hk. exact Hk.
Qed.

Ltac enter_submission Hadm :=
  let verified := fresh "verified" in
  let Hdec := fresh "Hdec" in
  let Hpayload := fresh "Hpayload" in
  let Hiss := fresh "Hiss" in
  let Hmatch := fresh "Hmatch" in
  destruct Hadm as [(verified & Hdec & Hpayload) Hiss Hmatch];
  unfold JwtService.createWithClaimRecord;
  rewrite (bind_resolved _ _ _ _ _ Hdec);
  rewrite (bind_settle _ _ _ _ Hpayload);
  rewrite Hiss;
  rewrite (bind_settle _ _ _ false);
  [rewrite (bind_settle _ _ _ _ eq_refl)
  | simpl; destruct (truthy _); simpl; [rewrite Hmatch by reflexivity |]; reflexivity].

(** C8. A submission whose token verifies and passes the issuer cross-check,
    from an issuer with no Registration row, is rejected with
    UNREGISTERED_USER, and the store is left exactly as it was: no envelope,
    no typed record, no visibility edge. *)
Theorem unregistered_issuer_rejected jwtEncoded authIssuerId w payload iss w1 :
  presented jwtEncoded authIssuerId w payload iss w1 →
  faults w = [] →
  Store.registrationByDid iss (db w) = None →
  ∃ w',
    JwtService.createWithClaimRecord jwtEncoded authIssuerId w
      = (Rejected (ClientError
           "You are not registered to make claims. Contact an existing user for help."
           UNREGISTERED_USER), w')
    ∧ db w' = db w.
Proof.
  intros Hadm Hfaults Hnone.
  destruct (presented_world _ _ _ _ _ _ Hadm) as (Hdb & _ & _ & Hf).
  enter_submission Hadm.
  rewrite (bind_resolved _ _ _ _ _ (db_query_reliable _ w1 ltac:(congruence))).
  rewrite Hdb, Hnone. exists w1. split; [reflexivity | exact Hdb].
Qed.

(** The week the count runs over starts on a Monday at 00:00 UTC, at or
    before the present instant and less than seven days before it. *)
Lemma startOfWeek_monday t :
  startOfWeek t `mod` ms_per_day = 0
  ∧ (startOfWeek t `div` ms_per_day + 3) `mod` 7 = 0
  ∧ (startOfWeek t ≤ t < startOfWeek t + 7 * ms_per_day)%Z.
Proof.
  unfold startOfWeek, ms_per_day.
  set (day := t `div` 86400000).
  pose proof (Z.mod_pos_bound (day + 3) 7 ltac:(lia)) as Hwd.
  pose proof (Z.div_mod t 86400000 ltac:(lia)) as Ht.
  pose proof (Z.mod_pos_bound t 86400000 ltac:(lia)) as Hr.
  fold day in Ht.
  split; [apply Z.mod_mul; lia |].
  split.
  - rewrite Z.div_mul by lia.
    replace (day - (day + 3) `mod` 7 + 3) with ((day + 3) - (day + 3) `mod` 7) by lia.
    rewrite (Z.div_mod (day + 3) 7) at 1 by lia.
    replace (7 * ((day + 3) `div` 7) + (day + 3) `mod` 7 - (day + 3) `mod` 7)
      with (((day + 3) `div` 7) * 7) by lia.
    apply Z.mod_mul. lia.
  - lia.
Qed.

(** C7. For a submission that reaches the weekly check (its token verifies,
    it passes the issuer cross-check and its issuer is registered): at or
    above the effective weekly maximum it is rejected with OVER_CLAIM_LIMIT
    and the store is left as it was; strictly below it, whatever the
    submission ends in, it is not a rejection with that code. *)
Theorem weekly_limit_enforced jwtEncoded authIssuerId w payload iss w1 registered :
  presented jwtEncoded authIssuerId w payload iss w1 →
  faults w = [] →
  Store.registrationByDid iss (db w) = Some registered →
  ((effectiveMaxClaims registered ≤ claimsThisWeek iss w)%Z →
     ∃ message w',
       JwtService.createWithClaimRecord jwtEncoded authIssuerId w
         = (Rejected (ClientError message OVER_CLAIM_LIMIT), w')
       ∧ db w' = db w)
  ∧ ((claimsThisWeek iss w < effectiveMaxClaims registered)%Z →
     ¬ has_code OVER_CLAIM_LIMIT
         (JwtService.createWithClaimRecord jwtEncoded authIssuerId w).1).
Proof.
  intros Hadm Hfaults Hreg.
  destruct (presented_world _ _ _ _ _ _ Hadm) as (Hdb & _ & Hnow & Hf).
  assert (Hf1 : faults w1 = []) by congruence.
  enter_submission Hadm.
  rewrite (bind_resolved _ _ _ _ _ (db_query_reliable _ w1 Hf1)).
  rewrite Hdb, Hreg.
  rewrite (bind_resolved clock _ w1 (now w1) w1 eq_refl).
  rewrite (bind_resolved _ _ _ _ _ (db_query_reliable _ w1 Hf1)).
  rewrite Hdb, Hnow.
  fold (claimsThisWeek iss w). fold (effectiveMaxClaims registered).
  split.
  - intros Hover. apply Z.leb_le in Hover. rewrite Hover.
    eexists _, w1. split; [reflexivity | exact Hdb].
  - intros Hbelow. apply Z.leb_gt in Hbelow. rewrite Hbelow.
    lazymatch goal with
    | |- ¬ has_code ?c (fst (?m ?w)) => cut (never_code c m); [intros Hn; apply Hn |]
    end.
    apply never_code_bind;
      [apply never_code_settle, extractClaim_throws_only | intros payloadClaim].
    destruct (truthy payloadClaim); [| repeat never_code_step].
    apply never_code_bind;
      [apply never_code_settle, isEndorserRegistrationClaim_throws_only
      | intros isRegistration].
    apply never_code_bind; [repeat never_code_step | intros _].
    cbv zeta.
    apply never_code_bind; [apply buildJwtEntity_never_code | intros jwtEntity].
    apply never_code_bind;
      [apply never_code_db_call; intros d; eexists; reflexivity | intros jwtRowId].
    apply never_code_bind; [| intros; apply never_code_resolve].
    apply never_code_swallowed. intros e w'. eexists. reflexivity.
Qed.

End Admission.

(** Through the checks of a cleared submission, up to the claim. *)
Ltac pass_checks Hc iss w w1 registered :=
  destruct Hc as [Hadm Hfaults Hreg Hbelow Hclaim];
  destruct (presented_world _ _ _ _ _ _ Hadm) as (Hdb & _ & Hnow & Hf);
  assert (Hf1 : faults w1 = []) by congruence;
  destruct Hadm as [(verified & Hdec & Hpayload) Hiss Hmatch];
  unfold JwtService.createWithClaimRecord;
  rewrite (bind_resolved _ _ _ _ _ Hdec);
  rewrite (bind_settle _ _ _ _ Hpayload);
  rewrite Hiss;
  rewrite (bind_settle _ _ _ false);
  [ rewrite (bind_settle _ _ _ _ eq_refl)
  | simpl; destruct (truthy _); simpl; [rewrite Hmatch by reflexivity |]; reflexivity ];
  rewrite (bind_resolved _ _ _ _ _ (db_query_reliable _ w1 Hf1));
  rewrite Hdb, Hreg;
  rewrite (bind_resolved clock _ w1 (now w1) w1 eq_refl);
  rewrite (bind_resolved _ _ _ _ _ (db_query_reliable _ w1 Hf1));
  rewrite Hdb, Hnow;
  fold (claimsThisWeek iss w); fold (effectiveMaxClaims registered);
  apply Z.leb_gt in Hbelow; rewrite Hbelow;
  rewrite (bind_settle _ _ _ _ Hclaim).

(** ** C9: the maxima reported and the maxima enforced *)

Lemma or_else_unless_null (x : option Z) (dflt : Z) :
  x ≠ Some 0 → or_else x dflt = unless_null x dflt.
Proof.
  destruct x as [n |]; simpl; [| reflexivity].
  intros Hn. destruct (Z.eqb_spec n 0); [congruence | reflexivity].
Qed.

(** C9. With a weekly override of 0, [getRateLimits] reports a maximum of 100
    claims with none made, while [createWithClaimRecord] enforces 0 and
    rejects the first claim; with a monthly override of 0 it reports 10
    registrations while a first registration is rejected against 0. *)
Theorem reported_maximum_differs_at_zero :
  (∃ limits,
     @JwtService.getRateLimits RateLimitsAtZero.P (VStr "did:ethr:0xaaa")
       RateLimitsAtZero.noClaims = (Resolved limits, RateLimitsAtZero.noClaims)
     ∧ maxClaimsPerWeek limits = 100%Z ∧ doneClaimsThisWeek limits = 0%Z)
  ∧ @JwtService.createWithClaimRecord RateLimitsAtZero.P "join" VUndef
      RateLimitsAtZero.noClaims
    = (Rejected (ClientError
         "You have already made 0 claims this week. Contact an administrator for a higher limit."
         OVER_CLAIM_LIMIT), RateLimitsAtZero.noClaims)
  ∧ (∃ limits,
       @JwtService.getRateLimits RateLimitsAtZero.P (VStr "did:ethr:0xaaa")
         RateLimitsAtZero.noRegistrations
         = (Resolved limits, RateLimitsAtZero.noRegistrations)
       ∧ maxRegistrationsPerMonth limits = 10%Z
       ∧ doneRegistrationsThisMonth limits = 0%Z)
  ∧ @JwtService.createWithClaimRecord RateLimitsAtZero.P "register" VUndef
      RateLimitsAtZero.noRegistrations
    = (Rejected (ClientError
         "You have already registered 0 this month. Contact an administrator for a higher limit."
         OVER_REGISTRATION_LIMIT), RateLimitsAtZero.noRegistrations).
Proof.
  split; [eexists; split; [vm_compute; reflexivity | split; reflexivity] |].
  split; [vm_compute; reflexivity |].
  split; [eexists; split; [vm_compute; reflexivity | split; reflexivity] |].
  vm_compute; reflexivity.
Qed.

(** Away from an override of 0 the two agree. *)
Lemma reported_maximum_agrees `{Platform} (registered : registration_row) :
  registration_maxClaims registered ≠ Some 0%Z →
  registration_maxRegs registered ≠ Some 0%Z →
  or_else (registration_maxClaims registered) JwtService.DEFAULT_MAX_CLAIMS_PER_WEEK
    = unless_null (registration_maxClaims registered)
                  JwtService.DEFAULT_MAX_CLAIMS_PER_WEEK
  ∧ or_else (registration_maxRegs registered)
            JwtService.DEFAULT_MAX_REGISTRATIONS_PER_MONTH
    = unless_null (registration_maxRegs registered)
                  JwtService.DEFAULT_MAX_REGISTRATIONS_PER_MONTH.
Proof. intros Hc Hr. split; apply or_else_unless_null; assumption. Qed.

(** ** C6: reading an action claim *)

Section ActionReads.
Context `{Platform}.

Lemma indexOf_string objects s :
  ActionServiceForRequester.indexOf objects (VStr s) = true ↔ VStr s ∈ objects.
Proof.
  unfold ActionServiceForRequester.indexOf. rewrite existsb_exists. split.
  - intros (x & Hin & Heq). apply list_elem_of_In in Hin.
    destruct x; simpl in Heq; try discriminate.
    apply bool_decide_eq_true in Heq. congruence.
  - intros Hin. exists (VStr s). split; [apply list_elem_of_In, Hin |].
    simpl. apply bool_decide_eq_true. reflexivity.
Qed.

Lemma indexOf_elem objects x :
  ActionServiceForRequester.indexOf objects x = true → x ∈ objects.
Proof.
  unfold ActionServiceForRequester.indexOf. rewrite existsb_exists.
  intros (y & Hin & Heq). apply list_elem_of_In in Hin.
  assert (x = y) as ->; [| exact Hin].
  destruct x, y; simpl in Heq; try discriminate;
    apply bool_decide_eq_true in Heq; exact Heq.
Qed.

Lemma byId_runs id requesterDid w actionClaim :
  faults w = [] →
  Store.actionClaimById id (db w) = Some actionClaim →
  ∃ w',
    ActionServiceForRequester.byId id requesterDid w
      = (Resolved
           (Some (if ActionServiceForRequester.indexOf (visibleSet requesterDid w)
                       (action_agentDid actionClaim)
                  then actionClaim
                  else ActionServiceForRequester.hideAgent actionClaim)), w')
    ∧ db w' = db w.
Proof.
  intros Hf Hact. unfold ActionServiceForRequester.byId, visibleSet.
  rewrite (bind_resolved _ _ _ _ _ (db_query_reliable _ w Hf)). rewrite Hact.
  unfold bind at 1. destruct (netCache w !! requesterDid) as [objects |].
  - exists w. destruct (ActionServiceForRequester.indexOf _ _); split; reflexivity.
  - rewrite (bind_resolved _ _ _ _ _ (db_query_reliable _ w Hf)).
    eexists. destruct (ActionServiceForRequester.indexOf _ _); split; reflexivity.
Qed.

(** C6, as amended. The requester-aware [byId(id, requesterDid)] returns the
    stored action in both cases: with the agent identity replaced by the hidden
    sentinel and every other field unchanged when the agent is not in the
    requester's visible set, and unmodified when it is.  The [byId(id)] of
    [server/api/services/action.service.js] takes no requester and returns
    what the store holds. *)
Theorem byId_hides_agent_for_requester id requesterDid w actionClaim :
  faults w = [] →
  Store.actionClaimById id (db w) = Some actionClaim →
  (∃ returned w',
     ActionServiceForRequester.byId id requesterDid w = (Resolved (Some returned), w')
     ∧ (action_agentDid actionClaim ∉ visibleSet requesterDid w →
        action_agentDid returned = VStr HIDDEN_TEXT
        ∧ action_id returned = action_id actionClaim
        ∧ action_jwtId returned = action_jwtId actionClaim
        ∧ action_issuerDid returned = action_issuerDid actionClaim
        ∧ action_eventRowId returned = action_eventRowId actionClaim
        ∧ action_eventOrgName returned = action_eventOrgName actionClaim
        ∧ action_eventName returned = action_eventName actionClaim
        ∧ action_eventStartTime returned = action_eventStartTime actionClaim)
     ∧ (∀ did, action_agentDid actionClaim = VStr did →
        VStr did ∈ visibleSet requesterDid w → returned = actionClaim))
  ∧ ActionService.byId id w = (Resolved (Some actionClaim), w).
Proof.
  intros Hf Hact. split.
  - destruct (byId_runs id requesterDid w actionClaim Hf Hact) as (w' & Hrun & _).
    eexists _, w'. split; [exact Hrun |]. split.
    + intros Hnot.
      destruct (ActionServiceForRequester.indexOf _ _) eqn:E.
      * apply indexOf_elem in E. contradiction.
      * repeat split.
    + intros did Hdid Hin. rewrite Hdid.
      apply indexOf_string in Hin. rewrite Hin. reflexivity.
  - unfold ActionService.byId. rewrite (db_query_reliable _ w Hf), Hact. reflexivity.
Qed.

End ActionReads.

(** C6 as stated fails on [server/api/services/action.service.js]: with no
    visibility edge in the store, so that the agent is in nobody's visible
    set, [byId] still returns the stored agent identity, which is not the
    sentinel. *)
Lemma byId_without_requester_shows_agent :
  ∃ returned,
    ActionService.byId 1 HiddenAgent.nobodySees
      = (Resolved (Some returned), HiddenAgent.nobodySees)
    ∧ @visibleSet (Reference.platform []) "did:ethr:0xbbb" HiddenAgent.nobodySees = []
    ∧ action_agentDid returned = VStr "did:ethr:0xccc"
    ∧ bool_decide (action_agentDid returned
                   = VStr (@HIDDEN_TEXT (Reference.platform []))) = false.
Proof. eexists. repeat split; vm_compute; reflexivity. Qed.

(** ** C10: an original claim without a context *)

Lemma lookup_update_prop k v props : lookup_prop k (update_prop k v props) = v.
Proof.
  induction props as [| [k' v'] props IH]; simpl.
  - rewrite String.eqb_refl. reflexivity.
  - destruct (String.eqb k k') eqn:E; simpl; [rewrite String.eqb_refl | rewrite E];
      auto.
Qed.

Section DefaultContext.
Context `{Platform}.

Lemma path_same_properties a b k ks :
  (∀ k, lookup_prop k a = lookup_prop k b) →
  path (VObj a) (k :: ks) = path (VObj b) (k :: ks).
Proof. intros Hab. simpl. rewrite Hab. reflexivity. Qed.

(** [confirmOne] reads an object through its properties and its canonical
    form alone. *)
Lemma confirmOne_same_properties jwtId issuerDid a b :
  (∀ k, lookup_prop k a = lookup_prop k b) →
  canonicalize (VObj a) = canonicalize (VObj b) →
  JwtService.confirmOne jwtId issuerDid (VObj a)
  = JwtService.confirmOne jwtId issuerDid (VObj b).
Proof.
  intros Hab Hcanon.
  unfold JwtService.confirmOne, JwtService.typeIs, JwtService.isOrgRoleConfirmation,
    Store.confirmationByIssuerAndOrigClaim.
  rewrite Hcanon.
  rewrite !(path_same_properties a b) by exact Hab.
  change (get (VObj a)) with (λ k, Resolved (lookup_prop k a)).
  change (get (VObj b)) with (λ k, Resolved (lookup_prop k b)).
  cbv beta. rewrite !Hab. reflexivity.
Qed.

(** C10. An original claim object whose '@context' is null or absent is
    handled exactly as the same object carrying the schema.org context: the
    two calls are the same computation (the same target resolution, duplicate
    lookup, canonicalization, outcome and effect on the world), run on the
    object with the context written into it, which is also what the caller's
    object holds afterwards.  The same holds for the claim written with the
    explicit context in any other key order, as long as canonicalization
    gives both the same form. *)
Theorem missing_context_is_schema_org jwtId issuerDid props :
  nullish (lookup_prop "@context" props) = true →
  JwtService.createOneConfirmation jwtId issuerDid (VObj props)
    = JwtService.createOneConfirmation jwtId issuerDid
        (VObj (update_prop "@context" (VStr "https://schema.org") props))
  ∧ JwtService.createOneConfirmation jwtId issuerDid (VObj props)
    = JwtService.confirmOne jwtId issuerDid
        (VObj (update_prop "@context" (VStr "https://schema.org") props))
  ∧ JwtService.origClaimAfter (VObj props)
    = VObj (update_prop "@context" (VStr "https://schema.org") props)
  ∧ get (JwtService.origClaimAfter (VObj props)) "@context"
    = Resolved (VStr "https://schema.org")
  ∧ ∀ written,
      (∀ k, lookup_prop k written
            = lookup_prop k (update_prop "@context" (VStr "https://schema.org") props)) →
      canonicalize (VObj written)
        = canonicalize (VObj (update_prop "@context" (VStr "https://schema.org") props)) →
      JwtService.createOneConfirmation jwtId issuerDid (VObj props)
        = JwtService.createOneConfirmation jwtId issuerDid (VObj written).
Proof.
  intros Hnull.
  assert (E1 : JwtService.defaultContext (VObj props)
               = Resolved (VObj (update_prop "@context" (VStr "https://schema.org") props))).
  { unfold JwtService.defaultContext. simpl. rewrite Hnull. reflexivity. }
  assert (E2 : ∀ written,
            lookup_prop "@context" written = VStr "https://schema.org" →
            JwtService.defaultContext (VObj written) = Resolved (VObj written)).
  { intros written Hw. unfold JwtService.defaultContext. simpl. rewrite Hw. reflexivity. }
  unfold JwtService.createOneConfirmation, JwtService.origClaimAfter.
  rewrite E1, (E2 _ (lookup_update_prop _ _ _)).
  split; [reflexivity |]. split; [reflexivity |]. split; [reflexivity |].
  split; [simpl; rewrite lookup_update_prop; reflexivity |].
  intros written Hsame Hcanon.
  rewrite (E2 written) by (rewrite Hsame; apply lookup_update_prop).
  change (JwtService.confirmOne jwtId issuerDid
            (VObj (update_prop "@context" (VStr "https://schema.org") props))
          = JwtService.confirmOne jwtId issuerDid (VObj written)).
  symmetry. apply confirmOne_same_properties; assumption.
Qed.

End DefaultContext.

(** ** C1: the chain-rebuild pass *)

Lemma insert_by_id_perm r l : MerkleStore.insert_by_id r l ≡ₚ r :: l.
Proof.
  induction l as [| x l IH]; simpl; [reflexivity |].
  destruct (Z.leb (jwt_id r) (jwt_id x)); [reflexivity |].
  rewrite IH. apply Permutation_swap.
Qed.

Lemma order_by_id_perm l : MerkleStore.order_by_id l ≡ₚ l.
Proof.
  induction l as [| x l IH]; simpl; [reflexivity |].
  rewrite insert_by_id_perm, IH. reflexivity.
Qed.

Lemma insert_by_id_sorted r l :
  Sorted Z.le (jwt_id <$> l) → Sorted Z.le (jwt_id <$> MerkleStore.insert_by_id r l).
Proof.
  induction l as [| x l IH]; simpl; intros Hs.
  - repeat constructor.
  - destruct (Z.leb_spec (jwt_id r) (jwt_id x)); simpl.
    + constructor; [exact Hs | constructor; assumption].
    + apply Sorted_inv in Hs as [Hs Hhd]. constructor; [apply IH, Hs |].
      destruct l as [| y l]; simpl.
      * constructor. lia.
      * destruct (Z.leb (jwt_id r) (jwt_id y)); simpl; constructor;
          [lia | inversion Hhd; assumption].
Qed.

Lemma order_by_id_sorted l : Sorted Z.le (jwt_id <$> MerkleStore.order_by_id l).
Proof.
  induction l as [| x l IH]; simpl; [constructor | apply insert_by_id_sorted, IH].
Qed.

Lemma list_filter_sublist {A} (f : A → bool) (l : list A) : List.filter f l `sublist_of` l.
Proof.
  induction l as [| x l IH]; simpl; [constructor |].
  destruct (f x); [apply sublist_skip | apply sublist_cons]; exact IH.
Qed.

Lemma unmerkled_ids d :
  iac_id <$> MerkleStore.jwtClaimsAndIdsUnmerkled d
  = jwt_id <$> MerkleStore.order_by_id
      (List.filter (λ r, bool_decide (jwt_hashChainHex r = None)) (jwts d)).
Proof.
  unfold MerkleStore.jwtClaimsAndIdsUnmerkled. rewrite <- list_fmap_compose.
  reflexivity.
Qed.

Lemma unmerkled_in_id_order d :
  Sorted Z.le (iac_id <$> MerkleStore.jwtClaimsAndIdsUnmerkled d).
Proof. rewrite unmerkled_ids. apply order_by_id_sorted. Qed.

Lemma unmerkled_ids_stored d :
  NoDup (jwt_id <$> jwts d) →
  NoDup (iac_id <$> MerkleStore.jwtClaimsAndIdsUnmerkled d)
  ∧ ∀ i, i ∈ iac_id <$> MerkleStore.jwtClaimsAndIdsUnmerkled d → i ∈ jwt_id <$> jwts d.
Proof.
  intros Hnd. rewrite unmerkled_ids.
  assert (Hsub : jwt_id <$> List.filter (λ r, bool_decide (jwt_hashChainHex r = None)) (jwts d)
                 `sublist_of` jwt_id <$> jwts d)
    by apply fmap_sublist, list_filter_sublist.
  split.
  - rewrite order_by_id_perm. eapply sublist_NoDup; eassumption.
  - intros i Hi. rewrite order_by_id_perm in Hi.
    eapply elem_of_sublist; eassumption.
Qed.

Section ChainRebuild.
Context `{Platform}.

Lemma replay_link rows : ∀ seed n r,
  rows !! n = Some r →
  replay seed rows !! n
  = Some (chainLink (match n with
                     | O => seed
                     | S m => default "" (replay seed rows !! m)
                     end) r).
Proof.
  induction rows as [| r0 rest IH]; intros seed n r Hn; [discriminate |].
  destruct n as [| m]; simpl in *.
  - congruence.
  - rewrite (IH _ _ _ Hn). destruct m; reflexivity.
Qed.

Lemma merkleUpdates_run rows : ∀ seed w,
  faults w = [] →
  ∃ results w',
    promise_all (JwtService.merkleUpdates seed rows) w = (Resolved results, w')
    ∧ db w' = rebuilt seed rows (db w) ∧ faults w' = [].
Proof.
  induction rows as [| r rest IH]; intros seed w Hf; simpl.
  - exists [], w. repeat split. exact Hf.
  - unfold writtenHash. destruct (iac_hashHex r) as [h |]; simpl.
    + rewrite (db_call_reliable _ w Hf). simpl.
      edestruct (IH (chainLink seed r)) as (results & w' & -> & Hdb & Hf');
        [| exists (tt :: results), w'; repeat split; [exact Hdb | exact Hf']].
      exact Hf.
    + unfold bind, log. simpl.
      rewrite db_call_reliable by exact Hf. simpl.
      edestruct (IH (chainLink seed r)) as (results & w' & -> & Hdb & Hf');
        [| exists (tt :: results), w'; repeat split; [exact Hdb | exact Hf']].
      exact Hf.
Qed.

Lemma find_fmap_same {A} (p : A → bool) (f : A → A) (l : list A) :
  (∀ x, p (f x) = p x) → find p (f <$> l) = f <$> find p l.
Proof.
  intros Hp. induction l as [| x l IH]; simpl; [reflexivity |].
  rewrite Hp. destruct (p x); [reflexivity | exact IH].
Qed.

Lemma storedRow_id d i r : storedRow d i = Some r → jwt_id r = i.
Proof.
  unfold storedRow. intros Hf. apply find_some in Hf as [_ Hf]. apply Z.eqb_eq, Hf.
Qed.

Lemma storedRow_present d i : i ∈ jwt_id <$> jwts d → is_Some (storedRow d i).
Proof.
  unfold storedRow. intros (r & -> & Hin)%list_elem_of_fmap.
  destruct (find _ _) eqn:E; [eauto |].
  apply list_elem_of_In in Hin. eapply find_none in E; [| exact Hin].
  simpl in E. rewrite Z.eqb_refl in E. discriminate.
Qed.

Lemma setMerkle_ids i h c d :
  jwt_id <$> jwts (MerkleStore.jwtSetMerkleHash i h c d).2 = jwt_id <$> jwts d.
Proof.
  simpl. rewrite <- list_fmap_compose. apply list_fmap_ext.
  intros _ r _. simpl. destruct (Z.eqb (jwt_id r) i); reflexivity.
Qed.

Lemma setMerkle_other i h c d j :
  j ≠ i → storedRow (MerkleStore.jwtSetMerkleHash i h c d).2 j = storedRow d j.
Proof.
  intros Hne. unfold storedRow. simpl. rewrite find_fmap_same.
  - destruct (find _ _) as [r |] eqn:E; [| reflexivity]. simpl.
    apply find_some in E as [_ E]. apply Z.eqb_eq in E.
    destruct (Z.eqb_spec (jwt_id r) i); [congruence | reflexivity].
  - intros r. destruct (Z.eqb (jwt_id r) i); reflexivity.
Qed.

Lemma setMerkle_same i h c d :
  i ∈ jwt_id <$> jwts d →
  chainValue (MerkleStore.jwtSetMerkleHash i h c d).2 i = Some c
  ∧ contentHash (MerkleStore.jwtSetMerkleHash i h c d).2 i = Some h.
Proof.
  intros [r Hr]%storedRow_present. pose proof (storedRow_id _ _ _ Hr) as Hid.
  unfold chainValue, contentHash, storedRow in *. simpl. rewrite find_fmap_same.
  - rewrite Hr. simpl. rewrite Hid, Z.eqb_refl. split; reflexivity.
  - intros x. destruct (Z.eqb (jwt_id x) i) eqn:E; simpl; rewrite ?E; reflexivity.
Qed.

Lemma rebuilt_ids rows : ∀ latest d,
  jwt_id <$> jwts (rebuilt latest rows d) = jwt_id <$> jwts d.
Proof.
  induction rows as [| r rest IH]; intros latest d; simpl; [reflexivity |].
  rewrite IH. apply setMerkle_ids.
Qed.

Lemma rebuilt_other rows : ∀ latest d j,
  j ∉ iac_id <$> rows → storedRow (rebuilt latest rows d) j = storedRow d j.
Proof.
  induction rows as [| r rest IH]; intros latest d j Hj; simpl; [reflexivity |].
  rewrite fmap_cons in Hj. apply not_elem_of_cons in Hj as [Hne Hj].
  rewrite IH by exact Hj. apply setMerkle_other, Hne.
Qed.

Lemma rebuilt_values rows : ∀ latest d,
  NoDup (iac_id <$> rows) →
  (∀ i, i ∈ iac_id <$> rows → i ∈ jwt_id <$> jwts d) →
  ∀ n r, rows !! n = Some r →
    chainValue (rebuilt latest rows d) (iac_id r) = replay latest rows !! n
    ∧ contentHash (rebuilt latest rows d) (iac_id r) = Some (writtenHash r).
Proof.
  induction rows as [| r0 rest IH]; intros latest d Hnd Hin n r Hn; [discriminate |].
  rewrite fmap_cons in Hnd. apply NoDup_cons in Hnd as [Hfresh Hnd].
  destruct n as [| m]; simpl in Hn |- *.
  - injection Hn as <-.
    unfold chainValue, contentHash. rewrite rebuilt_other by exact Hfresh.
    apply setMerkle_same, Hin. rewrite fmap_cons. apply elem_of_cons. left. reflexivity.
  - apply IH; [exact Hnd | | exact Hn].
    intros i Hi.
    pose proof (setMerkle_ids (iac_id r0) (writtenHash r0) (chainLink latest r0) d) as Hids.
    simpl in Hids |- *. rewrite Hids. apply Hin.
    rewrite fmap_cons. apply elem_of_cons. right. exact Hi.
Qed.

(** C1. A pass over a store whose envelope ids are distinct and whose calls
    do not fail resolves, having taken the rows lacking a chain value in id
    order; afterwards the chain value stored for each of them is the hash of
    the previous chain value (the seed for the first row, the value stored
    for the row before otherwise) followed by that row's content hash, and
    the content hash stored for it is the one it had or, when it had none,
    the recomputed one, which is then the one its chain link is computed
    from. *)
Theorem chain_rebuilt_link_by_link w :
  faults w = [] →
  NoDup (jwt_id <$> jwts (db w)) →
  Sorted Z.le (iac_id <$> MerkleStore.jwtClaimsAndIdsUnmerkled (db w))
  ∧ ∃ results w',
      JwtService.merkleUnmerkled w = (Resolved results, w')
      ∧ ∀ n r,
          MerkleStore.jwtClaimsAndIdsUnmerkled (db w) !! n = Some r →
          chainValue (db w') (iac_id r)
          = Some (sha256_hex
                    (previousChain (seedOf (db w))
                       (MerkleStore.jwtClaimsAndIdsUnmerkled (db w)) (db w') n
                     +:+ hashedClaimWithHashedDids r))
          ∧ contentHash (db w') (iac_id r)
            = Some (default (hashedClaimWithHashedDids r) (iac_hashHex r))
          ∧ (iac_hashHex r = None →
             ∃ recomputed,
               contentHash (db w') (iac_id r) = Some recomputed
               ∧ chainValue (db w') (iac_id r)
                 = Some (sha256_hex
                           (previousChain (seedOf (db w))
                              (MerkleStore.jwtClaimsAndIdsUnmerkled (db w)) (db w') n
                            +:+ recomputed))).
Proof.
  intros Hf Hnd. split; [apply unmerkled_in_id_order |].
  destruct (unmerkled_ids_stored _ Hnd) as [Hnd' Hin].
  set (rows := MerkleStore.jwtClaimsAndIdsUnmerkled (db w)) in *.
  destruct (merkleUpdates_run rows (seedOf (db w)) w Hf) as (results & w' & Hrun & Hdb & _).
  exists results, w'. split.
  - unfold JwtService.merkleUnmerkled, catch.
    rewrite (bind_resolved _ _ _ _ _ (db_query_reliable _ w Hf)).
    rewrite (bind_resolved _ _ _ _ _ (db_query_reliable _ w Hf)).
    fold rows. change (match MerkleStore.jwtLastMerkleHash (db w) with
                       | hashChainHex :: _ => hashChainHex
                       | [] => ""
                       end) with (seedOf (db w)).
    rewrite Hrun. reflexivity.
  - intros n r Hn. rewrite Hdb.
    destruct (rebuilt_values rows (seedOf (db w)) (db w) Hnd' Hin n r Hn) as [Hc Hh].
    assert (Hprev : previousChain (seedOf (db w)) rows (rebuilt (seedOf (db w)) rows (db w)) n
                    = match n with
                      | O => seedOf (db w)
                      | S m => default "" (replay (seedOf (db w)) rows !! m)
                      end).
    { destruct n as [| m]; [reflexivity |]. simpl.
      destruct (rows !! m) as [r' |] eqn:Hm; simpl.
      - destruct (rebuilt_values rows (seedOf (db w)) (db w) Hnd' Hin m r' Hm) as [-> _].
        reflexivity.
      - apply lookup_ge_None in Hm. apply lookup_lt_Some in Hn. lia. }
    assert (Hlink : chainValue (rebuilt (seedOf (db w)) rows (db w)) (iac_id r)
                    = Some (sha256_hex
                              (previousChain (seedOf (db w)) rows
                                 (rebuilt (seedOf (db w)) rows (db w)) n
                               +:+ hashedClaimWithHashedDids r))).
    { rewrite Hc, Hprev. apply (replay_link rows _ _ _ Hn). }
    split; [exact Hlink |]. split; [exact Hh |].
    intros Hnone. exists (hashedClaimWithHashedDids r). split; [| exact Hlink].
    rewrite Hh. unfold writtenHash. rewrite Hnone. reflexivity.
Qed.

End ChainRebuild.

(** ** C3: one confirmation per issuer and target *)

(** The id the store assigns is above every id of the table, and positive. *)
Lemma next_id_above {R} (id : R → Z) (rows : list R) :
  Forall (λ r, (id r < next_id id rows)%Z) rows.
Proof.
  unfold next_id. induction rows as [| r rows IH]; constructor; simpl.
  - lia.
  - eapply Forall_impl; [exact IH |]. simpl. intros x Hx. lia.
Qed.

Lemma next_id_positive {R} (id : R → Z) (rows : list R) : (0 < next_id id rows)%Z.
Proof.
  unfold next_id. induction rows as [| r rows IH]; simpl; lia.
Qed.

Section Confirmations.
Context `{Platform}.

Lemma lookupConfirmation_spec issuer t d :
  match lookupConfirmation issuer t d with
  | Some c => c ∈ confirmations d ∧ confirmedBy issuer t c
  | None => ∀ c, c ∈ confirmations d → ¬ confirmedBy issuer t c
  end.
Proof.
  assert (Hfind : ∀ p : confirmation_row → bool,
            (∀ c, p c = true ↔ confirmedBy issuer t c) →
            match find p (confirmations d) with
            | Some c => c ∈ confirmations d ∧ confirmedBy issuer t c
            | None => ∀ c, c ∈ confirmations d → ¬ confirmedBy issuer t c
            end).
  { intros p Hp. destruct (find p (confirmations d)) as [c |] eqn:E.
    - apply find_some in E as [Hin Hc]. split; [apply list_elem_of_In, Hin | apply Hp, Hc].
    - intros c Hin Hc. apply list_elem_of_In in Hin.
      apply (find_none _ _ E) in Hin. apply Hp in Hc. congruence. }
  destruct t; simpl; apply Hfind; intros c; unfold confirmedBy, value_is; simpl;
    rewrite andb_true_iff, bool_decide_eq_true;
    rewrite ?bool_decide_eq_true, ?String.eqb_eq; reflexivity.
Qed.

Lemma confirmOne_runs jwtId issuer origClaim w t :
  faults w = [] →
  resolves (db w) origClaim t →
  JwtService.confirmOne jwtId issuer origClaim w
  = match lookupConfirmation issuer t (db w) with
    | Some existing =>
        (Rejected (JsError (alreadyConfirmedText t
                            +:+ pretty (confirmation_id existing))), w)
    | None =>
        (Resolved {| confirmId := next_id confirmation_id (confirmations (db w));
                     actionClaimId := (targetColumns t).1.1;
                     tenureClaimId := (targetColumns t).1.2;
                     orgRoleClaimId := (targetColumns t).2 |},
         with_db (with_confirmations
                    (confirmations (db w)
                     ++ [insertedConfirmation jwtId issuer (canonicalize origClaim) t (db w)])
                    (db w)) w)
    end.
Proof.
  intros Hf Hres. unfold JwtService.confirmOne.
  destruct Hres; run Hf.
  - rewrite H4. run Hf. rewrite H6. run Hf. simpl.
    destruct (Store.confirmationByIssuerAndAction _ _ _); [reflexivity |].
    rewrite (bind_db_call_reliable _ _ _ Hf). reflexivity.
  - rewrite H4. run Hf. simpl.
    destruct (Store.confirmationByIssuerAndTenure _ _ _); [reflexivity |].
    rewrite (bind_db_call_reliable _ _ _ Hf). reflexivity.
  - rewrite H8. run Hf. simpl.
    destruct (Store.confirmationByIssuerAndOrgRole _ _ _); [reflexivity |].
    rewrite (bind_db_call_reliable _ _ _ Hf). reflexivity.
  - simpl. unfold Store.confirmationByIssuerAndOrigClaim.
    destruct (find _ _); [reflexivity |].
    rewrite (bind_db_call_reliable _ _ _ Hf). reflexivity.
Qed.

(** C3. For an issuer and an original claim that names a recorded target, in a
    store whose calls do not fail: when a confirmation by that issuer for
    that target exists, [createOneConfirmation] rejects with an error whose
    message ends in the id of such a confirmation and leaves the world
    untouched; when none exists, it appends exactly one confirmation row, by
    that issuer for that target and with a fresh id, and resolves to that
    id. *)
Theorem one_confirmation_per_issuer_and_target jwtId issuer origClaim origClaim' w t :
  faults w = [] →
  JwtService.defaultContext origClaim = Resolved origClaim' →
  resolves (db w) origClaim' t →
  ((∃ existing, existing ∈ confirmations (db w) ∧ confirmedBy issuer t existing) →
   ∃ existing text,
     existing ∈ confirmations (db w) ∧ confirmedBy issuer t existing
     ∧ JwtService.createOneConfirmation jwtId issuer origClaim w
       = (Rejected (JsError (text +:+ pretty (confirmation_id existing))), w))
  ∧ ((∀ existing, existing ∈ confirmations (db w) → ¬ confirmedBy issuer t existing) →
     ∃ confirmed row w',
       JwtService.createOneConfirmation jwtId issuer origClaim w = (Resolved confirmed, w')
       ∧ confirmations (db w') = (confirmations (db w) ++ [row])%list
       ∧ confirmId confirmed = confirmation_id row
       ∧ confirmedBy issuer t row
       ∧ confirmation_jwtId row = jwtId
       ∧ confirmation_origClaim row = canonicalize origClaim'
       ∧ Forall (λ c, (confirmation_id c < confirmation_id row)%Z) (confirmations (db w))).
Proof.
  intros Hf Hctx Hres.
  assert (Hrun : JwtService.createOneConfirmation jwtId issuer origClaim w
                 = JwtService.confirmOne jwtId issuer origClaim' w).
  { unfold JwtService.createOneConfirmation. rewrite Hctx. reflexivity. }
  rewrite Hrun, (confirmOne_runs _ _ _ _ _ Hf Hres).
  pose proof (lookupConfirmation_spec issuer t (db w)) as Hspec.
  destruct (lookupConfirmation issuer t (db w)) as [found |]; split.
  - intros _. destruct Hspec as [Hin Hby]. exists found, (alreadyConfirmedText t).
    split; [exact Hin | split; [exact Hby | reflexivity]].
  - intros Hnone. destruct Hspec as [Hin Hby]. exfalso. eapply Hnone; eassumption.
  - intros (existing & Hin & Hby). exfalso. eapply Hspec; eassumption.
  - intros _. eexists _, (insertedConfirmation jwtId issuer (canonicalize origClaim') t (db w)), _.
    split; [reflexivity |]. repeat split.
    + destruct t; simpl; try reflexivity.
      inversion Hres. reflexivity.
    + apply next_id_above.
Qed.

End Confirmations.

(** ** C4: dispatching a JoinAction *)

Section JoinActions.
Context `{Platform}.

(** C4. For a JoinAction claim dispatched on a store whose calls do not fail
    and whose action ids are not 0: with no event of the claim's key, a new
    event row with that key is created and a new action row referencing it
    is inserted; with one or more, no event row is created and the first is
    reused, a warning being logged when there are several; then, when the
    agent already has an action claim for that event, the dispatch is
    rejected with an error that ends in the id of that action and no action
    row is added, and otherwise one action row referencing that event is
    inserted. *)
Theorem join_action_dispatch jwtId issuerDid claim agentDid orgName name startTime w :
  faults w = [] →
  Forall (λ a, action_id a ≠ 0%Z) (actions (db w)) →
  joinActionOf claim agentDid orgName name startTime →
  (Store.eventsByParams orgName name startTime (db w) = [] →
   ∃ w' event,
     JwtService.createEmbeddedClaimRecord jwtId issuerDid claim w = (Resolved tt, w')
     ∧ event = {| event_id := next_id event_id (events (db w));
                  event_orgName := orgName; event_name := name;
                  event_startTime := startTime |}
     ∧ events (db w') = (events (db w) ++ [event])%list
     ∧ actions (db w')
       = (actions (db w) ++ [recordedAction issuerDid agentDid jwtId event (db w)])%list)
  ∧ (∀ event0 others,
       Store.eventsByParams orgName name startTime (db w) = event0 :: others →
       (others ≠ [] →
        multipleEventsWarning orgName name startTime
          ∈ logs (JwtService.createEmbeddedClaimRecord jwtId issuerDid claim w).2)
       ∧ events (db (JwtService.createEmbeddedClaimRecord jwtId issuerDid claim w).2)
         = events (db w)
       ∧ (∀ existing,
            Store.actionClaimIdByDidEventId agentDid (event_id event0) (db w)
              = Some existing →
            (JwtService.createEmbeddedClaimRecord jwtId issuerDid claim w).1
              = Rejected (JsError
                  ("Same user attempted to record an action claim that already exists with ID "
                   +:+ pretty existing))
            ∧ actions (db (JwtService.createEmbeddedClaimRecord jwtId issuerDid claim w).2)
              = actions (db w))
       ∧ (Store.actionClaimIdByDidEventId agentDid (event_id event0) (db w) = None →
          (JwtService.createEmbeddedClaimRecord jwtId issuerDid claim w).1 = Resolved tt
          ∧ actions (db (JwtService.createEmbeddedClaimRecord jwtId issuerDid claim w).2)
            = (actions (db w)
               ++ [recordedAction issuerDid agentDid jwtId event0 (db w)])%list)).
Proof.
  intros Hf Hids [Hkind Hagent Hgiven
                    (claimEvent & organizer & Hev & Hevt & Horg & Hname & Hn & Hs)].
  assert (Hrun : JwtService.createEmbeddedClaimRecord jwtId issuerDid claim w
                 = JwtService.recordJoinAction jwtId issuerDid claim w).
  { unfold JwtService.createEmbeddedClaimRecord. rewrite Hkind. reflexivity. }
  rewrite Hrun. unfold JwtService.recordJoinAction.
  run Hf. rewrite Hgiven. cbn [negb]. run Hf. rewrite Hevt. cbn [negb]. run Hf.
  split.
  - intros Hnone. rewrite Hnone. rewrite bind_bind.
    rewrite (bind_db_call_reliable _ _ _ Hf). cbn [Store.eventInsert fst snd].
    rewrite bind_resolve.
    rewrite bind_db_call_reliable by exact Hf.
    eexists _, _. repeat split.
  - intros event0 others Hsome. rewrite Hsome.
    assert (Hlog : ∀ B (k : unit → M B),
              bind (match others with
                    | [] => resolve tt
                    | _ :: _ => log (multipleEventsWarning orgName name startTime)
                    end) k w
              = k tt (match others with
                      | [] => w
                      | _ :: _ =>
                          with_logs (logs w ++ [multipleEventsWarning orgName name startTime]) w
                      end)).
    { intros B k. destruct others; reflexivity. }
    set (w1 := match others with
               | [] => w
               | _ :: _ =>
                   with_logs (logs w ++ [multipleEventsWarning orgName name startTime]) w
               end).
    assert (Hf1 : faults w1 = []) by (subst w1; destruct others; exact Hf).
    assert (Hdb1 : db w1 = db w) by (subst w1; destruct others; reflexivity).
    assert (Hwarn : others ≠ [] →
                    multipleEventsWarning orgName name startTime ∈ logs w1).
    { subst w1. destruct others; [congruence |]. intros _. simpl.
      apply elem_of_app. right. apply list_elem_of_singleton. reflexivity. }
    rewrite bind_bind. fold (multipleEventsWarning orgName name startTime).
    rewrite Hlog. fold w1. rewrite bind_bind.
    rewrite (bind_resolved _ _ _ _ _ (db_query_reliable _ _ Hf1)). rewrite Hdb1.
    destruct (Store.actionClaimIdByDidEventId agentDid (event_id event0) (db w))
      as [existing |] eqn:Hact.
    + assert (Hnz : existing ≠ 0%Z).
      { unfold Store.actionClaimIdByDidEventId in Hact.
        destruct (find _ _) as [a |] eqn:E; [| discriminate].
        injection Hact as <-. apply find_some in E as [Hin _].
        rewrite Forall_forall in Hids. apply Hids, list_elem_of_In, Hin. }
      cbn [from_option truthy default]. destruct (Z.eqb_spec existing 0); [contradiction |].
      cbn [negb]. rewrite bind_reject. cbn [fst snd].
      split; [exact Hwarn |]. split; [rewrite Hdb1; reflexivity |]. split.
      * intros existing' [= <-]. split; [reflexivity | rewrite Hdb1; reflexivity].
      * discriminate.
    + cbn [from_option truthy]. rewrite bind_resolve.
      rewrite bind_db_call_reliable by exact Hf1. cbn [Store.actionClaimInsert fst snd].
      cbn [with_db db with_actions events actions logs].
      split; [exact Hwarn |]. rewrite Hdb1. split; [reflexivity |]. split.
      * discriminate.
      * intros _. split; reflexivity.
Qed.

End JoinActions.

(** ** C5: visibility edges towards the issuer *)















Section IdentitiesKept.
Context `{Platform}.













(** The checks a registration claim has to pass let the submission through
    when the issuer is below the monthly maximum and was not registered this
    week. *)
Lemma registration_checks_pass {B} iss registered isRegistration w w1 (k : unit → M B) :
  faults w1 = [] → db w1 = db w →
  (isRegistration = true →
   (registrationsThisMonth iss w < effectiveMaxRegistrations registered)%Z
   ∧ JwtService.column_greater (registration_epoch registered)
       (startOfWeek (now w) `div` 1000) = false) →
  bind (if isRegistration then
          let! regCount :=
            db_query (Store.registrationCountByAfter iss
                        (startOfMonth (now w) `div` 1000)) in
          if Z.leb (unless_null (registration_maxRegs registered)
                      JwtService.DEFAULT_MAX_REGISTRATIONS_PER_MONTH) regCount then
            reject (ClientError
              ("You have already registered "
               +:+ pretty (unless_null (registration_maxRegs registered)
                             JwtService.DEFAULT_MAX_REGISTRATIONS_PER_MONTH)
               +:+ " this month. Contact an administrator for a higher limit.")
              OVER_REGISTRATION_LIMIT)
          else if JwtService.column_greater (registration_epoch registered)
                    (startOfWeek (now w) `div` 1000) then
            reject (ClientError
              "You cannot register others the same week you got registered."
              CANNOT_REGISTER_TOO_SOON)
          else resolve tt
        else resolve tt) k w1 = k tt w1.
Proof.
  intros Hf1 Hdb Hallowed. destruct isRegistration; [| reflexivity].
  destruct (Hallowed eq_refl) as [Hunder Hlate].
  rewrite bind_bind, (bind_resolved _ _ _ _ _ (db_query_reliable _ w1 Hf1)).
  rewrite Hdb.
  fold (registrationsThisMonth iss w). fold (effectiveMaxRegistrations registered).
  apply Z.leb_gt in Hunder. rewrite Hunder, Hlate. reflexivity.
Qed.


End IdentitiesKept.

(** * The theorems at work

    Each theorem with a premise is applied to the histories of [Scenario] and
    [Registry], where the definitions evaluate. *)





Lemma dave_presented :
  @presented Scenario.P "dave-join" VUndef Scenario.start
    (Reference.token Scenario.dave 1700000200 Scenario.meeting)
    (VStr Scenario.dave) Scenario.start.
Proof.
  split.
  - eexists. split; [vm_compute; reflexivity | reflexivity].
  - reflexivity.
  - discriminate.
Defined.

(** C8 at Dave's submission. *)
Lemma unregistered_issuer_rejected_witness :
  ∃ w',
    @JwtService.createWithClaimRecord Scenario.P "dave-join" VUndef Scenario.start
      = (Rejected (ClientError
           "You are not registered to make claims. Contact an existing user for help."
           UNREGISTERED_USER), w')
    ∧ db w' = db Scenario.start.
Proof.
  apply (@unregistered_issuer_rejected Scenario.P "dave-join" VUndef Scenario.start
           (Reference.token Scenario.dave 1700000200 Scenario.meeting)
           (VStr Scenario.dave) Scenario.start dave_presented).
  - reflexivity.
  - reflexivity.
Defined.

Lemma alice_presented :
  @presented Scenario.P "alice-join" VUndef Scenario.start
    (Reference.token Scenario.alice 1700000000 Scenario.meeting)
    (VStr Scenario.alice) Scenario.start.
Proof.
  split.
  - eexists. split; [vm_compute; reflexivity | reflexivity].
  - reflexivity.
  - discriminate.
Defined.

Lemma limited_presented :
  @presented RateLimitsAtZero.P "join" VUndef RateLimitsAtZero.noClaims
    (Reference.token "did:ethr:0xaaa" 1700000000
       (Reference.joinAction "did:ethr:0xccc" "Org" "Meeting" "2023-11-14T08:00:00Z"))
    (VStr "did:ethr:0xaaa") RateLimitsAtZero.noClaims.
Proof.
  split.
  - eexists. split; [vm_compute; reflexivity | reflexivity].
  - reflexivity.
  - discriminate.
Defined.

Lemma alice_note_presented :
  @presented Registry.P "alice-note" VUndef Registry.afterClaim
    (Reference.token Scenario.alice 1700000100 Cases.note)
    (VStr Scenario.alice) Registry.afterClaim.
Proof.
  split.
  - eexists. split; [vm_compute; reflexivity | reflexivity].
  - reflexivity.
  - discriminate.
Defined.

Lemma alice_again_presented :
  @presented Scenario.P "alice-join" VUndef Scenario.afterAlice
    (Reference.token Scenario.alice 1700000000 Scenario.meeting)
    (VStr Scenario.alice) Scenario.afterAlice.
Proof.
  split.
  - eexists. split; [vm_compute; reflexivity | reflexivity].
  - reflexivity.
  - discriminate.
Defined.

(** C7 at Alice with a maximum of one claim a week and one envelope issued
    this week, whose next claim is rejected; at an issuer whose maximum is 0;
    and at Alice with the default maximum and one envelope issued this week,
    who is below it. *)
Lemma weekly_limit_enforced_witness :
  (claimsThisWeek (VStr Scenario.alice) Registry.afterClaim = 1
   ∧ ∃ message w',
       @JwtService.createWithClaimRecord Registry.P "alice-note" VUndef
         Registry.afterClaim
         = (Rejected (ClientError message OVER_CLAIM_LIMIT), w')
       ∧ db w' = db Registry.afterClaim)
  ∧ (∃ message w',
       @JwtService.createWithClaimRecord RateLimitsAtZero.P "join" VUndef
         RateLimitsAtZero.noClaims
         = (Rejected (ClientError message OVER_CLAIM_LIMIT), w')
       ∧ db w' = db RateLimitsAtZero.noClaims)
  ∧ (claimsThisWeek (VStr Scenario.alice) Scenario.afterAlice = 1
     ∧ ¬ has_code OVER_CLAIM_LIMIT
           (@JwtService.createWithClaimRecord Scenario.P "alice-join" VUndef
              Scenario.afterAlice).1).
Proof.
  split; [| split].
  - split; [vm_compute; reflexivity |].
    apply (proj1 (@weekly_limit_enforced Registry.P "alice-note" VUndef
                    Registry.afterClaim _ _ _
                    (Reference.seeded 1 Scenario.alice None (Some 1%Z))
                    alice_note_presented
                    ltac:(vm_compute; reflexivity) ltac:(vm_compute; reflexivity))).
    vm_compute. discriminate.
  - apply (proj1 (@weekly_limit_enforced RateLimitsAtZero.P "join" VUndef
                    RateLimitsAtZero.noClaims _ _ _
                    (Reference.seeded 1 "did:ethr:0xaaa" None (Some 0%Z))
                    limited_presented eq_refl eq_refl)).
    vm_compute. discriminate.
  - split; [vm_compute; reflexivity |].
    apply (proj2 (@weekly_limit_enforced Scenario.P "alice-join" VUndef
                    Scenario.afterAlice _ _ _
                    (Reference.seeded 1 Scenario.alice None None)
                    alice_again_presented
                    ltac:(vm_compute; reflexivity) ltac:(vm_compute; reflexivity))).
    vm_compute. reflexivity.
Defined.

(** C1 on three envelopes, of which the second lacks a chain value and the
    third lacks its content hash as well. *)
Lemma chain_rebuilt_link_by_link_witness :
  Sorted Z.le (iac_id <$> MerkleStore.jwtClaimsAndIdsUnmerkled (db Scenario.unchained))
  ∧ ∃ results w',
      @JwtService.merkleUnmerkled Scenario.P Scenario.unchained = (Resolved results, w')
      ∧ ∀ n r,
          MerkleStore.jwtClaimsAndIdsUnmerkled (db Scenario.unchained) !! n = Some r →
          chainValue (db w') (iac_id r)
          = Some (@sha256_hex Scenario.P
                    (previousChain (seedOf (db Scenario.unchained))
                       (MerkleStore.jwtClaimsAndIdsUnmerkled (db Scenario.unchained))
                       (db w') n
                     +:+ @hashedClaimWithHashedDids Scenario.P r))
          ∧ contentHash (db w') (iac_id r)
            = Some (default (@hashedClaimWithHashedDids Scenario.P r) (iac_hashHex r))
          ∧ (iac_hashHex r = None →
             ∃ recomputed,
               contentHash (db w') (iac_id r) = Some recomputed
               ∧ chainValue (db w') (iac_id r)
                 = Some (@sha256_hex Scenario.P
                           (previousChain (seedOf (db Scenario.unchained))
                              (MerkleStore.jwtClaimsAndIdsUnmerkled (db Scenario.unchained))
                              (db w') n
                            +:+ recomputed))).
Proof.
  apply (@chain_rebuilt_link_by_link Scenario.P Scenario.unchained).
  - reflexivity.
  - apply (bool_decide_unpack _). vm_compute. exact I.
Defined.

(** C3 at Bob confirming Carol's attendance, which Alice recorded: nobody has
    confirmed it yet, and one confirmation row is written; and at Bob
    confirming it once more, which is rejected with the id of his
    confirmation and writes nothing. *)
Lemma one_confirmation_per_issuer_and_target_witness :
  (∃ confirmed row w',
     @JwtService.createOneConfirmation Scenario.P 2 (VStr Scenario.bob) Scenario.meeting
       Scenario.afterAlice = (Resolved confirmed, w')
     ∧ confirmations (db w') = (confirmations (db Scenario.afterAlice) ++ [row])%list
     ∧ confirmId confirmed = confirmation_id row
     ∧ confirmedBy (VStr Scenario.bob) (OfAction 1) row
     ∧ confirmation_jwtId row = 2%Z
     ∧ confirmation_origClaim row = @canonicalize Scenario.P Scenario.meeting
     ∧ Forall (λ c, (confirmation_id c < confirmation_id row)%Z)
              (confirmations (db Scenario.afterAlice)))
  ∧ (∃ existing text,
       existing ∈ confirmations (db Cases.afterAgree)
       ∧ confirmedBy (VStr Scenario.bob) (OfAction 1) existing
       ∧ @JwtService.createOneConfirmation Scenario.P 3 (VStr Scenario.bob)
           Scenario.meeting Cases.afterAgree
         = (Rejected (JsError (text +:+ pretty (confirmation_id existing))),
            Cases.afterAgree)).
Proof.
  split.
  - apply (proj2 (@one_confirmation_per_issuer_and_target Scenario.P 2
                    (VStr Scenario.bob) Scenario.meeting Scenario.meeting
                    Scenario.afterAlice (OfAction 1) eq_refl eq_refl
                    ltac:(eapply (@resolves_action Scenario.P);
                          vm_compute; reflexivity))).
    intros existing Hin. vm_compute in Hin. inversion Hin.
  - apply (proj1 (@one_confirmation_per_issuer_and_target Scenario.P 3
                    (VStr Scenario.bob) Scenario.meeting Scenario.meeting
                    Cases.afterAgree (OfAction 1)
                    ltac:(vm_compute; reflexivity) eq_refl
                    ltac:(eapply (@resolves_action Scenario.P);
                          vm_compute; reflexivity))).
    eexists. split.
    + apply list_elem_of_In. vm_compute. left. reflexivity.
    + split; reflexivity.
Defined.

Lemma carol_joins :
  @joinActionOf Scenario.P Scenario.meeting (VStr Scenario.carol) (VStr "Org")
    (VStr "Meeting") (VStr "2023-11-14T08:00:00Z").
Proof.
  split; [vm_compute; reflexivity | reflexivity | reflexivity
         | eexists _, _; repeat split; reflexivity].
Defined.

Lemma dave_joins :
  @joinActionOf Scenario.P
    (Reference.joinAction Scenario.dave "Org" "Meeting" "2023-11-14T08:00:00Z")
    (VStr Scenario.dave) (VStr "Org") (VStr "Meeting") (VStr "2023-11-14T08:00:00Z").
Proof.
  split; [vm_compute; reflexivity | reflexivity | reflexivity
         | eexists _, _; repeat split; reflexivity].
Defined.

(** The event Alice's claim has recorded. *)
Lemma meeting_recorded :
  Store.eventsByParams (VStr "Org") (VStr "Meeting") (VStr "2023-11-14T08:00:00Z")
    (db Scenario.afterAlice)
  = [{| event_id := 1; event_orgName := VStr "Org"; event_name := VStr "Meeting";
        event_startTime := VStr "2023-11-14T08:00:00Z" |}].
Proof. vm_compute. reflexivity. Defined.

(** C4 at Alice's claim on a store with no event yet; at Bob's claim of the
    same, which finds the event and Carol's action at it and is rejected;
    and at a claim that Dave joined the same meeting, which reuses the event
    and adds Dave's action. *)
Lemma join_action_dispatch_witness :
  (∃ w' event,
     @JwtService.createEmbeddedClaimRecord Scenario.P 1 (VStr Scenario.alice)
       Scenario.meeting Scenario.start = (Resolved tt, w')
     ∧ event = {| event_id := next_id event_id (events (db Scenario.start));
                  event_orgName := VStr "Org"; event_name := VStr "Meeting";
                  event_startTime := VStr "2023-11-14T08:00:00Z" |}
     ∧ events (db w') = (events (db Scenario.start) ++ [event])%list
     ∧ actions (db w')
       = (actions (db Scenario.start)
          ++ [recordedAction (VStr Scenario.alice) (VStr Scenario.carol) 1 event
                (db Scenario.start)])%list)
  ∧ (events (db (@JwtService.createEmbeddedClaimRecord Scenario.P 2
                   (VStr Scenario.bob) Scenario.meeting Scenario.afterAlice).2)
       = events (db Scenario.afterAlice)
     ∧ (@JwtService.createEmbeddedClaimRecord Scenario.P 2 (VStr Scenario.bob)
          Scenario.meeting Scenario.afterAlice).1
       = Rejected (JsError
           ("Same user attempted to record an action claim that already exists with ID "
            +:+ pretty 1%Z))
     ∧ actions (db (@JwtService.createEmbeddedClaimRecord Scenario.P 2
                      (VStr Scenario.bob) Scenario.meeting Scenario.afterAlice).2)
       = actions (db Scenario.afterAlice))
  ∧ (events (db (@JwtService.createEmbeddedClaimRecord Scenario.P 2
                   (VStr Scenario.bob)
                   (Reference.joinAction Scenario.dave "Org" "Meeting"
                      "2023-11-14T08:00:00Z") Scenario.afterAlice).2)
       = events (db Scenario.afterAlice)
     ∧ (@JwtService.createEmbeddedClaimRecord Scenario.P 2 (VStr Scenario.bob)
          (Reference.joinAction Scenario.dave "Org" "Meeting" "2023-11-14T08:00:00Z")
          Scenario.afterAlice).1 = Resolved tt
     ∧ length (actions (db (@JwtService.createEmbeddedClaimRecord Scenario.P 2
                              (VStr Scenario.bob)
                              (Reference.joinAction Scenario.dave "Org" "Meeting"
                                 "2023-11-14T08:00:00Z") Scenario.afterAlice).2))
       = 2%nat).
Proof.
  split; [| split].
  - apply (proj1 (@join_action_dispatch Scenario.P 1 (VStr Scenario.alice)
                    Scenario.meeting (VStr Scenario.carol) (VStr "Org") (VStr "Meeting")
                    (VStr "2023-11-14T08:00:00Z") Scenario.start eq_refl
                    ltac:(constructor) carol_joins)).
    reflexivity.
  - destruct (proj2 (@join_action_dispatch Scenario.P 2 (VStr Scenario.bob)
                       Scenario.meeting (VStr Scenario.carol) (VStr "Org")
                       (VStr "Meeting") (VStr "2023-11-14T08:00:00Z")
                       Scenario.afterAlice ltac:(vm_compute; reflexivity)
                       ltac:(vm_compute; repeat constructor; discriminate) carol_joins)
                _ _ meeting_recorded) as (_ & Hevents & Hexisting & _).
    split; [exact Hevents |]. apply (Hexisting 1%Z). vm_compute. reflexivity.
  - destruct (proj2 (@join_action_dispatch Scenario.P 2 (VStr Scenario.bob)
                       (Reference.joinAction Scenario.dave "Org" "Meeting"
                          "2023-11-14T08:00:00Z")
                       (VStr Scenario.dave) (VStr "Org")
                       (VStr "Meeting") (VStr "2023-11-14T08:00:00Z")
                       Scenario.afterAlice ltac:(vm_compute; reflexivity)
                       ltac:(vm_compute; repeat constructor; discriminate) dave_joins)
                _ _ meeting_recorded) as (_ & Hevents & _ & Hnew).
    split; [exact Hevents |].
    destruct (Hnew ltac:(vm_compute; reflexivity)) as [Hrun Hactions].
    split; [exact Hrun |]. rewrite Hactions. vm_compute. reflexivity.
Defined.

(** C6 at a requester who sees nobody, and at a requester who sees the
    agent. *)
Lemma byId_hides_agent_for_requester_witness :
  ((∃ returned w',
      @ActionServiceForRequester.byId Scenario.P 1 Scenario.bob HiddenAgent.nobodySees
        = (Resolved (Some returned), w')
      ∧ (action_agentDid HiddenAgent.action
           ∉ @visibleSet Scenario.P Scenario.bob HiddenAgent.nobodySees →
         action_agentDid returned = VStr (@HIDDEN_TEXT Scenario.P)
         ∧ action_id returned = action_id HiddenAgent.action
         ∧ action_jwtId returned = action_jwtId HiddenAgent.action
         ∧ action_issuerDid returned = action_issuerDid HiddenAgent.action
         ∧ action_eventRowId returned = action_eventRowId HiddenAgent.action
         ∧ action_eventOrgName returned = action_eventOrgName HiddenAgent.action
         ∧ action_eventName returned = action_eventName HiddenAgent.action
         ∧ action_eventStartTime returned = action_eventStartTime HiddenAgent.action)
      ∧ (∀ did, action_agentDid HiddenAgent.action = VStr did →
         VStr did ∈ @visibleSet Scenario.P Scenario.bob HiddenAgent.nobodySees →
         returned = HiddenAgent.action))
   ∧ ActionService.byId 1 HiddenAgent.nobodySees
     = (Resolved (Some HiddenAgent.action), HiddenAgent.nobodySees))
  ∧ (∃ returned w',
       @ActionServiceForRequester.byId Scenario.P 1 Scenario.bob HiddenAgent.agentSeen
         = (Resolved (Some returned), w')
       ∧ returned = HiddenAgent.action).
Proof.
  split.
  - apply (@byId_hides_agent_for_requester Scenario.P 1 Scenario.bob
             HiddenAgent.nobodySees HiddenAgent.action).
    + reflexivity.
    + reflexivity.
  - destruct (proj1 (@byId_hides_agent_for_requester Scenario.P 1 Scenario.bob
                       HiddenAgent.agentSeen HiddenAgent.action eq_refl eq_refl))
      as (returned & w' & Hrun & _ & Hseen).
    exists returned, w'. split; [exact Hrun |].
    apply (Hseen Scenario.carol eq_refl).
    apply list_elem_of_In. vm_compute. left. reflexivity.
Defined.

(** C10 at a person claim without a context, and at the same claim written
    with the context first. *)
Lemma missing_context_is_schema_org_witness :
  @JwtService.createOneConfirmation Scenario.P 2 (VStr Scenario.bob)
    (VObj Scenario.person)
  = @JwtService.createOneConfirmation Scenario.P 2 (VStr Scenario.bob)
      (VObj (("@context", VStr "https://schema.org") :: Scenario.person))
  ∧ JwtService.origClaimAfter (VObj Scenario.person)
    = VObj (Scenario.person ++ [("@context", VStr "https://schema.org")]).
Proof.
  pose proof (@missing_context_is_schema_org Scenario.P 2 (VStr Scenario.bob)
                Scenario.person eq_refl) as (_ & _ & Hafter & _ & Hwritten).
  split; [| exact Hafter].
  apply Hwritten.
  - intros k. simpl.
    destruct (String.eqb k "@context") eqn:E1; [| reflexivity].
    apply String.eqb_eq in E1. subst k. reflexivity.
  - vm_compute. reflexivity.
Defined.

(** * Further properties of the service *)

(** ** Relations kept throughout *)

Lemma same_db_refl w : same_db w w.
Proof. reflexivity. Qed.

Lemma same_db_trans a b c : same_db a b → same_db b c → same_db a c.
Proof. unfold same_db. congruence. Qed.

Lemma same_db_logs w l : same_db w (with_logs l w).
Proof. reflexivity. Qed.

Lemma same_db_faults w l : same_db w (with_faults l w).
Proof. reflexivity. Qed.

Ltac keeps_db :=
  repeat keeps_step same_db_refl same_db_trans same_db_logs
    ltac:(first [ apply (keeps_db_query _ same_db_faults)
                | apply (keeps_db_call _ same_db_faults); intros ? ?; reflexivity ]).

Lemma keeps_db_resolves_or {A} (m : M A) : keeps same_db m → resolves_or_keeps_db m.
Proof. intros Hm w. left. apply Hm. Qed.

Lemma resolves_or_after_keeping {A B} (m : M A) (k : A → M B) :
  keeps same_db m → (∀ a, resolves_or_keeps_db (k a)) →
  resolves_or_keeps_db (bind m k).
Proof.
  intros Hm Hk w. unfold bind. specialize (Hm w). unfold same_db in Hm.
  destruct (m w) as [[a | e] w']; simpl in *.
  - destruct (Hk a w') as [Hdb | Hres]; [left; congruence | right; exact Hres].
  - left. exact Hm.
Qed.

Ltac resolves_or_step :=
  lazymatch goal with
  | |- resolves_or_keeps_db (bind _ _) =>
      apply resolves_or_after_keeping; [solve [keeps_db] | intros ?]
  | |- resolves_or_keeps_db (reject _) =>
      apply keeps_db_resolves_or, (keeps_reject _ same_db_refl)
  | |- resolves_or_keeps_db (if ?b then _ else _) => destruct b
  | |- resolves_or_keeps_db (match ?x with _ => _ end) => destruct x
  end.

(** ** A rejected submission *)

Section RejectedSubmissions.
Context `{Platform}.

Lemma decodeAndVerifyJwt_keeps_db jwt :
  keeps same_db (JwtService.decodeAndVerifyJwt jwt).
Proof. intros w. apply (decodeAndVerifyJwt_only_logs jwt w). Qed.

Lemma buildJwtEntity_keeps_db payload claim claimStr claimEncoded jwtEncoded :
  keeps same_db
    (JwtService.buildJwtEntity payload claim claimStr claimEncoded jwtEncoded).
Proof. unfold JwtService.buildJwtEntity. keeps_db. intros w. reflexivity. Qed.

Lemma insert_then_records_resolves (jwtEntity : jwt_row) (issuerDid payloadClaim : value) :
  resolves_or_keeps_db
    (let! jwtRowId := db_call (Store.jwtInsert jwtEntity) in
     catch (JwtService.createEmbeddedClaimRecords (jwt_id jwtEntity) issuerDid
              payloadClaim)
           (λ err, log (LogRejection LWarn err
                          "Failed to create embedded claim records."));;
     resolve (jwt_id jwtEntity)).
Proof.
  intros w.
  destruct (db_call_cases (Store.jwtInsert jwtEntity) w) as [[rest E] | [rest E]].
  - rewrite (bind_rejected _ _ _ _ _ E). right. right. reflexivity.
  - cbn [Store.jwtInsert fst snd] in E. rewrite (bind_resolved _ _ _ _ _ E).
    right. left. exists (jwt_id jwtEntity). unfold bind, catch.
    destruct (JwtService.createEmbeddedClaimRecords _ _ _ _) as [[[] | e] w3];
      reflexivity.
Qed.

(** X1. A submission that ends in a rejection other than a failure of the
    store has left every table as it was: whatever turns a submission away
    (the verification, the issuer cross-check, the registration and the
    limits, a missing claim, a payload or claim that cannot be read) does so
    before the first statement that writes. *)
Theorem rejected_submission_changes_no_table jwtEncoded authIssuerId w e :
  (JwtService.createWithClaimRecord jwtEncoded authIssuerId w).1 = Rejected e →
  e ≠ StoreError →
  db (JwtService.createWithClaimRecord jwtEncoded authIssuerId w).2 = db w.
Proof.
  intros Hrej Hstore.
  assert (Hall : resolves_or_keeps_db
                   (JwtService.createWithClaimRecord jwtEncoded authIssuerId)).
  { unfold JwtService.createWithClaimRecord.
    apply resolves_or_after_keeping; [apply decodeAndVerifyJwt_keeps_db |].
    intros verified. repeat resolves_or_step.
    all: cbv zeta.
    all: apply resolves_or_after_keeping; [apply buildJwtEntity_keeps_db |].
    all: intros jwtEntity; apply insert_then_records_resolves. }
  destruct (Hall w) as [Hdb | [[a Ha] | Hfailed]]; [exact Hdb | congruence |].
  rewrite Hrej in Hfailed. injection Hfailed as ->. contradiction.
Qed.

End RejectedSubmissions.

(** X1 at Dave's submission, which is rejected for want of a registration. *)
Lemma rejected_submission_changes_no_table_witness :
  (@JwtService.createWithClaimRecord Scenario.P "dave-join" VUndef Scenario.start).1
    = Rejected (ClientError
        "You are not registered to make claims. Contact an existing user for help."
        UNREGISTERED_USER)
  ∧ db (@JwtService.createWithClaimRecord Scenario.P "dave-join" VUndef
          Scenario.start).2
    = db Scenario.start.
Proof.
  split; [vm_compute; reflexivity |].
  apply (@rejected_submission_changes_no_table Scenario.P "dave-join" VUndef
           Scenario.start
           (ClientError
              "You are not registered to make claims. Contact an existing user for help."
              UNREGISTERED_USER)).
  - vm_compute. reflexivity.
  - discriminate.
Defined.

(** ** Token verification *)

Lemma has_code_bind_inv code {A B} (m : M A) (k : A → M B) w :
  has_code code (bind m k w).1 →
  has_code code (m w).1 ∨ ∃ a w', m w = (Resolved a, w') ∧ has_code code (k a w').1.
Proof.
  unfold bind. destruct (m w) as [[a | e] w'] eqn:E; simpl; intros Hc.
  - right. eauto.
  - left. destruct Hc as [message Hc]. exists message. congruence.
Qed.

Lemma lookup_update_other k k' v props :
  k ≠ k' → lookup_prop k (update_prop k' v props) = lookup_prop k props.
Proof.
  intros Hk. induction props as [| [k0 v0] props IH]; simpl.
  - destruct (String.eqb_spec k k'); [contradiction | reflexivity].
  - destruct (String.eqb_spec k' k0) as [-> | Hk0]; simpl.
    + destruct (String.eqb_spec k k0); [contradiction | reflexivity].
    + destruct (String.eqb_spec k k0); [reflexivity | exact IH].
Qed.

Ltac never_code_more :=
  repeat first
    [ never_code_step
    | apply never_code_settle;
      repeat first [ apply and_then_throws_only | apply omap_outcome_throws_only
                   | apply get_throws_only | apply path_throws_only
                   | intros ? ?; discriminate ]
    | apply never_code_db_call; intros ?; eexists; reflexivity
    | apply never_code_swallowed; intros ? ?; eexists; reflexivity
    | solve [intros ? [? ?]; discriminate]
    | progress cbv zeta ].

Section Verification.
Context `{Platform}.

(** X2. Outside test mode a submission ends in JWT_VERIFY_FAILED exactly
    when the verification of its token fails; it is then rejected with the
    verifier's reason in the message, and the world is left as it was. *)
Theorem verification_failure_rejected jwtEncoded authIssuerId w :
  NODE_ENV ≠ "test-local" →
  (has_code JWT_VERIFY_FAILED
     (JwtService.createWithClaimRecord jwtEncoded authIssuerId w).1
   ↔ ∃ reason, verifyJWT jwtEncoded (now w) = inl reason)
  ∧ ∀ reason,
      verifyJWT jwtEncoded (now w) = inl reason →
      JwtService.createWithClaimRecord jwtEncoded authIssuerId w
      = (Rejected (ClientError ("JWT failed verification: " +:+ reason)
                               JWT_VERIFY_FAILED), w).
Proof.
  intros Hmode.
  assert (Hfail : ∀ reason,
             verifyJWT jwtEncoded (now w) = inl reason →
             JwtService.createWithClaimRecord jwtEncoded authIssuerId w
             = (Rejected (ClientError ("JWT failed verification: " +:+ reason)
                                      JWT_VERIFY_FAILED), w)).
  { intros reason Hv.
    unfold JwtService.createWithClaimRecord, JwtService.decodeAndVerifyJwt.
    destruct (String.eqb_spec NODE_ENV "test-local"); [contradiction |].
    unfold bind at 1. unfold bind at 1. simpl. rewrite Hv. reflexivity. }
  split; [| exact Hfail].
  split.
  - intros Hcode. unfold JwtService.createWithClaimRecord in Hcode.
    apply has_code_bind_inv in Hcode as [Hdec | (verified & w' & _ & Hrest)].
    + unfold JwtService.decodeAndVerifyJwt in Hdec.
      destruct (String.eqb_spec NODE_ENV "test-local"); [contradiction |].
      unfold bind in Hdec. simpl in Hdec.
      destruct (verifyJWT jwtEncoded (now w)) as [reason | verified]; [eauto |].
      destruct Hdec as [message Hdec]. discriminate.
    + exfalso. cbv beta in Hrest. revert Hrest.
      lazymatch goal with
      | |- has_code ?c (fst (?m ?w)) → False =>
          cut (never_code c m); [intros Hn; apply Hn |]
      end.
      repeat first
        [ apply extractClaim_throws_only
        | apply isEndorserRegistrationClaim_throws_only
        | apply buildJwtEntity_never_code
        | never_code_more ].
  - intros [reason Hv]. rewrite (Hfail reason Hv). eexists. reflexivity.
Qed.

(** X3. In test mode no signature is checked: a token whose payload decodes
    to an object is accepted as it is, unless its [exp] lies before the
    present second, in which case a warning is logged and [exp] is set to a
    hundred seconds from now; a payload without [exp] is not taken for
    expired.  The issuer reported is the payload's [iss]. *)
Theorem test_mode_extends_expiry jwt w props :
  NODE_ENV = "test-local" →
  decode_payload jwt = Resolved (VObj props) →
  (JwtService.less_than (lookup_prop "exp" props) (now w `div` 1000) = true →
   JwtService.decodeAndVerifyJwt jwt w
   = (Resolved
        (VObj [("payload",
                VObj (update_prop "exp" (VNum (now w `div` 1000 + 100)) props));
               ("issuer", lookup_prop "iss" props);
               ("header", VObj [("typ", VStr "test")])]),
      with_logs
        (logs w ++ [Log LWarn ("JWT with exp " +:+ js_string (lookup_prop "exp" props)
                               +:+ " has expired but we're in test mode so using a new time.")])
        w))
  ∧ (JwtService.less_than (lookup_prop "exp" props) (now w `div` 1000) = false →
     JwtService.decodeAndVerifyJwt jwt w
     = (Resolved (VObj [("payload", VObj props);
                        ("issuer", lookup_prop "iss" props);
                        ("header", VObj [("typ", VStr "test")])]), w))
  ∧ (lookup_prop "exp" props = VUndef →
     JwtService.less_than (lookup_prop "exp" props) (now w `div` 1000) = false).
Proof.
  intros Hmode Hdecode.
  unfold JwtService.decodeAndVerifyJwt. rewrite Hmode, String.eqb_refl, Hdecode.
  repeat split.
  - intros Hexp. unfold bind, settle, clock, log. simpl. rewrite Hexp. simpl.
    rewrite lookup_update_other by discriminate. reflexivity.
  - intros Hexp. unfold bind, settle, clock. simpl. rewrite Hexp. reflexivity.
  - intros ->. reflexivity.
Qed.

(** X4. When the caller declares an issuer and the token's [iss] is not that
    very value, the submission is rejected with a bare string naming both,
    before the store is asked anything: nothing but the log of the
    verification has changed. *)
Theorem issuer_mismatch_rejected jwtEncoded authIssuerId w verified payload iss w1 :
  JwtService.decodeAndVerifyJwt jwtEncoded w = (Resolved verified, w1) →
  get verified "payload" = Resolved payload →
  get payload "iss" = Resolved iss →
  truthy authIssuerId = true →
  strict_equal iss authIssuerId = false →
  JwtService.createWithClaimRecord jwtEncoded authIssuerId w
  = (Rejected (RejectedString ("JWT issuer " +:+ js_string authIssuerId
                               +:+ " does not match claim issuer " +:+ js_string iss)),
     w1)
  ∧ only_logs w w1.
Proof.
  intros Hdec Hpayload Hiss Hauth Hne. split.
  - unfold JwtService.createWithClaimRecord.
    rewrite (bind_resolved _ _ _ _ _ Hdec), (bind_settle _ _ _ _ Hpayload).
    rewrite Hiss, Hauth. simpl. rewrite Hne. reflexivity.
  - pose proof (decodeAndVerifyJwt_only_logs jwtEncoded w) as Hk.
    rewrite Hdec in Hk. exact Hk.
Qed.

End Verification.

(** X2 at a token the verifier does not know. *)
Lemma verification_failure_rejected_witness :
  @JwtService.createWithClaimRecord (Production.platform Scenario.tokens) "forged"
    VUndef Scenario.start
  = (Rejected (ClientError "JWT failed verification: Error: Signature invalid for JWT"
                           JWT_VERIFY_FAILED), Scenario.start).
Proof.
  apply (proj2 (@verification_failure_rejected (Production.platform Scenario.tokens)
                  "forged" VUndef Scenario.start ltac:(vm_compute; discriminate))).
  reflexivity.
Defined.

(** X3 at a token that expired in 2020 and at a token without [exp]. *)
Lemma test_mode_extends_expiry_witness :
  (∃ payload,
     (@JwtService.decodeAndVerifyJwt Cases.P "expired" Scenario.start).1
       = Resolved (VObj [("payload", payload); ("issuer", VStr Scenario.alice);
                         ("header", VObj [("typ", VStr "test")])])
     ∧ get payload "exp" = Resolved (VNum 1700000600))
  ∧ @JwtService.decodeAndVerifyJwt Cases.P "no-exp" Scenario.start
    = (Resolved (VObj [("payload",
                        VObj [("iss", VStr Scenario.alice);
                              ("claim", Scenario.meeting)]);
                       ("issuer", VStr Scenario.alice);
                       ("header", VObj [("typ", VStr "test")])]), Scenario.start).
Proof.
  split.
  - eexists. split.
    + rewrite (proj1 (@test_mode_extends_expiry Cases.P "expired" Scenario.start _
                        eq_refl eq_refl) eq_refl).
      reflexivity.
    + reflexivity.
  - apply (proj1 (proj2 (@test_mode_extends_expiry Cases.P "no-exp" Scenario.start _
                           eq_refl eq_refl))).
    reflexivity.
Defined.

(** X4 at Alice's token handed in under Bob's name. *)
Lemma issuer_mismatch_rejected_witness :
  (@JwtService.createWithClaimRecord Scenario.P "alice-join" (VStr Scenario.bob)
     Scenario.start).1
  = Rejected (RejectedString
      "JWT issuer 'did:ethr:0xbbb' does not match claim issuer 'did:ethr:0xaaa'").
Proof.
  rewrite (proj1 (@issuer_mismatch_rejected Scenario.P "alice-join" (VStr Scenario.bob)
                    Scenario.start _ _ (VStr Scenario.alice) Scenario.start
                    ltac:(vm_compute; reflexivity) eq_refl eq_refl eq_refl eq_refl)).
  reflexivity.
Defined.

(** ** A reliable store stays reliable *)

Lemma stays_reliable_refl w : stays_reliable w w.
Proof. intros Hf. exact Hf. Qed.

Lemma stays_reliable_trans a b c :
  stays_reliable a b → stays_reliable b c → stays_reliable a c.
Proof. unfold stays_reliable. auto. Qed.

Lemma stays_reliable_logs w l : stays_reliable w (with_logs l w).
Proof. intros Hf. exact Hf. Qed.

Lemma db_call_stays_reliable {A} (q : Db → outcome A * Db) :
  keeps stays_reliable (db_call q).
Proof. intros w Hf. unfold db_call. rewrite Hf. exact Hf. Qed.

Ltac keeps_reliable :=
  repeat first
    [ keeps_step stays_reliable_refl stays_reliable_trans stays_reliable_logs
        ltac:(apply db_call_stays_reliable)
    | progress cbv beta zeta
    | solve [intros ? Hf; exact Hf] ].

Ltac unfold_records :=
  unfold JwtService.createEmbeddedClaimRecords, JwtService.createEmbeddedClaimRecord,
    JwtService.confirmEach, JwtService.caught, JwtService.createOneConfirmation,
    JwtService.confirmOne, JwtService.recordJoinAction, JwtService.recordOrgRole,
    JwtService.recordRegistration, JwtService.recordTenure, JwtService.recordVote,
    Network.addCanSee.

(** ** The checks between the weekly limit and the insert *)

Section Checks.
Context `{Platform}.

Lemma get_resolves o k v k' : get o k = Resolved v → ∃ v', get o k' = Resolved v'.
Proof. destruct o; simpl; intros; try discriminate; eauto. Qed.

Lemma truthy_get c k : truthy c = true → ∃ v, get c k = Resolved v.
Proof. destruct c; simpl; intros; try discriminate; eauto. Qed.

Lemma createEmbeddedClaimRecords_stays_reliable jwtId issuerDid claim :
  keeps stays_reliable (JwtService.createEmbeddedClaimRecords jwtId issuerDid claim).
Proof. unfold_records. keeps_reliable. Qed.

(** X5. A submission without a claim is turned away only after the
    registration check and the weekly check have passed: it is then rejected
    with a bare string, a warning is logged, and no table has changed. *)
Theorem claimless_submission_rejected jwtEncoded authIssuerId w payload iss w1
    registered payloadClaim :
  cleared jwtEncoded authIssuerId w payload iss w1 registered payloadClaim →
  truthy payloadClaim = false →
  JwtService.createWithClaimRecord jwtEncoded authIssuerId w
  = (Rejected (RejectedString "JWT had no 'claim' property."),
     with_logs (logs w1 ++ [Log LWarn "JwtService JWT received without a claim."]) w1)
  ∧ db w1 = db w.
Proof.
  intros Hc Hnone. pass_checks Hc iss w w1 registered.
  rewrite Hnone. split; reflexivity.
Qed.

(** X6. A registration claim from an issuer who has reached the monthly
    maximum is rejected with OVER_REGISTRATION_LIMIT; below the maximum, one
    from an issuer whose own registration epoch lies after the start of the
    week is rejected with CANNOT_REGISTER_TOO_SOON.  Neither changes a
    table. *)
Theorem registration_limits_enforced jwtEncoded authIssuerId w payload iss w1
    registered payloadClaim :
  cleared jwtEncoded authIssuerId w payload iss w1 registered payloadClaim →
  truthy payloadClaim = true →
  JwtService.isEndorserRegistrationClaim payloadClaim = Resolved true →
  ((effectiveMaxRegistrations registered ≤ registrationsThisMonth iss w)%Z →
   JwtService.createWithClaimRecord jwtEncoded authIssuerId w
   = (Rejected (ClientError
        ("You have already registered " +:+ pretty (effectiveMaxRegistrations registered)
         +:+ " this month. Contact an administrator for a higher limit.")
        OVER_REGISTRATION_LIMIT), w1))
  ∧ ((registrationsThisMonth iss w < effectiveMaxRegistrations registered)%Z →
     JwtService.column_greater (registration_epoch registered)
       (startOfWeek (now w) `div` 1000) = true →
     JwtService.createWithClaimRecord jwtEncoded authIssuerId w
     = (Rejected (ClientError
          "You cannot register others the same week you got registered."
          CANNOT_REGISTER_TOO_SOON), w1))
  ∧ db w1 = db w.
Proof.
  intros Hc Hsome Hisreg. pass_checks Hc iss w w1 registered.
  rewrite Hsome, (bind_settle _ _ _ _ Hisreg).
  rewrite bind_bind, (bind_resolved _ _ _ _ _ (db_query_reliable _ w1 Hf1)).
  rewrite Hdb.
  fold (registrationsThisMonth iss w). fold (effectiveMaxRegistrations registered).
  repeat split.
  - intros Hover. apply Z.leb_le in Hover. rewrite Hover. reflexivity.
  - intros Hunder Hsoon. apply Z.leb_gt in Hunder. rewrite Hunder, Hsoon. reflexivity.
Qed.

Lemma find_fresh_last (rows : list jwt_row) (row : jwt_row) :
  Forall (λ r, (jwt_id r < jwt_id row)%Z) rows →
  find (λ r, Z.eqb (jwt_id r) (jwt_id row)) (rows ++ [row])%list = Some row.
Proof.
  induction 1 as [| r rows Hr _ IH]; simpl.
  - rewrite Z.eqb_refl. reflexivity.
  - destruct (Z.eqb_spec (jwt_id r) (jwt_id row)); [lia | exact IH].
Qed.

Lemma records_swallowed jwtId issuerDid payloadClaim (id : Z) w2 :
  ∃ w3,
    (catch (JwtService.createEmbeddedClaimRecords jwtId issuerDid payloadClaim)
           (λ err, log (LogRejection LWarn err
                          "Failed to create embedded claim records."));;
     resolve id) w2 = (Resolved id, w3)
    ∧ same_jwts w2 w3 ∧ stays_reliable w2 w3.
Proof.
  pose proof (createEmbeddedClaimRecords_keeps_jwts jwtId issuerDid payloadClaim w2)
    as Hj.
  pose proof (createEmbeddedClaimRecords_stays_reliable jwtId issuerDid payloadClaim w2)
    as Hr.
  unfold bind, catch.
  destruct (JwtService.createEmbeddedClaimRecords _ _ _ w2) as [[[] | e] w3];
    simpl in *; eexists; (split; [reflexivity |]); split; assumption.
Qed.

Lemma accepted_submission jwtEncoded authIssuerId w payload iss w1 registered
    payloadClaim isRegistration :
  cleared jwtEncoded authIssuerId w payload iss w1 registered payloadClaim →
  truthy payloadClaim = true →
  JwtService.isEndorserRegistrationClaim payloadClaim = Resolved isRegistration →
  (isRegistration = true →
   (registrationsThisMonth iss w < effectiveMaxRegistrations registered)%Z
   ∧ JwtService.column_greater (registration_epoch registered)
       (startOfWeek (now w) `div` 1000) = false) →
  ∃ row w',
    JwtService.createWithClaimRecord jwtEncoded authIssuerId w
      = (Resolved (jwt_id row), w')
    ∧ jwts (db w') = (jwts (db w) ++ [row])%list
    ∧ jwt_id row = next_id jwt_id (jwts (db w))
    ∧ jwt_issuer row = iss
    ∧ jwt_claim row = canonicalize payloadClaim
    ∧ jwt_claimEncoded row = base64url_encode (canonicalize payloadClaim)
    ∧ jwt_jwtEncoded row = jwtEncoded
    ∧ jwt_hashChainHex row = None
    ∧ faults w' = [].
Proof.
  intros Hc Hsome Hisreg Hallowed. pass_checks Hc iss w w1 registered.
  rewrite Hsome, (bind_settle _ _ _ _ Hisreg).
  rewrite (registration_checks_pass _ _ _ _ _ _ Hf1 Hdb Hallowed). cbv zeta.
  destruct (get_resolves _ _ _ "iat" Hiss) as [issuedAt Hiat].
  destruct (get_resolves _ _ _ "sub" Hiss) as [subject Hsub].
  destruct (truthy_get _ "@context" Hsome) as [claimContext Hcontext].
  destruct (truthy_get _ "@type" Hsome) as [claimType Htype].
  unfold JwtService.buildJwtEntity.
  rewrite bind_bind, (bind_settle _ _ _ _ Hiat), bind_bind, (bind_settle _ _ _ _ Hiss),
    bind_bind, (bind_settle _ _ _ _ Hsub), bind_bind, (bind_settle _ _ _ _ Hcontext),
    bind_bind, (bind_settle _ _ _ _ Htype).
  unfold bind at 1. cbv beta iota zeta. rewrite Hdb.
  rewrite (bind_db_call_reliable _ _ _ Hf1). cbn [Store.jwtInsert fst snd].
  match goal with
  | |- context [resolve (jwt_id ?r)] => set (row := r)
  end.
  match goal with
  | |- context [with_db ?d w1] => set (w2 := with_db d w1)
  end.
  destruct (records_swallowed (jwt_id row) iss payloadClaim (jwt_id row) w2)
    as (w3 & Hrun & Hjwts & Hrel).
  exists row, w3. split; [exact Hrun |].
  unfold same_jwts in Hjwts. rewrite Hjwts. subst w2. simpl. rewrite Hdb.
  repeat split. exact (Hrel Hf1).
Qed.

(** X7. A submission that has passed the weekly check with a claim, and,
    when the claim is a registration, the monthly check and the
    same-week check, is stored: the call resolves to a new id, larger than
    every id stored, and the envelope table has grown by the one row with
    that id, which holds the issuer, the canonical claim, its encoding and
    the token, and no chain value yet. *)
Theorem accepted_submission_stored jwtEncoded authIssuerId w payload iss w1 registered
    payloadClaim isRegistration :
  cleared jwtEncoded authIssuerId w payload iss w1 registered payloadClaim →
  truthy payloadClaim = true →
  JwtService.isEndorserRegistrationClaim payloadClaim = Resolved isRegistration →
  (isRegistration = true →
   (registrationsThisMonth iss w < effectiveMaxRegistrations registered)%Z
   ∧ JwtService.column_greater (registration_epoch registered)
       (startOfWeek (now w) `div` 1000) = false) →
  ∃ row w',
    JwtService.createWithClaimRecord jwtEncoded authIssuerId w
      = (Resolved (jwt_id row), w')
    ∧ jwts (db w') = (jwts (db w) ++ [row])%list
    ∧ Forall (λ r, (jwt_id r < jwt_id row)%Z) (jwts (db w))
    ∧ jwt_issuer row = iss
    ∧ jwt_claim row = canonicalize payloadClaim
    ∧ jwt_claimEncoded row = base64url_encode (canonicalize payloadClaim)
    ∧ jwt_jwtEncoded row = jwtEncoded
    ∧ jwt_hashChainHex row = None.
Proof.
  intros Hc Hsome Hisreg Hallowed.
  destruct (accepted_submission _ _ _ _ _ _ _ _ _ Hc Hsome Hisreg Hallowed)
    as (row & w' & Hrun & Hjwts & Hid & Hissuer & Hclaim & Henc & Htoken & Hchain & _).
  exists row, w'. repeat (split; [assumption |]).
  split; [rewrite Hid; apply next_id_above |].
  repeat (split; [assumption |]). assumption.
Qed.

(** X8. What a submission stores can be read back under the id it returned:
    [byId] yields the issuer and the parsed canonical claim without the
    encodings, and [fullJwtById] yields the whole row, the token included. *)
Theorem accepted_submission_read_back jwtEncoded authIssuerId w payload iss w1
    registered payloadClaim isRegistration requesterDid :
  cleared jwtEncoded authIssuerId w payload iss w1 registered payloadClaim →
  truthy payloadClaim = true →
  JwtService.isEndorserRegistrationClaim payloadClaim = Resolved isRegistration →
  (isRegistration = true →
   (registrationsThisMonth iss w < effectiveMaxRegistrations registered)%Z
   ∧ JwtService.column_greater (registration_epoch registered)
       (startOfWeek (now w) `div` 1000) = false) →
  ∃ id w' read full,
    JwtService.createWithClaimRecord jwtEncoded authIssuerId w = (Resolved id, w')
    ∧ JwtService.byId id requesterDid w' = (Resolved (Some read), w')
    ∧ summary_id read = id
    ∧ summary_issuer read = iss
    ∧ summary_claim read = JSON_parse (canonicalize payloadClaim)
    ∧ JwtService.fullJwtById id requesterDid w' = (Resolved (Some full), w')
    ∧ jwt_id full = id
    ∧ jwt_jwtEncoded full = jwtEncoded.
Proof.
  intros Hc Hsome Hisreg Hallowed.
  destruct (accepted_submission _ _ _ _ _ _ _ _ _ Hc Hsome Hisreg Hallowed)
    as (row & w' & Hrun & Hjwts & Hid & Hissuer & Hclaim & Henc & Htoken & Hchain & Hf').
  assert (Hfind : Store.jwtById (jwt_id row) (db w') = Some row).
  { unfold Store.jwtById. rewrite Hjwts. apply find_fresh_last.
    rewrite Hid. apply next_id_above. }
  exists (jwt_id row), w', (JwtService.summary row), row.
  split; [exact Hrun |].
  unfold JwtService.byId, JwtService.fullJwtById.
  rewrite !(bind_resolved _ _ _ _ _ (db_query_reliable _ w' Hf')), Hfind.
  repeat split; simpl; congruence.
Qed.

End Checks.

Lemma claimless_cleared :
  @cleared Cases.P "no-claim" VUndef Scenario.start
    (VObj [("iat", VNum 1700000000); ("exp", VNum 2700000000);
           ("iss", VStr Scenario.alice)])
    (VStr Scenario.alice) Scenario.start
    (Reference.seeded 1 Scenario.alice None None) VNull.
Proof.
  split.
  - split.
    + eexists. split; [vm_compute; reflexivity | reflexivity].
    + reflexivity.
    + discriminate.
  - reflexivity.
  - vm_compute. reflexivity.
  - vm_compute. reflexivity.
  - vm_compute. reflexivity.
Defined.

(** X5 at a token of Alice's that carries no claim. *)
Lemma claimless_submission_rejected_witness :
  @JwtService.createWithClaimRecord Cases.P "no-claim" VUndef Scenario.start
  = (Rejected (RejectedString "JWT had no 'claim' property."),
     with_logs (logs Scenario.start
                ++ [Log LWarn "JwtService JWT received without a claim."])
       Scenario.start)
  ∧ db Scenario.start = db Scenario.start.
Proof.
  apply (@claimless_submission_rejected Cases.P _ _ _ _ _ _ _ _ claimless_cleared).
  reflexivity.
Defined.

Lemma registering_cleared :
  @cleared RateLimitsAtZero.P "register" VUndef RateLimitsAtZero.noRegistrations
    (Reference.token "did:ethr:0xaaa" 1700000000 RateLimitsAtZero.registerAction)
    (VStr "did:ethr:0xaaa") RateLimitsAtZero.noRegistrations
    (Reference.seeded 1 "did:ethr:0xaaa" (Some 0%Z) None)
    RateLimitsAtZero.registerAction.
Proof.
  split.
  - split.
    + eexists. split; [vm_compute; reflexivity | reflexivity].
    + reflexivity.
    + discriminate.
  - reflexivity.
  - vm_compute. reflexivity.
  - vm_compute. reflexivity.
  - vm_compute. reflexivity.
Defined.

Lemma alice_registering_cleared :
  @cleared Registry.P "alice-registers-dave" VUndef Registry.afterCarol
    (Reference.token Scenario.alice 1700003600
       (Registry.register Scenario.alice Scenario.dave))
    (VStr Scenario.alice) Registry.afterCarol
    (Reference.seeded 1 Scenario.alice (Some 1%Z) None)
    (Registry.register Scenario.alice Scenario.dave).
Proof.
  split.
  - split.
    + eexists. split; [vm_compute; reflexivity | reflexivity].
    + reflexivity.
    + discriminate.
  - vm_compute. reflexivity.
  - vm_compute. reflexivity.
  - vm_compute. reflexivity.
  - vm_compute. reflexivity.
Defined.

Lemma carol_registering_cleared :
  @cleared Registry.P "carol-registers-dave" VUndef Registry.afterCarol
    (Reference.token Scenario.carol 1700003600
       (Registry.register Scenario.carol Scenario.dave))
    (VStr Scenario.carol) Registry.afterCarol Registry.carolsRegistration
    (Registry.register Scenario.carol Scenario.dave).
Proof.
  split.
  - split.
    + eexists. split; [vm_compute; reflexivity | reflexivity].
    + reflexivity.
    + discriminate.
  - vm_compute. reflexivity.
  - vm_compute. reflexivity.
  - vm_compute. reflexivity.
  - vm_compute. reflexivity.
Defined.

(** X6 at Alice, who may register one identity a month and has registered
    Carol an hour ago; at an issuer whose monthly maximum is 0; and at Carol,
    who has registered nobody and was registered this week. *)
Lemma registration_limits_enforced_witness :
  (@registrationsThisMonth Registry.P (VStr Scenario.alice) Registry.afterCarol = 1
   ∧ @JwtService.createWithClaimRecord Registry.P "alice-registers-dave" VUndef
       Registry.afterCarol
     = (Rejected (ClientError
          "You have already registered 1 this month. Contact an administrator for a higher limit."
          OVER_REGISTRATION_LIMIT), Registry.afterCarol))
  ∧ @JwtService.createWithClaimRecord RateLimitsAtZero.P "register" VUndef
      RateLimitsAtZero.noRegistrations
    = (Rejected (ClientError
         "You have already registered 0 this month. Contact an administrator for a higher limit."
         OVER_REGISTRATION_LIMIT), RateLimitsAtZero.noRegistrations)
  ∧ (@registrationsThisMonth Registry.P (VStr Scenario.carol) Registry.afterCarol = 0
     ∧ registration_epoch Registry.carolsRegistration = Some 1700000500
     ∧ startOfWeek (now Registry.afterCarol) `div` 1000 = 1699833600
     ∧ @JwtService.createWithClaimRecord Registry.P "carol-registers-dave" VUndef
         Registry.afterCarol
       = (Rejected (ClientError
            "You cannot register others the same week you got registered."
            CANNOT_REGISTER_TOO_SOON), Registry.afterCarol)).
Proof.
  split; [| split].
  - split; [vm_compute; reflexivity |].
    apply (proj1 (@registration_limits_enforced Registry.P _ _ _ _ _ _ _ _
                    alice_registering_cleared eq_refl eq_refl)).
    vm_compute. discriminate.
  - apply (proj1 (@registration_limits_enforced RateLimitsAtZero.P _ _ _ _ _ _ _ _
                    registering_cleared eq_refl eq_refl)).
    vm_compute. discriminate.
  - split; [vm_compute; reflexivity |].
    split; [reflexivity |]. split; [vm_compute; reflexivity |].
    apply (proj1 (proj2 (@registration_limits_enforced Registry.P _ _ _ _ _ _ _ _
                           carol_registering_cleared eq_refl eq_refl))).
    + vm_compute. reflexivity.
    + vm_compute. reflexivity.
Defined.

Lemma alice_cleared :
  @cleared Scenario.P "alice-join" VUndef Scenario.start
    (Reference.token Scenario.alice 1700000000 Scenario.meeting)
    (VStr Scenario.alice) Scenario.start
    (Reference.seeded 1 Scenario.alice None None) Scenario.meeting.
Proof.
  split.
  - split.
    + eexists. split; [vm_compute; reflexivity | reflexivity].
    + reflexivity.
    + discriminate.
  - reflexivity.
  - vm_compute. reflexivity.
  - vm_compute. reflexivity.
  - vm_compute. reflexivity.
Defined.

(** X7 at Alice's submission. *)
Lemma accepted_submission_stored_witness :
  ∃ row w',
    @JwtService.createWithClaimRecord Scenario.P "alice-join" VUndef Scenario.start
      = (Resolved (jwt_id row), w')
    ∧ jwts (db w') = (jwts (db Scenario.start) ++ [row])%list
    ∧ Forall (λ r, (jwt_id r < jwt_id row)%Z) (jwts (db Scenario.start))
    ∧ jwt_issuer row = VStr Scenario.alice
    ∧ jwt_claim row = @canonicalize Scenario.P Scenario.meeting
    ∧ jwt_claimEncoded row
      = @base64url_encode Scenario.P (@canonicalize Scenario.P Scenario.meeting)
    ∧ jwt_jwtEncoded row = "alice-join"
    ∧ jwt_hashChainHex row = None.
Proof.
  apply (@accepted_submission_stored Scenario.P _ _ _ _ _ _ _ _ false alice_cleared
           eq_refl eq_refl).
  discriminate.
Defined.

(** X8 at Alice's submission, read back by Bob. *)
Lemma accepted_submission_read_back_witness :
  ∃ id w' read full,
    @JwtService.createWithClaimRecord Scenario.P "alice-join" VUndef Scenario.start
      = (Resolved id, w')
    ∧ @JwtService.byId Scenario.P id (VStr Scenario.bob) w' = (Resolved (Some read), w')
    ∧ summary_id read = id
    ∧ summary_issuer read = VStr Scenario.alice
    ∧ summary_claim read
      = @JSON_parse Scenario.P (@canonicalize Scenario.P Scenario.meeting)
    ∧ JwtService.fullJwtById id (VStr Scenario.bob) w' = (Resolved (Some full), w')
    ∧ jwt_id full = id
    ∧ jwt_jwtEncoded full = "alice-join".
Proof.
  apply (@accepted_submission_read_back Scenario.P _ _ _ _ _ _ _ _ false
           (VStr Scenario.bob) alice_cleared eq_refl eq_refl).
  discriminate.
Defined.

(** ** Rate limits and the claim of a payload *)

Lemma only_reads_refl w : only_reads w w.
Proof. repeat split. Qed.

Lemma only_reads_trans a b c : only_reads a b → only_reads b c → only_reads a c.
Proof.
  unfold only_reads. intros (? & ? & ? & ?) (? & ? & ? & ?). repeat split; congruence.
Qed.

Lemma only_reads_faults w l : only_reads w (with_faults l w).
Proof. repeat split. Qed.

Ltac keeps_reads :=
  repeat first
    [ keeps_step only_reads_refl only_reads_trans only_reads_refl
        ltac:(apply (keeps_db_query _ only_reads_faults))
    | progress cbv beta zeta ].

Section RateLimits.
Context `{Platform}.

(** X9. [getRateLimits] asks the store and changes nothing, whoever asks and
    whether or not the store fails; for an identity without a Registration
    row it rejects with UNREGISTERED_USER. *)
Theorem rate_limits_read_only requestorDid w :
  only_reads w (JwtService.getRateLimits requestorDid w).2
  ∧ (faults w = [] →
     Store.registrationByDid requestorDid (db w) = None →
     JwtService.getRateLimits requestorDid w
     = (Rejected (ClientError "Rate limits are only available to existing users."
                              UNREGISTERED_USER), w)).
Proof.
  split.
  - revert w. change (keeps only_reads (JwtService.getRateLimits requestorDid)).
    unfold JwtService.getRateLimits. keeps_reads.
  - intros Hf Hnone. unfold JwtService.getRateLimits.
    rewrite (bind_resolved _ _ _ _ _ (db_query_reliable _ w Hf)), Hnone.
    reflexivity.
Qed.

(** X10. For a registered identity [getRateLimits] reports the very counts
    the weekly and the monthly check make, the maxima those checks compare
    with whenever the override is not 0, and as the next week's beginning a
    Monday 00:00 UTC that lies ahead. *)
Theorem rate_limits_report_the_checks requestorDid w registered :
  faults w = [] →
  Store.registrationByDid requestorDid (db w) = Some registered →
  ∃ limits,
    JwtService.getRateLimits requestorDid w = (Resolved limits, w)
    ∧ doneClaimsThisWeek limits = claimsThisWeek requestorDid w
    ∧ doneRegistrationsThisMonth limits = registrationsThisMonth requestorDid w
    ∧ (registration_maxClaims registered ≠ Some 0%Z →
       maxClaimsPerWeek limits = effectiveMaxClaims registered)
    ∧ (registration_maxRegs registered ≠ Some 0%Z →
       maxRegistrationsPerMonth limits = effectiveMaxRegistrations registered)
    ∧ nextWeekBeginDateTime limits = toISO (startOfWeek (now w) + 7 * ms_per_day)
    ∧ (now w < startOfWeek (now w) + 7 * ms_per_day)%Z
    ∧ (startOfWeek (now w) + 7 * ms_per_day) `mod` ms_per_day = 0%Z
    ∧ nextMonthBeginDateTime limits = toISO (plusOneMonth (startOfMonth (now w))).
Proof.
  intros Hf Hreg. unfold JwtService.getRateLimits.
  rewrite (bind_resolved _ _ _ _ _ (db_query_reliable _ w Hf)), Hreg.
  rewrite (bind_resolved clock _ w (now w) w eq_refl).
  cbv zeta.
  rewrite (bind_resolved _ _ _ _ _ (db_query_reliable _ w Hf)).
  rewrite (bind_resolved _ _ _ _ _ (db_query_reliable _ w Hf)).
  eexists. split; [reflexivity |]. simpl.
  destruct (startOfWeek_monday (now w)) as (Hmidnight & _ & Hweek).
  repeat split.
  - intros Hzero. apply or_else_unless_null, Hzero.
  - intros Hzero. apply or_else_unless_null, Hzero.
  - lia.
  - unfold ms_per_day in *.
    rewrite Z.add_mod, Hmidnight, Z.mod_mul by lia. reflexivity.
Qed.

(** X11. [extractClaim] throws on a payload that is [null] or [undefined]
    and otherwise yields [null] or a truthy value: the payload's [claim] when
    that is truthy, and else the [credentialSubject] of a truthy [vc] when
    that is truthy. *)
Theorem extractClaim_null_or_truthy payload :
  (nullish payload = true → JwtService.extractClaim payload = Rejected TypeError)
  ∧ (nullish payload = false →
     ∃ claim, JwtService.extractClaim payload = Resolved claim
              ∧ (claim = VNull ∨ truthy claim = true))
  ∧ (∀ claim, get payload "claim" = Resolved claim → truthy claim = true →
     JwtService.extractClaim payload = Resolved claim)
  ∧ (∀ claim vc subject,
       get payload "claim" = Resolved claim → truthy claim = false →
       get payload "vc" = Resolved vc → truthy vc = true →
       get vc "credentialSubject" = Resolved subject → truthy subject = true →
       JwtService.extractClaim payload = Resolved subject).
Proof.
  unfold JwtService.extractClaim. repeat split.
  - destruct payload; simpl; intros; try discriminate; reflexivity.
  - intros Hpayload.
    assert (∃ c vc, get payload "claim" = Resolved c ∧ get payload "vc" = Resolved vc)
      as (c & vc & -> & ->)
      by (destruct payload; simpl in *; try discriminate; eauto).
    destruct (truthy c) eqn:Hc; simpl.
    + rewrite Hc. eauto.
    + destruct (truthy vc) eqn:Hvc.
      * destruct (truthy_get vc "credentialSubject" Hvc) as [subject ->]. simpl.
        destruct (truthy subject) eqn:Hs; eauto.
      * simpl. rewrite Hvc. eauto.
  - intros claim -> Hc. rewrite Hc. simpl. rewrite Hc. reflexivity.
  - intros claim vc subject -> Hc -> Hvc -> Hs. rewrite Hc, Hvc. simpl.
    rewrite Hs. reflexivity.
Qed.

End RateLimits.

(** X9 at Dave, who is not registered. *)
Lemma rate_limits_read_only_witness :
  @JwtService.getRateLimits Scenario.P (VStr Scenario.dave) Scenario.start
  = (Rejected (ClientError "Rate limits are only available to existing users."
                           UNREGISTERED_USER), Scenario.start).
Proof.
  apply (proj2 (@rate_limits_read_only Scenario.P (VStr Scenario.dave) Scenario.start));
    reflexivity.
Defined.

(** X10 at Alice once her claim is stored. *)
Lemma rate_limits_report_the_checks_witness :
  ∃ limits,
    @JwtService.getRateLimits Scenario.P (VStr Scenario.alice) Scenario.afterAlice
      = (Resolved limits, Scenario.afterAlice)
    ∧ doneClaimsThisWeek limits = 1%Z
    ∧ maxClaimsPerWeek limits = 100%Z.
Proof.
  destruct (@rate_limits_report_the_checks Scenario.P (VStr Scenario.alice)
              Scenario.afterAlice (Reference.seeded 1 Scenario.alice None None)
              ltac:(vm_compute; reflexivity) ltac:(vm_compute; reflexivity))
    as (limits & Hrun & Hdone & _ & Hmax & _).
  exists limits. split; [exact Hrun |]. split.
  - rewrite Hdone. vm_compute. reflexivity.
  - rewrite Hmax by discriminate. vm_compute. reflexivity.
Defined.

(** X11 at a verifiable credential whose subject is the claim. *)
Lemma extractClaim_null_or_truthy_witness :
  @JwtService.extractClaim
    (VObj [("vc", VObj [("credentialSubject", Scenario.meeting)])])
  = Resolved Scenario.meeting.
Proof.
  apply (proj2 (proj2 (proj2
           (extractClaim_null_or_truthy
              (VObj [("vc", VObj [("credentialSubject", Scenario.meeting)])]))))
           VUndef (VObj [("credentialSubject", Scenario.meeting)]) Scenario.meeting);
    reflexivity.
Defined.

(** ** The dispatch on the kind of a claim *)

Lemma only_confirmations_refl w : only_confirmations w w.
Proof. repeat split. Qed.

Lemma only_confirmations_trans a b c :
  only_confirmations a b → only_confirmations b c → only_confirmations a c.
Proof.
  unfold only_confirmations.
  intros (? & ? & ? & ? & ? & ? & ? & ?) (? & ? & ? & ? & ? & ? & ? & ?).
  repeat split; congruence.
Qed.

Lemma only_confirmations_logs w l : only_confirmations w (with_logs l w).
Proof. repeat split. Qed.

Lemma only_confirmations_faults w l : only_confirmations w (with_faults l w).
Proof. repeat split. Qed.

Ltac keeps_confirmations :=
  repeat first
    [ keeps_step only_confirmations_refl only_confirmations_trans
        only_confirmations_logs
        ltac:(first [ apply (keeps_db_query _ only_confirmations_faults)
                    | apply (keeps_db_call _ only_confirmations_faults);
                      intros ? ?; repeat split ])
    | progress cbv beta zeta ].

Section Dispatch.
Context `{Platform}.

Lemma claimKind_object claim kind :
  JwtService.claimKind claim = Resolved kind → nullish claim = false.
Proof. destruct claim; try reflexivity; discriminate. Qed.

Lemma nonnull_get o k : nullish o = false → ∃ v, get o k = Resolved v.
Proof. destruct o; simpl; intros; try discriminate; eauto. Qed.

Lemma foreign_context_unknown claim context :
  get claim "@context" = Resolved context →
  JwtService.isContextSchemaOrg context = false →
  is_string context "https://endorser.ch" = false →
  JwtService.claimKind claim = Resolved JwtService.KUnknown.
Proof.
  intros Hcontext Hschema Hendorser.
  unfold JwtService.claimKind, JwtService.isOrgRoleClaim,
    JwtService.isEndorserRegistrationClaim, JwtService.isContextSchemaForConfirmation,
    JwtService.typeIs.
  rewrite Hcontext. simpl. rewrite Hschema, Hendorser. reflexivity.
Qed.

Lemma caught_resolves (m : M Confirmed) w :
  ∃ r, (JwtService.caught m w).1 = Resolved r.
Proof.
  unfold JwtService.caught, catch, bind. destruct (m w) as [[r | e] w']; simpl; eauto.
Qed.

Lemma confirmEach_resolves jwtId issuerDid origClaims :
  ∀ w, ∃ l, (JwtService.confirmEach jwtId issuerDid origClaims w).1 = Resolved l.
Proof.
  unfold JwtService.confirmEach.
  induction origClaims as [| origClaim rest IH]; intros w; simpl; [eauto |].
  unfold bind at 1.
  destruct (caught_resolves (JwtService.createOneConfirmation jwtId issuerDid origClaim) w)
    as [r Hr].
  destruct (JwtService.caught _ w) as [[r' | e] w']; simpl in Hr; [| discriminate].
  unfold bind. destruct (IH w') as [l Hl].
  destruct (for_each _ rest w') as [[l' | e] w'']; simpl in *; [eauto | discriminate].
Qed.

(** X12. A claim whose context is neither schema.org nor endorser.ch, and
    any other claim that no branch of the dispatch recognises, is no error:
    the dispatch resolves, writes one line to the log and asks nothing of
    the store. *)
Theorem unknown_claim_records_nothing jwtId issuerDid claim context type :
  get claim "@context" = Resolved context →
  get claim "@type" = Resolved type →
  (JwtService.isContextSchemaOrg context = false
   ∧ is_string context "https://endorser.ch" = false)
  ∨ JwtService.claimKind claim = Resolved JwtService.KUnknown →
  ∀ w,
    JwtService.createEmbeddedClaimRecord jwtId issuerDid claim w
    = (Resolved tt,
       with_logs
         (logs w ++ [Log LInfo ("Submitted unknown claim type with @context "
                                +:+ js_string context +:+ " and @type " +:+ js_string type
                                +:+ "  This isn't a problem, it just means there is no dedicated storage or reporting for that type.")])
         w).
Proof.
  intros Hcontext Htype Hunknown w.
  assert (Hkind : JwtService.claimKind claim = Resolved JwtService.KUnknown).
  { destruct Hunknown as [[Hschema Hendorser] | Hkind]; [| exact Hkind].
    eapply foreign_context_unknown; eassumption. }
  unfold JwtService.createEmbeddedClaimRecord.
  rewrite (bind_settle _ _ _ _ Hkind), (bind_settle _ _ _ _ Hcontext),
    (bind_settle _ _ _ _ Htype).
  reflexivity.
Qed.

(** X13. A JoinAction is not recorded without an agent identity and an
    event: with no agent at all the dispatch rejects with a TypeError and
    logs nothing; with an agent whose [did] is missing or empty, and then
    with a missing event, it logs an error and rejects with a message of its
    own.  The store is not asked anything. *)
Theorem join_action_needs_agent_and_event jwtId issuerDid claim :
  JwtService.claimKind claim = Resolved JwtService.KJoinAction →
  (∀ agent w,
     get claim "agent" = Resolved agent → nullish agent = true →
     JwtService.createEmbeddedClaimRecord jwtId issuerDid claim w
     = (Rejected TypeError, w))
  ∧ (∀ agentDid w,
       path claim ["agent"; "did"] = Resolved agentDid → truthy agentDid = false →
       JwtService.createEmbeddedClaimRecord jwtId issuerDid claim w
       = (Rejected (JsError "Attempted to record a JoinAction claim with no agent DID."),
          with_logs (logs w ++ [Log LError ("Error in JwtService: JoinAction for "
                                            +:+ pretty jwtId +:+ " has no agent DID.")])
            w))
  ∧ (∀ agentDid claimEvent w,
       path claim ["agent"; "did"] = Resolved agentDid → truthy agentDid = true →
       get claim "event" = Resolved claimEvent → truthy claimEvent = false →
       JwtService.createEmbeddedClaimRecord jwtId issuerDid claim w
       = (Rejected (JsError "Attempted to record a JoinAction claim with no event info."),
          with_logs (logs w ++ [Log LError ("Error in JwtService: JoinAction for "
                                            +:+ pretty jwtId +:+ " has no event info.")])
            w)).
Proof.
  intros Hkind. unfold JwtService.createEmbeddedClaimRecord, JwtService.recordJoinAction.
  repeat split.
  - intros agent w Hagent Hnull. rewrite (bind_settle _ _ _ _ Hkind).
    rewrite (bind_settle_rejected _ _ _ TypeError); [reflexivity |].
    simpl. rewrite Hagent. destruct agent; try discriminate; reflexivity.
  - intros agentDid w Hdid Hfalsy.
    rewrite (bind_settle _ _ _ _ Hkind), (bind_settle _ _ _ _ Hdid), Hfalsy.
    reflexivity.
  - intros agentDid claimEvent w Hdid Htruthy Hevent Hfalsy.
    rewrite (bind_settle _ _ _ _ Hkind), (bind_settle _ _ _ _ Hdid), Htruthy.
    cbn [negb]. rewrite (bind_settle _ _ _ _ Hevent), Hfalsy. reflexivity.
Qed.

Lemma createOneConfirmation_only_confirmations jwtId issuerDid origClaim :
  keeps only_confirmations (JwtService.createOneConfirmation jwtId issuerDid origClaim).
Proof.
  unfold JwtService.createOneConfirmation, JwtService.confirmOne. keeps_confirmations.
Qed.

(** X14. The dispatch of an AgreeAction always resolves: whatever a
    confirmation of one of its original claims ends in (an unrecorded
    target, a duplicate, an original claim that is [null], a failure of the
    store) is printed and dropped.  No table but the confirmations
    changes. *)
Theorem agree_action_always_resolves jwtId issuerDid claim :
  JwtService.claimKind claim = Resolved JwtService.KAgreeAction →
  ∀ w,
    (JwtService.createEmbeddedClaimRecord jwtId issuerDid claim w).1 = Resolved tt
    ∧ only_confirmations w (JwtService.createEmbeddedClaimRecord jwtId issuerDid claim w).2.
Proof.
  intros Hkind w. unfold JwtService.createEmbeddedClaimRecord.
  rewrite (bind_settle _ _ _ _ Hkind).
  destruct (nonnull_get claim "object" (claimKind_object _ _ Hkind)) as [origClaim Ho].
  rewrite (bind_settle _ _ _ _ Ho).
  split.
  - destruct (isArray origClaim) eqn:Harr.
    + destruct origClaim; try discriminate. cbn [iterate].
      rewrite (bind_settle _ _ _ _ eq_refl).
      destruct (confirmEach_resolves jwtId issuerDid elems w) as [l Hl].
      unfold bind.
      destruct (JwtService.confirmEach _ _ _ w) as [[l' | e] w']; simpl in *;
        [reflexivity | discriminate].
    + destruct (truthy origClaim); [| reflexivity].
      destruct (caught_resolves
                  (JwtService.createOneConfirmation jwtId issuerDid origClaim) w)
        as [r Hr].
      unfold bind.
      destruct (JwtService.caught _ w) as [[r' | e] w']; simpl in *;
        [reflexivity | discriminate].
  - lazymatch goal with
    | |- only_confirmations ?w (snd (?m ?w)) =>
        cut (keeps only_confirmations m); [intros Hk; apply Hk |]
    end.
    pose proof createOneConfirmation_only_confirmations as Hone.
    unfold JwtService.confirmEach, JwtService.caught.
    repeat first [ apply Hone | keeps_confirmations ].
Qed.

End Dispatch.

(** X12 at a note in a vocabulary of its own. *)
Lemma unknown_claim_records_nothing_witness :
  ∃ line,
    @JwtService.createEmbeddedClaimRecord Cases.P 1 (VStr Scenario.alice) Cases.note
      Scenario.start
    = (Resolved tt, with_logs [Log LInfo line] Scenario.start).
Proof.
  eexists.
  apply (@unknown_claim_records_nothing Cases.P 1 (VStr Scenario.alice) Cases.note
           (VStr "https://example.org") (VStr "Note") eq_refl eq_refl
           (or_introl (conj eq_refl eq_refl)) Scenario.start).
Defined.

(** X13 at a JoinAction whose agent has a name and no [did]. *)
Lemma join_action_needs_agent_and_event_witness :
  (@JwtService.createEmbeddedClaimRecord Cases.P 1 (VStr Scenario.alice)
     Cases.anonymousJoin Scenario.start).1
  = Rejected (JsError "Attempted to record a JoinAction claim with no agent DID.").
Proof.
  rewrite (proj1 (proj2 (@join_action_needs_agent_and_event Cases.P 1
                           (VStr Scenario.alice) Cases.anonymousJoin eq_refl))
             VUndef Scenario.start eq_refl eq_refl).
  reflexivity.
Defined.

(** X14 at Bob's agreement with the meeting claim Alice made: of the three
    original claims one is confirmed, one is a duplicate and one is [null]. *)
Lemma agree_action_always_resolves_witness :
  (@JwtService.createEmbeddedClaimRecord Cases.P 2 (VStr Scenario.bob) Cases.agree
     Scenario.afterAlice).1 = Resolved tt
  ∧ only_confirmations Scenario.afterAlice
      (@JwtService.createEmbeddedClaimRecord Cases.P 2 (VStr Scenario.bob) Cases.agree
         Scenario.afterAlice).2.
Proof.
  apply (@agree_action_always_resolves Cases.P 2 (VStr Scenario.bob) Cases.agree eq_refl).
Defined.

(** ** Confirmations of what was never recorded, and registrations *)

Lemma find_app_none {A} (f : A → bool) (l : list A) (x : A) :
  find f l = None → f x = true → find f (l ++ [x])%list = Some x.
Proof.
  intros Hnone Hx. induction l as [| y l IH]; simpl in *.
  - rewrite Hx. reflexivity.
  - destruct (f y); [discriminate | auto].
Qed.

Section Targets.
Context `{Platform}.

(** X15. An original claim whose target was never recorded is not
    confirmed: for a JoinAction at an event that is not stored, or by an
    agent without an action at the stored event, for a Tenure that is not
    stored and for an organization role that is not stored,
    [createOneConfirmation] rejects with the message of that case and leaves
    the world as it was. *)
Theorem unrecorded_target_not_confirmed jwtId issuerDid origClaim withContext w :
  faults w = [] →
  JwtService.defaultContext origClaim = Resolved withContext →
  (∀ orgName name startTime,
     JwtService.typeIs withContext JwtService.isContextSchemaOrg "JoinAction"
       = Resolved true →
     path withContext ["event"; "organizer"; "name"] = Resolved orgName →
     path withContext ["event"; "name"] = Resolved name →
     path withContext ["event"; "startTime"] = Resolved startTime →
     (Store.eventsByParams orgName name startTime (db w) = [] →
      JwtService.createOneConfirmation jwtId issuerDid origClaim w
      = (Rejected (JsError "Attempted to confirm action at an unrecorded event."), w))
     ∧ (∀ event0 others agentDid,
          Store.eventsByParams orgName name startTime (db w) = event0 :: others →
          path withContext ["agent"; "did"] = Resolved agentDid →
          Store.actionClaimIdByDidEventId agentDid (event_id event0) (db w) = None →
          JwtService.createOneConfirmation jwtId issuerDid origClaim w
          = (Rejected (JsError "Attempted to confirm an unrecorded action."), w)))
  ∧ (∀ partyDid polygon,
       JwtService.typeIs withContext JwtService.isContextSchemaOrg "JoinAction"
         = Resolved false →
       JwtService.typeIs withContext (λ c, is_string c "https://endorser.ch") "Tenure"
         = Resolved true →
       path withContext ["party"; "did"] = Resolved partyDid →
       path withContext ["spatialUnit"; "geo"; "polygon"] = Resolved polygon →
       Store.tenureClaimIdByPartyAndGeoShape partyDid polygon (db w) = None →
       JwtService.createOneConfirmation jwtId issuerDid origClaim w
       = (Rejected (JsError "Attempted to confirm an unrecorded tenure."), w))
  ∧ (∀ orgName roleName startDate endDate memberDid,
       JwtService.typeIs withContext JwtService.isContextSchemaOrg "JoinAction"
         = Resolved false →
       JwtService.typeIs withContext (λ c, is_string c "https://endorser.ch") "Tenure"
         = Resolved false →
       JwtService.isOrgRoleConfirmation withContext = Resolved true →
       get withContext "name" = Resolved orgName →
       path withContext ["member"; "roleName"] = Resolved roleName →
       path withContext ["member"; "startDate"] = Resolved startDate →
       path withContext ["member"; "endDate"] = Resolved endDate →
       path withContext ["member"; "member"; "identifier"] = Resolved memberDid →
       Store.orgRoleClaimIdByOrgAndDates orgName roleName startDate endDate memberDid
         (db w) = None →
       JwtService.createOneConfirmation jwtId issuerDid origClaim w
       = (Rejected (JsError "Attempted to confirm an unrecorded orgRole."), w)).
Proof.
  intros Hf Hcontext. unfold JwtService.createOneConfirmation.
  rewrite (bind_settle _ _ _ _ Hcontext). unfold JwtService.confirmOne.
  split; [| split].
  - intros orgName name startTime Hjoin HorgName Hname HstartTime. split.
    + intros Hevents. run Hf. rewrite Hevents. reflexivity.
    + intros event0 others agentDid Hevents Hagent Hnone. run Hf.
      rewrite Hevents. run Hf. rewrite Hnone. reflexivity.
  - intros partyDid polygon Hjoin Htenure Hparty Hpolygon Hnone. run Hf.
    rewrite Hnone. reflexivity.
  - intros orgName roleName startDate endDate memberDid Hjoin Htenure Hrole HorgName
      HroleName HstartDate HendDate Hmember Hnone.
    run Hf. rewrite Hnone. reflexivity.
Qed.

(** X16. The dispatch of a registration claim for this service registers
    the participant the claim names: afterwards the participant has a
    Registration row, made for the agent the claim names at the present
    second by this envelope, and without overrides of the maxima. *)
Theorem registration_claim_registers_participant jwtId issuerDid claim did agent w :
  faults w = [] →
  JwtService.claimKind claim = Resolved JwtService.KRegistration →
  path claim ["participant"; "did"] = Resolved did →
  path claim ["agent"; "did"] = Resolved agent →
  Store.registrationByDid did (db w) = None →
  ∃ row w',
    JwtService.createEmbeddedClaimRecord jwtId issuerDid claim w = (Resolved tt, w')
    ∧ registrations (db w') = (registrations (db w) ++ [row])%list
    ∧ Store.registrationByDid did (db w') = Some row
    ∧ registration_did row = did
    ∧ registration_agent row = agent
    ∧ registration_epoch row = Some (now w `div` 1000)
    ∧ registration_jwtId row = Some jwtId
    ∧ registration_maxClaims row = None
    ∧ registration_maxRegs row = None.
Proof.
  intros Hf Hkind Hdid Hagent Hnone.
  unfold JwtService.createEmbeddedClaimRecord, JwtService.recordRegistration.
  rewrite (bind_settle _ _ _ _ Hkind), (bind_settle _ _ _ _ Hdid),
    (bind_settle _ _ _ _ Hagent).
  rewrite (bind_resolved clock _ w (now w) w eq_refl).
  rewrite (bind_db_call_reliable _ _ _ Hf). cbn [Store.registrationInsert fst snd].
  eexists _, _. split; [reflexivity |]. simpl.
  split; [reflexivity |]. split; [| repeat split].
  unfold Store.registrationByDid in *. simpl.
  apply find_app_none; [exact Hnone |]. simpl.
  unfold value_is. apply bool_decide_eq_true. reflexivity.
Qed.

End Targets.

(** X15 at Bob's confirmation of a meeting nobody has claimed yet. *)
Lemma unrecorded_target_not_confirmed_witness :
  @JwtService.createOneConfirmation Scenario.P 1 (VStr Scenario.bob) Scenario.meeting
    Scenario.start
  = (Rejected (JsError "Attempted to confirm action at an unrecorded event."),
     Scenario.start).
Proof.
  apply (proj1 (proj1 (@unrecorded_target_not_confirmed Scenario.P 1
                         (VStr Scenario.bob) Scenario.meeting Scenario.meeting
                         Scenario.start eq_refl eq_refl)
                  (VStr "Org") (VStr "Meeting") (VStr "2023-11-14T08:00:00Z")
                  eq_refl eq_refl eq_refl eq_refl)).
  reflexivity.
Defined.

(** X16 at Alice's registration of Carol. *)
Lemma registration_claim_registers_participant_witness :
  ∃ row w',
    @JwtService.createEmbeddedClaimRecord Cases.P 1 (VStr Scenario.alice)
      Cases.registerCarol Scenario.start = (Resolved tt, w')
    ∧ registrations (db w') = (registrations (db Scenario.start) ++ [row])%list
    ∧ Store.registrationByDid (VStr Scenario.carol) (db w') = Some row
    ∧ registration_did row = VStr Scenario.carol
    ∧ registration_agent row = VStr Scenario.alice
    ∧ registration_epoch row = Some (now Scenario.start `div` 1000)
    ∧ registration_jwtId row = Some 1%Z
    ∧ registration_maxClaims row = None
    ∧ registration_maxRegs row = None.
Proof.
  apply (@registration_claim_registers_participant Cases.P 1 (VStr Scenario.alice)
           Cases.registerCarol (VStr Scenario.carol) (VStr Scenario.alice)
           Scenario.start); reflexivity.
Defined.

(** ** The chain-rebuild pass: failures, and a second pass *)

Section Passes.
Context `{Platform}.

(** X17. When the store fails the first query of a pass, the failure is
    logged once, as a failure to retrieve the unchained claims; when it fails
    the query for the last chain value, the one failure is logged twice, as
    a failure to save hashes and again as a failure to retrieve the
    unchained claims.  Either way the pass is rejected with the store's
    failure and no row has changed. *)
Theorem failed_pass_logged w rest :
  (faults w = true :: rest →
   (JwtService.merkleUnmerkled w).1 = Rejected StoreError
   ∧ db (JwtService.merkleUnmerkled w).2 = db w
   ∧ logs (JwtService.merkleUnmerkled w).2
     = (logs w
        ++ [LogRejection LError StoreError
              "Got error while retrieving unchained claims, with this toString(): "])%list)
  ∧ (faults w = false :: true :: rest →
     (JwtService.merkleUnmerkled w).1 = Rejected StoreError
     ∧ db (JwtService.merkleUnmerkled w).2 = db w
     ∧ logs (JwtService.merkleUnmerkled w).2
       = (logs w
          ++ [LogRejection LError StoreError
                "Got error while saving hashes, with this toString(): ";
              LogRejection LError StoreError
                "Got error while retrieving unchained claims, with this toString(): "])%list).
Proof.
  unfold JwtService.merkleUnmerkled, catch, bind, db_query, db_call, log, reject.
  split; intros ->; simpl; repeat split.
  rewrite <- app_assoc. reflexivity.
Qed.

Lemma rebuilt_chains rows : ∀ latest d,
  Forall (λ r, jwt_hashChainHex r ≠ None ∨ jwt_id r ∈ iac_id <$> rows) (jwts d) →
  Forall (λ r, jwt_hashChainHex r ≠ None) (jwts (rebuilt latest rows d)).
Proof.
  induction rows as [| row rows IH]; intros latest d Hall; simpl.
  - eapply Forall_impl; [exact Hall |]. simpl.
    intros r [Hr | Hr]; [exact Hr | inversion Hr].
  - apply IH. simpl. apply Forall_fmap. eapply Forall_impl; [exact Hall |].
    intros r Hr. simpl.
    destruct (Z.eqb_spec (jwt_id r) (iac_id row)) as [Heq | Hne]; simpl.
    + left. discriminate.
    + destruct Hr as [Hr | Hr]; [left; exact Hr |].
      right. apply elem_of_cons in Hr as [Hr | Hr]; [contradiction | exact Hr].
Qed.

Lemma all_chained_none_unmerkled d :
  Forall (λ r, jwt_hashChainHex r ≠ None) (jwts d) →
  MerkleStore.jwtClaimsAndIdsUnmerkled d = [].
Proof.
  intros Hall. unfold MerkleStore.jwtClaimsAndIdsUnmerkled.
  replace (List.filter (λ r, bool_decide (jwt_hashChainHex r = None)) (jwts d))
    with (@nil jwt_row); [reflexivity |].
  induction Hall as [| r l Hr _ IH]; simpl; [reflexivity |].
  rewrite bool_decide_eq_false_2 by exact Hr. exact IH.
Qed.

(** X18. On a store that does not fail a pass resolves and leaves no row
    without a chain value; a pass that finds no such row resolves to the
    empty list and changes nothing, so a second pass over the same store is
    idle. *)
Theorem second_pass_idle w :
  faults w = [] →
  ∃ results w',
    JwtService.merkleUnmerkled w = (Resolved results, w')
    ∧ MerkleStore.jwtClaimsAndIdsUnmerkled (db w') = []
    ∧ JwtService.merkleUnmerkled w' = (Resolved [], w')
    ∧ (MerkleStore.jwtClaimsAndIdsUnmerkled (db w) = [] → results = [] ∧ w' = w).
Proof.
  intros Hf.
  assert (Hidle : ∀ v, faults v = [] → MerkleStore.jwtClaimsAndIdsUnmerkled (db v) = [] →
                       JwtService.merkleUnmerkled v = (Resolved [], v)).
  { intros v Hv Hnone. unfold JwtService.merkleUnmerkled, catch.
    rewrite (bind_resolved _ _ _ _ _ (db_query_reliable _ v Hv)).
    rewrite (bind_resolved _ _ _ _ _ (db_query_reliable _ v Hv)).
    rewrite Hnone. reflexivity. }
  set (rows := MerkleStore.jwtClaimsAndIdsUnmerkled (db w)).
  destruct (merkleUpdates_run rows (seedOf (db w)) w Hf)
    as (results & w' & Hrun & Hdb & Hf').
  assert (Hrun' : JwtService.merkleUnmerkled w = (Resolved results, w')).
  { unfold JwtService.merkleUnmerkled, catch.
    rewrite (bind_resolved _ _ _ _ _ (db_query_reliable _ w Hf)).
    rewrite (bind_resolved _ _ _ _ _ (db_query_reliable _ w Hf)).
    fold rows. change (match MerkleStore.jwtLastMerkleHash (db w) with
                       | hashChainHex :: _ => hashChainHex
                       | [] => ""
                       end) with (seedOf (db w)).
    rewrite Hrun. reflexivity. }
  assert (Hnone : MerkleStore.jwtClaimsAndIdsUnmerkled (db w') = []).
  { apply all_chained_none_unmerkled. rewrite Hdb. apply rebuilt_chains.
    apply Forall_forall. intros r Hr.
    destruct (jwt_hashChainHex r) as [c |] eqn:Hc; [left; discriminate | right].
    subst rows. rewrite unmerkled_ids, order_by_id_perm.
    apply list_elem_of_fmap. exists r. split; [reflexivity |].
    apply list_elem_of_In, filter_In. split; [apply list_elem_of_In, Hr |].
    apply bool_decide_eq_true. exact Hc. }
  exists results, w'. split; [exact Hrun' |]. split; [exact Hnone |].
  split; [apply Hidle; assumption |].
  intros Hempty. rewrite (Hidle w Hf Hempty) in Hrun'.
  injection Hrun' as <- <-. split; reflexivity.
Qed.

End Passes.

(** ** Who stands behind a claim *)

Lemma uniq_elem (l : list value) (x : value) : x ∈ uniq l ↔ x ∈ l.
Proof.
  induction l as [| y l IH]; simpl; [reflexivity |].
  rewrite !elem_of_cons, <- IH. split.
  - intros [-> | Hin]; [left; reflexivity |].
    apply list_elem_of_In, filter_In in Hin as [Hin _].
    right. apply list_elem_of_In, Hin.
  - intros [-> | Hin]; [left; reflexivity |].
    destruct (decide (x = y)) as [-> | Hne]; [left; reflexivity | right].
    apply list_elem_of_In, filter_In. split; [apply list_elem_of_In, Hin |].
    unfold value_is. rewrite bool_decide_eq_false_2 by exact Hne. reflexivity.
Qed.

Lemma uniq_NoDup (l : list value) : NoDup (uniq l).
Proof.
  induction l as [| y l IH]; simpl; [constructor |].
  constructor.
  - intros Hin. apply list_elem_of_In, filter_In in Hin as [_ Hne].
    unfold value_is in Hne. rewrite bool_decide_eq_true_2 in Hne by reflexivity.
    discriminate.
  - apply NoDup_ListNoDup, List.NoDup_filter, NoDup_ListNoDup, IH.
Qed.

Section Issuers.
Context `{Platform}.

(** X19. For an envelope that is not stored,
    [thisClaimAndConfirmationsIssuersMatchingClaimId] yields the empty list;
    for one that is, it yields without repetition exactly the envelope's
    issuer and the issuers of the confirmations that hold the same
    canonical claim. *)
Theorem issuers_behind_a_claim claimId w :
  faults w = [] →
  ∃ dids,
    JwtService.thisClaimAndConfirmationsIssuersMatchingClaimId claimId w
      = (Resolved dids, w)
    ∧ NoDup dids
    ∧ (Store.jwtById claimId (db w) = None → dids = [])
    ∧ (∀ jwtClaim,
         Store.jwtById claimId (db w) = Some jwtClaim →
         ∀ did,
           did ∈ dids
           ↔ did = jwt_issuer jwtClaim
             ∨ ∃ c, c ∈ confirmations (db w)
                    ∧ confirmation_origClaim c = jwt_claim jwtClaim
                    ∧ confirmation_issuer c = did).
Proof.
  intros Hf. unfold JwtService.thisClaimAndConfirmationsIssuersMatchingClaimId.
  rewrite (bind_resolved _ _ _ _ _ (db_query_reliable _ w Hf)).
  destruct (Store.jwtById claimId (db w)) as [jwtClaim |].
  - rewrite (bind_resolved _ _ _ _ _ (db_query_reliable _ w Hf)). cbv zeta.
    eexists. split; [reflexivity |]. split; [apply uniq_NoDup |].
    split; [discriminate |].
    intros ? [= <-] did. rewrite uniq_elem, elem_of_app, list_elem_of_singleton.
    unfold Store.confirmationsByClaim. rewrite list_elem_of_fmap. split.
    + intros [(c & -> & Hc) | ->]; [right | left; reflexivity].
      apply list_elem_of_In, filter_In in Hc as [Hc Heq].
      exists c. apply String.eqb_eq in Heq.
      split; [apply list_elem_of_In, Hc | split; [exact Heq | reflexivity]].
    + intros [-> | (c & Hc & Heq & <-)]; [right; reflexivity | left].
      exists c. split; [reflexivity |].
      apply list_elem_of_In, filter_In. split; [apply list_elem_of_In, Hc |].
      apply String.eqb_eq, Heq.
  - exists []. split; [reflexivity |]. split; [constructor |].
    split; [reflexivity | discriminate].
Qed.

End Issuers.

(** X17 at a store that fails the second query of the pass. *)
Lemma failed_pass_logged_witness :
  (@JwtService.merkleUnmerkled Cases.P Cases.failing).1 = Rejected StoreError
  ∧ db (@JwtService.merkleUnmerkled Cases.P Cases.failing).2 = db Cases.failing
  ∧ logs (@JwtService.merkleUnmerkled Cases.P Cases.failing).2
    = (logs Cases.failing
       ++ [LogRejection LError StoreError
             "Got error while saving hashes, with this toString(): ";
           LogRejection LError StoreError
             "Got error while retrieving unchained claims, with this toString(): "])%list.
Proof.
  apply (proj2 (@failed_pass_logged Cases.P Cases.failing [])). reflexivity.
Defined.

(** X18 at the store with two unchained envelopes. *)
Lemma second_pass_idle_witness :
  ∃ results w',
    @JwtService.merkleUnmerkled Scenario.P Scenario.unchained = (Resolved results, w')
    ∧ MerkleStore.jwtClaimsAndIdsUnmerkled (db w') = []
    ∧ @JwtService.merkleUnmerkled Scenario.P w' = (Resolved [], w')
    ∧ (MerkleStore.jwtClaimsAndIdsUnmerkled (db Scenario.unchained) = []
       → results = [] ∧ w' = Scenario.unchained).
Proof.
  apply (@second_pass_idle Scenario.P Scenario.unchained). reflexivity.
Defined.

(** X19 at Alice's envelope once Bob has agreed with its claim. *)
Lemma issuers_behind_a_claim_witness :
  ∃ dids,
    JwtService.thisClaimAndConfirmationsIssuersMatchingClaimId 1 Cases.afterAgree
      = (Resolved dids, Cases.afterAgree)
    ∧ NoDup dids
    ∧ VStr Scenario.alice ∈ dids
    ∧ VStr Scenario.bob ∈ dids.
Proof.
  destruct (issuers_behind_a_claim 1 Cases.afterAgree ltac:(vm_compute; reflexivity))
    as (dids & Hrun & Hnodup & _ & Hin).
  exists dids. split; [exact Hrun |]. split; [exact Hnodup |].
  destruct (Store.jwtById 1 (db Cases.afterAgree)) as [jwtClaim |] eqn:Hrow;
    [| vm_compute in Hrow; discriminate].
  vm_compute in Hrow. injection Hrow as <-.
  split.
  - apply (Hin _ eq_refl). left. reflexivity.
  - apply (Hin _ eq_refl). right.
    eexists. split; [| split].
    + apply list_elem_of_In. vm_compute. left. reflexivity.
    + reflexivity.
    + reflexivity.
Defined.

(** ** The filter of an action query *)

Lemma lookup_delete k k' props :
  lookup_prop k (List.filter (λ kv, negb (String.eqb k' kv.1)) props)
  = if String.eqb k k' then VUndef else lookup_prop k props.
Proof.
  induction props as [| [k0 v0] props IH]; simpl.
  - destruct (String.eqb k k'); reflexivity.
  - destruct (String.eqb_spec k' k0) as [<- | Hk0]; simpl.
    + rewrite IH. destruct (String.eqb_spec k k'); reflexivity.
    + rewrite IH. destruct (String.eqb_spec k k0) as [-> | Hk]; [| reflexivity].
      destruct (String.eqb_spec k0 k'); [congruence | reflexivity].
Qed.

Lemma bind_resolve_right {A} (m : M A) w : bind m (λ a, resolve a) w = m w.
Proof. unfold bind. destruct (m w) as [[a | e] w']; reflexivity. Qed.

Section StoreQueries.
Variable actionClaimsByParams : value → Db → list action_row.

(** X20. [byQuery] never hands the store a truthy [id]: the filter the
    store receives holds it as [rowid] and has no [id], its other properties
    being as they were.  An [id] that is absent, 0 or empty is not renamed,
    and the filter is handed on as it came.  A filter that is [null] makes
    the query throw. *)
Theorem byQuery_renames_id props w :
  (truthy (lookup_prop "id" props) = true →
   ∃ params,
     ActionService.storeParams (VObj props) = Resolved (VObj params)
     ∧ lookup_prop "rowid" params = lookup_prop "id" props
     ∧ lookup_prop "id" params = VUndef
     ∧ (∀ k, k ≠ "id" → k ≠ "rowid" → lookup_prop k params = lookup_prop k props)
     ∧ ActionService.byQuery actionClaimsByParams (VObj props) w
       = db_query (actionClaimsByParams (VObj params)) w)
  ∧ (truthy (lookup_prop "id" props) = false →
     ActionService.byQuery actionClaimsByParams (VObj props) w
     = db_query (actionClaimsByParams (VObj props)) w)
  ∧ ActionService.byQuery actionClaimsByParams VNull w = (Rejected TypeError, w).
Proof.
  unfold ActionService.byQuery, ActionService.storeParams.
  cbn [get set delete_property].
  split; [| split; [| reflexivity]].
  - intros ->. eexists. split; [reflexivity |].
    rewrite (bind_settle _ _ _ _ eq_refl), bind_resolve_right.
    split; [| split; [| split; [| reflexivity]]].
    + rewrite lookup_delete.
      destruct (String.eqb_spec "rowid" "id"); [discriminate |].
      apply lookup_update_prop.
    + rewrite lookup_delete, String.eqb_refl. reflexivity.
    + intros k Hid Hrowid. rewrite lookup_delete.
      destruct (String.eqb_spec k "id"); [contradiction |].
      apply lookup_update_other, Hrowid.
  - intros ->. rewrite (bind_settle _ _ _ _ eq_refl), bind_resolve_right. reflexivity.
Qed.

End StoreQueries.

(** X20 at a query for the action with id 7 of one agent. *)
Lemma byQuery_renames_id_witness :
  ∃ params,
    ActionService.storeParams
      (VObj [("id", VNum 7); ("agentDid", VStr Scenario.carol)])
    = Resolved (VObj params)
    ∧ lookup_prop "rowid" params = VNum 7
    ∧ lookup_prop "id" params = VUndef
    ∧ lookup_prop "agentDid" params = VStr Scenario.carol.
Proof.
  destruct (proj1 (byQuery_renames_id (λ _ d, actions d)
                     [("id", VNum 7); ("agentDid", VStr Scenario.carol)]
                     Scenario.start) eq_refl)
    as (params & Hparams & Hrowid & Hid & Hother & _).
  exists params. split; [exact Hparams |]. split; [exact Hrowid |].
  split; [exact Hid |]. apply Hother; discriminate.
Defined.

(** ** Visibility edges *)

Lemma edges_only_towards_same i w w' :
  network (db w') = network (db w) → edges_only_towards i w w'.
Proof. intros E. split; rewrite E; [reflexivity | auto]. Qed.

Lemma edges_only_towards_refl i w : edges_only_towards i w w.
Proof. apply edges_only_towards_same. reflexivity. Qed.

Lemma edges_only_towards_trans i a b c :
  edges_only_towards i a b → edges_only_towards i b c → edges_only_towards i a c.
Proof.
  intros [Hab Hab'] [Hbc Hbc']. split; [etransitivity; eassumption |].
  intros e He. destruct (Hbc' e He) as [Hb | Hi]; [apply Hab', Hb | right; exact Hi].
Qed.

Lemma edges_only_towards_logs i w l : edges_only_towards i w (with_logs l w).
Proof. apply edges_only_towards_same. reflexivity. Qed.

Lemma edges_only_towards_faults i w l : edges_only_towards i w (with_faults l w).
Proof. apply edges_only_towards_same. reflexivity. Qed.

Lemma addCanSee_only_towards observer observed :
  keeps (edges_only_towards observed) (Network.addCanSee observer observed).
Proof.
  unfold Network.addCanSee.
  apply (keeps_bind _ (edges_only_towards_trans observed)).
  - apply (keeps_db_call _ (edges_only_towards_faults observed)). intros w fs.
    unfold Network.canSeeInsert. simpl. case_bool_decide.
    + apply edges_only_towards_same. reflexivity.
    + split; simpl.
      * intros e He. apply elem_of_app. left. exact He.
      * intros e He. apply elem_of_app in He as [He | He]; [left; exact He |].
        apply list_elem_of_singleton in He as ->. right. reflexivity.
  - intros _ w. apply edges_only_towards_same. reflexivity.
Qed.

Lemma keeps_settled (R : World → World → Prop) {A B} (a : A) (k : A → M B) :
  keeps R (k a) → keeps R (bind (settle (Resolved a)) k).
Proof. intros Hk w. apply Hk. Qed.

Ltac keeps_edges i :=
  repeat first
    [ apply addCanSee_only_towards
    | lazymatch goal with
      | |- keeps _ (bind (settle (Resolved _)) _) => apply keeps_settled
      end
    | keeps_step (edges_only_towards_refl i) (edges_only_towards_trans i)
        (edges_only_towards_logs i)
        ltac:(first [ apply (keeps_db_query _ (edges_only_towards_faults i))
                    | apply (keeps_db_call _ (edges_only_towards_faults i));
                      intros ? ?; apply edges_only_towards_same; reflexivity ])
    | progress cbv beta zeta
    | solve [intros ?; apply edges_only_towards_same; reflexivity] ].

Section Edges.
Context `{Platform}.

Lemma createEmbeddedClaimRecords_only_towards jwtId issuerDid claim :
  keeps (edges_only_towards issuerDid)
    (JwtService.createEmbeddedClaimRecords jwtId issuerDid claim).
Proof.
  unfold JwtService.createEmbeddedClaimRecords, JwtService.createEmbeddedClaimRecord,
    JwtService.confirmEach, JwtService.caught, JwtService.createOneConfirmation,
    JwtService.confirmOne, JwtService.recordJoinAction, JwtService.recordOrgRole,
    JwtService.recordRegistration, JwtService.recordTenure, JwtService.recordVote.
  keeps_edges issuerDid.
Qed.

(** X21. A submission never removes a visibility edge, and an edge that is
    there afterwards and was not there before points to the issuer named in
    the payload of its token. *)
Theorem submission_adds_edges_to_its_issuer jwtEncoded authIssuerId w :
  network (db w)
    ⊆ network (db (JwtService.createWithClaimRecord jwtEncoded authIssuerId w).2)
  ∧ ∀ e,
      e ∈ network (db (JwtService.createWithClaimRecord jwtEncoded authIssuerId w).2) →
      e ∉ network (db w) →
      ∃ verified w1 payload,
        JwtService.decodeAndVerifyJwt jwtEncoded w = (Resolved verified, w1)
        ∧ get verified "payload" = Resolved payload
        ∧ get payload "iss" = Resolved e.2.
Proof.
  assert (Hsame : ∀ w' (P : value * value → Prop), db w' = db w →
            network (db w) ⊆ network (db w')
            ∧ ∀ e, e ∈ network (db w') → e ∉ network (db w) → P e).
  { intros w' P ->. split; [reflexivity | intros e He Hn; contradiction]. }
  pose proof (decodeAndVerifyJwt_keeps_db jwtEncoded w) as Hdb. unfold same_db in Hdb.
  unfold JwtService.createWithClaimRecord.
  destruct (JwtService.decodeAndVerifyJwt jwtEncoded w) as [[verified | e] w1] eqn:Hdec;
    simpl in Hdb.
  2: { rewrite (bind_rejected _ _ _ _ _ Hdec). apply Hsame, Hdb. }
  rewrite (bind_resolved _ _ _ _ _ Hdec).
  destruct (get verified "payload") as [payload | e] eqn:Hpayload.
  2: { rewrite (bind_settle_rejected _ _ _ _ eq_refl). apply Hsame, Hdb. }
  rewrite (bind_settle _ _ _ _ eq_refl).
  destruct (get payload "iss") as [iss | e] eqn:Hiss.
  - match goal with
    | |- context [db (snd (?m w1))] =>
        assert (Hk : keeps (edges_only_towards iss) m)
    end.
    { pose proof createEmbeddedClaimRecords_only_towards as Hrecords.
      unfold JwtService.buildJwtEntity.
      repeat first [ apply Hrecords | keeps_edges iss ]. }
    destruct (Hk w1) as [Hgrow Honly]. rewrite <- Hdb. split; [exact Hgrow |].
    intros e He Hn. destruct (Honly e He) as [Hold | Hto]; [contradiction |].
    exists verified, w1, payload. rewrite Hto. auto.
  - destruct (truthy authIssuerId); simpl; apply Hsame, Hdb.
Qed.

End Edges.

(** X21 at Alice's submission: the edge it adds lets Carol see Alice. *)
Lemma submission_adds_edges_to_its_issuer_witness :
  (VStr Scenario.carol, VStr Scenario.alice) ∈ network (db Scenario.afterAlice)
  ∧ ∃ verified w1 payload,
      @JwtService.decodeAndVerifyJwt Scenario.P "alice-join" Scenario.start
        = (Resolved verified, w1)
      ∧ get verified "payload" = Resolved payload
      ∧ get payload "iss" = Resolved (VStr Scenario.alice).
Proof.
  assert (Hin : (VStr Scenario.carol, VStr Scenario.alice)
                ∈ network (db Scenario.afterAlice))
    by (apply list_elem_of_In; vm_compute; left; reflexivity).
  split; [exact Hin |].
  apply (proj2 (@submission_adds_edges_to_its_issuer Scenario.P "alice-join" VUndef
                  Scenario.start) (VStr Scenario.carol, VStr Scenario.alice) Hin).
  intros Hold. vm_compute in Hold. inversion Hold.
Defined.

(** ** The cache of visible sets *)

Section Cache.
Context `{Platform}.

(** X22. The requester-aware [byId] resolves to [null] for an id that is
    not stored and leaves the cache alone.  For a stored action it leaves
    the requester's visible set in the cache: a set found there is used as it
    is and nothing changes, and otherwise the set the store computes is put
    there, the entries of other requesters staying as they were.  Asking
    again gives the same answer and changes nothing. *)
Theorem byId_fills_the_cache id requesterDid w :
  faults w = [] →
  (Store.actionClaimById id (db w) = None →
   ActionServiceForRequester.byId id requesterDid w = (Resolved None, w))
  ∧ (∀ actionClaim,
       Store.actionClaimById id (db w) = Some actionClaim →
       ∃ returned w',
         ActionServiceForRequester.byId id requesterDid w = (Resolved returned, w')
         ∧ netCache w' !! requesterDid = Some (visibleSet requesterDid w)
         ∧ (∀ other, other ≠ requesterDid → netCache w' !! other = netCache w !! other)
         ∧ db w' = db w
         ∧ (is_Some (netCache w !! requesterDid) → w' = w)
         ∧ ActionServiceForRequester.byId id requesterDid w' = (Resolved returned, w')).
Proof.
  intros Hf. unfold ActionServiceForRequester.byId. split.
  - intros Hnone.
    rewrite (bind_resolved _ _ _ _ _ (db_query_reliable _ w Hf)), Hnone. reflexivity.
  - intros actionClaim Hsome.
    rewrite (bind_resolved _ _ _ _ _ (db_query_reliable _ w Hf)), Hsome.
    unfold visibleSet. unfold bind at 1.
    destruct (netCache w !! requesterDid) as [objects |] eqn:Hcache.
    + exists (Some (if ActionServiceForRequester.indexOf objects
                         (action_agentDid actionClaim)
                    then actionClaim
                    else ActionServiceForRequester.hideAgent actionClaim)), w.
      split; [destruct (ActionServiceForRequester.indexOf _ _); reflexivity |].
      split; [exact Hcache |]. split; [reflexivity |]. split; [reflexivity |].
      split; [reflexivity |].
      rewrite (bind_resolved _ _ _ _ _ (db_query_reliable _ w Hf)), Hsome.
      unfold bind at 1. rewrite Hcache.
      destruct (ActionServiceForRequester.indexOf _ _); reflexivity.
    + rewrite (bind_resolved _ _ _ _ _ (db_query_reliable _ w Hf)).
      set (objects := Network.getNetwork (VStr requesterDid) (db w)).
      set (w' := with_netCache (<[requesterDid := objects]> (netCache w)) w).
      exists (Some (if ActionServiceForRequester.indexOf objects
                         (action_agentDid actionClaim)
                    then actionClaim
                    else ActionServiceForRequester.hideAgent actionClaim)), w'.
      split; [destruct (ActionServiceForRequester.indexOf _ _); reflexivity |].
      split; [apply lookup_insert_eq |].
      split; [intros other Hother; apply lookup_insert_ne; congruence |].
      split; [reflexivity |].
      split; [intros [cached Hcached]; discriminate |].
      assert (Hf' : faults w' = []) by exact Hf.
      rewrite (bind_resolved _ _ _ _ _ (db_query_reliable _ w' Hf')).
      change (db w') with (db w). rewrite Hsome. unfold bind at 1.
      replace (netCache w' !! requesterDid) with (Some objects)
        by (symmetry; apply lookup_insert_eq).
      destruct (ActionServiceForRequester.indexOf _ _); reflexivity.
Qed.

End Cache.

(** X22 at Bob's read of the action whose agent nobody sees. *)
Lemma byId_fills_the_cache_witness :
  ∃ returned w',
    @ActionServiceForRequester.byId (Reference.platform []) 1 Scenario.bob
      HiddenAgent.nobodySees = (Resolved returned, w')
    ∧ netCache w' !! Scenario.bob
      = Some (@visibleSet (Reference.platform []) Scenario.bob HiddenAgent.nobodySees)
    ∧ (∀ other, other ≠ Scenario.bob
                → netCache w' !! other = netCache HiddenAgent.nobodySees !! other)
    ∧ db w' = db HiddenAgent.nobodySees
    ∧ (is_Some (netCache HiddenAgent.nobodySees !! Scenario.bob)
       → w' = HiddenAgent.nobodySees)
    ∧ @ActionServiceForRequester.byId (Reference.platform []) 1 Scenario.bob w'
      = (Resolved returned, w').
Proof.
  apply (proj2 (@byId_fills_the_cache (Reference.platform []) 1 Scenario.bob
                  HiddenAgent.nobodySees eq_refl) HiddenAgent.action).
  reflexivity.
Defined.

(** ** One confirmation per issuer and record *)

Lemma db_query_cases {A} (q : Db → A) w :
  ∃ rest, db_query q w = (Rejected StoreError, with_faults rest w)
          ∨ db_query q w = (Resolved (q (db w)), with_faults rest w).
Proof.
  unfold db_query.
  destruct (db_call_cases (λ d, (Resolved (q d), d)) w) as [[rest E] | [rest E]];
    exists rest; [left; exact E | right].
  rewrite E. simpl. destruct w; reflexivity.
Qed.

Lemma sameRecord_sym c1 c2 : sameRecord c1 c2 → sameRecord c2 c1.
Proof.
  intros [(i & ? & ?) | [(i & ? & ?) | (i & ? & ?)]];
    [left | right; left | right; right]; eauto.
Qed.

Lemma confirmedOnce_app l row :
  confirmedOnce l →
  (∀ c, c ∈ l → confirmation_issuer c = confirmation_issuer row → ¬ sameRecord c row) →
  confirmedOnce (l ++ [row]).
Proof.
  intros Hl Hfresh i j c1 c2 Hi Hj Hissuer Hsame.
  apply lookup_app_Some in Hi as [Hi | [Hi Hi']];
    apply lookup_app_Some in Hj as [Hj | [Hj Hj']].
  - eapply Hl; eassumption.
  - apply list_lookup_singleton_Some in Hj' as [_ <-].
    exfalso. eapply Hfresh; [eapply list_elem_of_lookup_2, Hi | exact Hissuer | exact Hsame].
  - apply list_lookup_singleton_Some in Hi' as [_ <-].
    exfalso. eapply Hfresh;
      [eapply list_elem_of_lookup_2, Hj | symmetry; exact Hissuer
      | apply sameRecord_sym, Hsame].
  - apply list_lookup_singleton_Some in Hi' as [Hi' _].
    apply list_lookup_singleton_Some in Hj' as [Hj' _]. lia.
Qed.

Lemma keeps_confirmedOnce_refl w : keeps_confirmedOnce w w.
Proof. intros Hw. exact Hw. Qed.

Lemma keeps_confirmedOnce_trans a b c :
  keeps_confirmedOnce a b → keeps_confirmedOnce b c → keeps_confirmedOnce a c.
Proof. unfold keeps_confirmedOnce. auto. Qed.

Lemma keeps_confirmedOnce_logs w l : keeps_confirmedOnce w (with_logs l w).
Proof. intros Hw. exact Hw. Qed.

Lemma keeps_confirmedOnce_faults w l : keeps_confirmedOnce w (with_faults l w).
Proof. intros Hw. exact Hw. Qed.

Lemma confirms_afresh_keeps {A} (m : M A) :
  confirms_afresh m → keeps keeps_confirmedOnce m.
Proof.
  intros Hm w Hw. destruct (Hm w) as [-> | (row & -> & Hfresh)]; [exact Hw |].
  apply confirmedOnce_app; assumption.
Qed.

Ltac settle_step :=
  match goal with
  | |- context [bind (settle ?o) _ _] =>
      let E := fresh "E" in
      destruct o eqn:E;
      [ rewrite (bind_settle _ _ _ _ eq_refl)
      | rewrite (bind_settle_rejected _ _ _ _ eq_refl); left; reflexivity ]
  end.

Ltac query_step :=
  match goal with
  | |- context [bind (db_query ?q) _ ?v] =>
      let rest := fresh "rest" in
      let E := fresh "E" in
      destruct (db_query_cases q v) as [rest [E | E]];
      [ rewrite (bind_rejected _ _ _ _ _ E); left; reflexivity
      | rewrite (bind_resolved _ _ _ _ _ E); cbn [db with_faults] ]
  end.

Ltac branch_step :=
  match goal with
  | |- context [if ?b then _ else _] => is_var b; destruct b
  | |- context [match ?x with [] => _ | _ :: _ => _ end] => destruct x eqn:?
  | |- context [match ?x with Some _ => _ | None => _ end] => destruct x eqn:?
  | |- context [reject _ _] => left; reflexivity
  end.

Section ConfirmedOnce.
Context `{Platform}.

Lemma inserted_afresh issuerDid jwtId origClaimStr (actionId tenureId orgRoleId : option Z)
    (k : Z → M Confirmed) v w :
  db v = db w →
  (∀ c, c ∈ confirmations (db w) → confirmation_issuer c = issuerDid →
        ¬ sameRecord c
            {| confirmation_id := next_id confirmation_id (confirmations (db w));
               confirmation_jwtId := jwtId; confirmation_issuer := issuerDid;
               confirmation_origClaim := origClaimStr;
               confirmation_actionRowId := actionId;
               confirmation_tenureRowId := tenureId;
               confirmation_orgRoleRowId := orgRoleId |}) →
  (∀ id u, db (k id u).2 = db u) →
  let m := bind (db_call (Store.confirmationInsert issuerDid jwtId origClaimStr
                            actionId tenureId orgRoleId)) k in
  confirmations (db (m v).2) = confirmations (db w)
  ∨ ∃ row, confirmations (db (m v).2) = (confirmations (db w) ++ [row])%list
           ∧ ∀ c, c ∈ confirmations (db w) →
                  confirmation_issuer c = confirmation_issuer row →
                  ¬ sameRecord c row.
Proof.
  intros Hdb Hfresh Hk m. subst m.
  destruct (db_call_cases
              (Store.confirmationInsert issuerDid jwtId origClaimStr actionId tenureId
                 orgRoleId) v) as [[rest E] | [rest E]].
  - rewrite (bind_rejected _ _ _ _ _ E). left. simpl. rewrite Hdb. reflexivity.
  - cbn [Store.confirmationInsert fst snd] in E. rewrite (bind_resolved _ _ _ _ _ E).
    right. rewrite Hk. simpl. rewrite Hdb. eexists. split; [reflexivity |].
    simpl. exact Hfresh.
Qed.

Lemma confirmOne_confirms_afresh jwtId issuerDid origClaim :
  confirms_afresh (JwtService.confirmOne jwtId issuerDid origClaim).
Proof.
  intros w. unfold JwtService.confirmOne.
  repeat first [ settle_step | query_step | branch_step ].
  all: cbv zeta.
  all: apply inserted_afresh; [reflexivity | | intros; reflexivity].
  all: intros c Hc Hissuer [(i & Hi & Hi') | [(i & Hi & Hi') | (i & Hi & Hi')]];
    simpl in Hi'; try discriminate; injection Hi' as <-.
  all: match goal with
       | Hnone : _ = None |- _ =>
           eapply find_none in Hnone; [| apply list_elem_of_In, Hc];
           unfold value_is in Hnone;
           rewrite bool_decide_eq_true_2, bool_decide_eq_true_2 in Hnone
             by assumption;
           discriminate
       end.
Qed.

End ConfirmedOnce.

Lemma addCanSee_keeps_confirmedOnce observer observed :
  keeps keeps_confirmedOnce (Network.addCanSee observer observed).
Proof.
  unfold Network.addCanSee. apply (keeps_bind _ keeps_confirmedOnce_trans).
  - apply (keeps_db_call _ keeps_confirmedOnce_faults). intros w fs Hw.
    unfold Network.canSeeInsert. simpl. case_bool_decide; exact Hw.
  - intros _ w Hw. exact Hw.
Qed.

Ltac keeps_once :=
  repeat first
    [ apply addCanSee_keeps_confirmedOnce
    | keeps_step keeps_confirmedOnce_refl keeps_confirmedOnce_trans
        keeps_confirmedOnce_logs
        ltac:(first [ apply (keeps_db_query _ keeps_confirmedOnce_faults)
                    | apply (keeps_db_call _ keeps_confirmedOnce_faults);
                      intros ? ? Hw; exact Hw ])
    | progress cbv beta zeta
    | solve [intros ? Hw; exact Hw] ].

Section Invariant.
Context `{Platform}.

Lemma createOneConfirmation_keeps_confirmedOnce jwtId issuerDid origClaim :
  keeps keeps_confirmedOnce (JwtService.createOneConfirmation jwtId issuerDid origClaim).
Proof.
  unfold JwtService.createOneConfirmation.
  apply (keeps_bind _ keeps_confirmedOnce_trans);
    [apply (keeps_settle _ keeps_confirmedOnce_refl) |].
  intros withContext. apply confirms_afresh_keeps, confirmOne_confirms_afresh.
Qed.

(** X23. The records of a claim that is not an array are created one
    after the other, and however that ends, and whether or not the store
    fails on the way, the confirmations stay such that no issuer has
    confirmed the same recorded action, tenure or organization role twice. *)
Theorem records_confirm_once jwtId issuerDid claim w :
  isArray claim = false →
  confirmedOnce (confirmations (db w)) →
  confirmedOnce
    (confirmations (db (JwtService.createEmbeddedClaimRecords jwtId issuerDid claim w).2)).
Proof.
  intros Hsingle. revert w.
  change (keeps keeps_confirmedOnce
            (JwtService.createEmbeddedClaimRecords jwtId issuerDid claim)).
  pose proof createOneConfirmation_keeps_confirmedOnce as Hone.
  unfold JwtService.createEmbeddedClaimRecords. rewrite Hsingle.
  unfold JwtService.createEmbeddedClaimRecord, JwtService.confirmEach, JwtService.caught,
    JwtService.recordJoinAction, JwtService.recordOrgRole,
    JwtService.recordRegistration, JwtService.recordTenure, JwtService.recordVote.
  repeat first [ apply Hone | keeps_once ].
Qed.

End Invariant.

(** X23 at Bob's agreement with the meeting claim, twice over in the one
    claim: the second is turned away and one confirmation is stored. *)
Lemma records_confirm_once_witness :
  confirmedOnce
    (confirmations
       (db (@JwtService.createEmbeddedClaimRecords Cases.P 2 (VStr Scenario.bob)
              Cases.agree Scenario.afterAlice).2))
  ∧ length (confirmations
              (db (@JwtService.createEmbeddedClaimRecords Cases.P 2 (VStr Scenario.bob)
                     Cases.agree Scenario.afterAlice).2)) = 1%nat.
Proof.
  split; [| vm_compute; reflexivity].
  apply (@records_confirm_once Cases.P 2 (VStr Scenario.bob) Cases.agree
           Scenario.afterAlice eq_refl).
  intros i j c1 c2 Hi. vm_compute in Hi. discriminate.
Defined.

(** ** Events and actions stay in order *)

Lemma keeps_joins_refl w : keeps_joins w w.
Proof. intros Hw. exact Hw. Qed.

Lemma keeps_joins_trans a b c : keeps_joins a b → keeps_joins b c → keeps_joins a c.
Proof. unfold keeps_joins. auto. Qed.

Lemma keeps_joins_logs w l : keeps_joins w (with_logs l w).
Proof. intros Hw. exact Hw. Qed.

Lemma keeps_joins_faults w l : keeps_joins w (with_faults l w).
Proof. intros Hw. exact Hw. Qed.

Lemma filter_nil_false {A} (f : A → bool) (l : list A) (x : A) :
  List.filter f l = [] → x ∈ l → f x = false.
Proof.
  intros Hnil Hx. destruct (f x) eqn:Hf; [| reflexivity].
  assert (Hin : In x (List.filter f l))
    by (apply filter_In; split; [apply list_elem_of_In, Hx | exact Hf]).
  rewrite Hnil in Hin. destruct Hin.
Qed.

Lemma joins_new_event d orgName name startTime :
  joinsInOrder d →
  Store.eventsByParams orgName name startTime d = [] →
  joinsInOrder
    (with_events (events d ++ [{| event_id := next_id event_id (events d);
                                  event_orgName := orgName; event_name := name;
                                  event_startTime := startTime |}]) d).
Proof.
  intros (Hevents & Hactions & Hrefs) Hnone. unfold joinsInOrder. simpl.
  split; [| split; [exact Hactions |]].
  - rewrite fmap_app. apply NoDup_app. split; [exact Hevents |].
    split; [| apply NoDup_singleton].
    intros key Hkey Hnew. apply list_elem_of_singleton in Hnew. subst key.
    apply list_elem_of_fmap in Hkey as (e & Hkey & He).
    pose proof (filter_nil_false _ _ e Hnone He) as Hfalse. simpl in Hfalse.
    unfold eventKey in Hkey. simpl in Hkey. injection Hkey as -> -> ->.
    unfold value_is in Hfalse. rewrite !bool_decide_eq_true_2 in Hfalse by reflexivity.
    discriminate.
  - eapply Forall_impl; [exact Hrefs |]. simpl. intros a [Hid Hin].
    split; [exact Hid |]. rewrite fmap_app. apply elem_of_app. left. exact Hin.
Qed.

Lemma joins_new_action d issuerDid agentDid jwtId (event : event_row) :
  joinsInOrder d →
  event_id event ∈ event_id <$> events d →
  (∀ a, a ∈ actions d → action_agentDid a = agentDid →
        action_eventRowId a ≠ event_id event) →
  joinsInOrder
    (with_actions
       (actions d ++
        [{| action_id := next_id action_id (actions d); action_jwtId := jwtId;
            action_issuerDid := issuerDid; action_agentDid := agentDid;
            action_eventRowId := event_id event;
            action_eventOrgName := event_orgName event;
            action_eventName := event_name event;
            action_eventStartTime := event_startTime event |}]) d).
Proof.
  intros (Hevents & Hactions & Hrefs) Hstored Hfresh. unfold joinsInOrder. simpl.
  split; [exact Hevents |]. split.
  - rewrite fmap_app. apply NoDup_app. split; [exact Hactions |].
    split; [| apply NoDup_singleton].
    intros pair Hpair Hnew. apply list_elem_of_singleton in Hnew. subst pair.
    apply list_elem_of_fmap in Hpair as (a & Hpair & Ha). simpl in Hpair.
    injection Hpair as Hagent Hevent.
    eapply Hfresh; [exact Ha | symmetry; exact Hagent | symmetry; exact Hevent].
  - apply Forall_app. split; [exact Hrefs |]. constructor; [| constructor]. simpl.
    split; [| exact Hstored].
    pose proof (next_id_positive action_id (actions d)). lia.
Qed.

Section JoinsInOrder.
Context `{Platform}.

Lemma recordJoinAction_keeps_joins jwtId issuerDid claim :
  keeps keeps_joins (JwtService.recordJoinAction jwtId issuerDid claim).
Proof.
  intros w Hw. unfold JwtService.recordJoinAction.
  destruct (path claim ["agent"; "did"]) as [agentDid | e] eqn:Hagent;
    [rewrite (bind_settle _ _ _ _ eq_refl) | exact Hw].
  destruct (truthy agentDid); cbn [negb]; [| exact Hw].
  destruct (get claim "event") as [claimEvent | e] eqn:Hevent;
    [rewrite (bind_settle _ _ _ _ eq_refl) | exact Hw].
  destruct (truthy claimEvent); cbn [negb]; [| exact Hw].
  destruct (get claimEvent "organizer") as [organizer | e];
    [rewrite (bind_settle _ _ _ _ eq_refl) | exact Hw].
  destruct (JwtService.and_get organizer "name") as [orgName | e];
    [rewrite (bind_settle _ _ _ _ eq_refl) | exact Hw].
  destruct (get claimEvent "name") as [name | e];
    [rewrite (bind_settle _ _ _ _ eq_refl) | exact Hw].
  destruct (get claimEvent "startTime") as [startTime | e];
    [rewrite (bind_settle _ _ _ _ eq_refl) | exact Hw].
  destruct (db_query_cases (Store.eventsByParams orgName name startTime) w)
    as [rest [E | E]];
    [rewrite (bind_rejected _ _ _ _ _ E); exact Hw
    | rewrite (bind_resolved _ _ _ _ _ E)].
  set (v := with_faults rest w).
  assert (Hinsert : ∀ (event : event_row) u,
            joinsInOrder (db u) →
            event_id event ∈ event_id <$> events (db u) →
            (∀ a, a ∈ actions (db u) → action_agentDid a = agentDid →
                  action_eventRowId a ≠ event_id event) →
            joinsInOrder
              (db ((let! actionId :=
                      db_call (Store.actionClaimInsert issuerDid agentDid jwtId event) in
                    resolve tt) u).2)).
  { intros event u Hu Hstored Hfresh.
    destruct (db_call_cases (Store.actionClaimInsert issuerDid agentDid jwtId event) u)
      as [[rest' E'] | [rest' E']].
    - rewrite (bind_rejected _ _ _ _ _ E'). exact Hu.
    - cbn [Store.actionClaimInsert fst snd] in E'.
      rewrite (bind_resolved _ _ _ _ _ E'). simpl.
      apply joins_new_action; assumption. }
  destruct (Store.eventsByParams orgName name startTime (db w))
    as [| event0 others] eqn:Hevents.
  - rewrite bind_bind.
    destruct (db_call_cases (Store.eventInsert orgName name startTime) v)
      as [[rest' E'] | [rest' E']];
      [rewrite (bind_rejected _ _ _ _ _ E'); exact Hw |].
    cbn [Store.eventInsert fst snd] in E'.
    rewrite (bind_resolved _ _ _ _ _ E'), bind_resolve.
    apply Hinsert; simpl.
    + apply joins_new_event; assumption.
    + rewrite fmap_app. apply elem_of_app. right. apply list_elem_of_singleton.
      reflexivity.
    + intros a Ha _ Heq. destruct Hw as (_ & _ & Hrefs).
      rewrite Forall_forall in Hrefs. destruct (Hrefs a Ha) as [_ Hin].
      rewrite Heq in Hin. apply list_elem_of_fmap in Hin as (e & Hid & He).
      pose proof (next_id_above event_id (events (db w))) as Habove.
      rewrite Forall_forall in Habove. specialize (Habove e He). lia.
  - assert (Hstored : event_id event0 ∈ event_id <$> events (db w)).
    { apply list_elem_of_fmap. exists event0. split; [reflexivity |].
      assert (Hin : In event0 (Store.eventsByParams orgName name startTime (db w)))
        by (rewrite Hevents; left; reflexivity).
      apply filter_In in Hin as [Hin _]. apply list_elem_of_In, Hin. }
    rewrite bind_bind. subst v.
    destruct others as [| event1 others'];
      [rewrite bind_resolve | rewrite (bind_resolved (log _) _ _ tt _ eq_refl)].
    all: rewrite bind_bind.
    all: match goal with
         | |- context [bind (db_query ?q) _ ?u] =>
             destruct (db_query_cases q u) as [rest' [E' | E']];
             [ rewrite (bind_rejected _ _ _ _ _ E'); exact Hw
             | rewrite (bind_resolved _ _ _ _ _ E') ]
         end.
    all: cbn [db with_faults with_logs].
    all: destruct (Store.actionClaimIdByDidEventId agentDid (event_id event0) (db w))
           as [existing |] eqn:Hexisting.
    all: cbn [from_option truthy].
    all: lazymatch goal with
         | Hsome : _ = Some ?id |- _ =>
             assert (Hnonzero : id ≠ 0%Z)
               by (unfold Store.actionClaimIdByDidEventId in Hsome;
                   destruct (find _ _) as [a |] eqn:Hfind; [| discriminate];
                   injection Hsome as <-; apply find_some in Hfind as [Ha _];
                   destruct Hw as (_ & _ & Hrefs); rewrite Forall_forall in Hrefs;
                   apply (Hrefs a), list_elem_of_In, Ha);
             destruct (Z.eqb_spec id 0); [contradiction |];
             cbn [negb]; rewrite bind_reject; exact Hw
         | Hnone : _ = None |- _ =>
             rewrite bind_resolve;
             apply Hinsert; [exact Hw | exact Hstored |];
             intros a Ha Hagent' Heq;
             unfold Store.actionClaimIdByDidEventId in Hnone;
             destruct (find _ _) as [found |] eqn:Hfind; [discriminate |];
             eapply find_none in Hfind; [| apply list_elem_of_In, Ha];
             simpl in Hfind; unfold value_is in Hfind;
             rewrite bool_decide_eq_true_2 in Hfind by exact Hagent';
             rewrite Heq, Z.eqb_refl in Hfind; discriminate
         end.
Qed.

End JoinsInOrder.

Lemma addCanSee_keeps_joins observer observed :
  keeps keeps_joins (Network.addCanSee observer observed).
Proof.
  unfold Network.addCanSee. apply (keeps_bind _ keeps_joins_trans).
  - apply (keeps_db_call _ keeps_joins_faults). intros w fs Hw.
    unfold Network.canSeeInsert. simpl. case_bool_decide; exact Hw.
  - intros _ w Hw. exact Hw.
Qed.

Ltac keeps_joins_in_order :=
  repeat first
    [ apply addCanSee_keeps_joins
    | keeps_step keeps_joins_refl keeps_joins_trans keeps_joins_logs
        ltac:(first [ apply (keeps_db_query _ keeps_joins_faults)
                    | apply (keeps_db_call _ keeps_joins_faults);
                      intros ? ? Hw; exact Hw ])
    | progress cbv beta zeta ].

Section JoinsKept.
Context `{Platform}.

(** X24. The records of a claim that is not an array, whatever its kind and
    however their creation ends, leave the events and actions in order: no
    event is stored twice under one (organizer name, event name, start time),
    no agent has two actions at one event, and every action has an id other
    than 0 and an event that is stored. *)
Theorem records_keep_joins_in_order jwtId issuerDid claim w :
  isArray claim = false →
  joinsInOrder (db w) →
  joinsInOrder (db (JwtService.createEmbeddedClaimRecords jwtId issuerDid claim w).2).
Proof.
  intros Hsingle. revert w.
  change (keeps keeps_joins (JwtService.createEmbeddedClaimRecords jwtId issuerDid claim)).
  pose proof recordJoinAction_keeps_joins as Hjoin.
  unfold JwtService.createEmbeddedClaimRecords. rewrite Hsingle.
  unfold JwtService.createEmbeddedClaimRecord, JwtService.confirmEach, JwtService.caught,
    JwtService.createOneConfirmation, JwtService.confirmOne, JwtService.recordOrgRole,
    JwtService.recordRegistration, JwtService.recordTenure, JwtService.recordVote.
  repeat first [ apply Hjoin | keeps_joins_in_order ].
Qed.

End JoinsKept.

Lemma afterAlice_in_order : joinsInOrder (db Scenario.afterAlice).
Proof. unfold joinsInOrder. apply (bool_decide_unpack _). vm_compute. exact I. Defined.

(** X24 at Bob's claim that Carol joined the meeting Alice has claimed
    already: the event and the action stay the only ones. *)
Lemma records_keep_joins_in_order_witness :
  joinsInOrder
    (db (@JwtService.createEmbeddedClaimRecords Scenario.P 2 (VStr Scenario.bob)
           Scenario.meeting Scenario.afterAlice).2)
  ∧ length (events
              (db (@JwtService.createEmbeddedClaimRecords Scenario.P 2
                     (VStr Scenario.bob) Scenario.meeting Scenario.afterAlice).2))
    = 1%nat.
Proof.
  split; [| vm_compute; reflexivity].
  apply (@records_keep_joins_in_order Scenario.P 2 (VStr Scenario.bob) Scenario.meeting
           Scenario.afterAlice eq_refl afterAlice_in_order).
Defined.

(** ** The deprecated Confirmation *)

Section LegacyConfirmation.
Context `{Platform}.

(** X25. The outcome of the dispatch of a deprecated Confirmation depends on
    the shape of its [originalClaims] alone: it resolves when that is falsy,
    an array, or a string, whatever the confirmations themselves end in, and
    it rejects with a TypeError when that is any other value, which cannot
    be iterated, the single [originalClaim] having been handled before.  No
    table other than the confirmations changes. *)
Theorem legacy_confirmation_outcome jwtId issuerDid claim origClaims :
  JwtService.claimKind claim = Resolved JwtService.KConfirmation →
  get claim "originalClaims" = Resolved origClaims →
  ∀ w,
    (JwtService.createEmbeddedClaimRecord jwtId issuerDid claim w).1
    = (if truthy origClaims then omap_outcome (λ _, tt) (iterate origClaims)
       else Resolved tt)
    ∧ only_confirmations w
        (JwtService.createEmbeddedClaimRecord jwtId issuerDid claim w).2.
Proof.
  intros Hkind Hmany w. unfold JwtService.createEmbeddedClaimRecord.
  rewrite (bind_settle _ _ _ _ Hkind).
  split.
  - destruct (nonnull_get claim "originalClaim" (claimKind_object _ _ Hkind))
      as [origClaim Hone].
    rewrite (bind_settle _ _ _ _ Hone).
    assert (Hfirst : ∃ w1,
              (if truthy origClaim then
                 JwtService.caught
                   (JwtService.createOneConfirmation jwtId issuerDid origClaim);;
                 resolve tt
               else resolve tt) w = (Resolved tt, w1)).
    { destruct (truthy origClaim); [| eexists; reflexivity].
      destruct (caught_resolves
                  (JwtService.createOneConfirmation jwtId issuerDid origClaim) w)
        as [r Hr].
      unfold bind.
      destruct (JwtService.caught _ w) as [[r' | e] w1]; simpl in *;
        [eexists; reflexivity | discriminate]. }
    destruct Hfirst as [w1 Hfirst].
    rewrite (bind_resolved _ _ _ _ _ Hfirst), (bind_settle _ _ _ _ Hmany).
    destruct (truthy origClaims); [| reflexivity].
    destruct (iterate origClaims) as [elems | e];
      [rewrite (bind_settle _ _ _ _ eq_refl) | reflexivity].
    destruct (confirmEach_resolves jwtId issuerDid elems w1) as [l Hl].
    unfold bind.
    destruct (JwtService.confirmEach _ _ _ w1) as [[l' | e] w2]; simpl in *;
      [reflexivity | discriminate].
  - lazymatch goal with
    | |- only_confirmations ?w (snd (?m ?w)) =>
        cut (keeps only_confirmations m); [intros Hk; apply Hk |]
    end.
    pose proof createOneConfirmation_only_confirmations as Hone.
    unfold JwtService.confirmEach, JwtService.caught.
    repeat first [ apply Hone | keeps_confirmations ].
Qed.

End LegacyConfirmation.

(** X25 at a Confirmation whose [originalClaims] is a number: the single
    original claim is confirmed and the dispatch is rejected all the same. *)
Lemma legacy_confirmation_outcome_witness :
  (@JwtService.createEmbeddedClaimRecord Cases.P 2 (VStr Scenario.bob) Cases.legacy
     Scenario.afterAlice).1 = Rejected TypeError
  ∧ length (confirmations
              (db (@JwtService.createEmbeddedClaimRecord Cases.P 2 (VStr Scenario.bob)
                     Cases.legacy Scenario.afterAlice).2)) = 1%nat.
Proof.
  split; [| vm_compute; reflexivity].
  apply (proj1 (@legacy_confirmation_outcome Cases.P 2 (VStr Scenario.bob) Cases.legacy
                  (VNum 3) eq_refl eq_refl Scenario.afterAlice)).
Defined.

(** ** Votes, organization roles and tenures *)

Ltac settle_or_unchanged :=
  match goal with
  | |- context [bind (settle ?o) _ _] =>
      destruct o eqn:?;
      [ rewrite (bind_settle _ _ _ _ eq_refl)
      | rewrite (bind_settle_rejected _ _ _ _ eq_refl);
        split; [intros; discriminate | intros; reflexivity] ]
  end.

Ltac insert_or_unchanged :=
  match goal with
  | |- context [bind (db_call ?q) _ ?v] =>
      let rest := fresh "rest" in
      let E := fresh "E" in
      destruct (db_call_cases q v) as [[rest E] | [rest E]];
      [ rewrite (bind_rejected _ _ _ _ _ E);
        split; [intros; discriminate | intros ? [= <-] ?; contradiction]
      | cbn [Store.voteInsert Store.orgRoleInsert Store.tenureInsert fst snd] in E;
        rewrite (bind_resolved _ _ _ _ _ E);
        split; [intros _; eexists; simpl; repeat split | intros; discriminate] ]
  end.

Section TypedRecords.
Context `{Platform}.

(** X26. The dispatch of a VoteAction, of an organization role and of a
    Tenure either resolves, having appended to the table of its kind one row
    that carries the envelope's id and the issuer and having left every other
    table alone, or it is rejected; and when it is rejected for a reason other
    than a failure of the store (the claim lacks an object the branch reads
    through, or [calcBbox] throws), no table has changed. *)
Theorem typed_record_references_envelope jwtId issuerDid claim w :
  (JwtService.claimKind claim = Resolved JwtService.KVoteAction →
   ((JwtService.createEmbeddedClaimRecord jwtId issuerDid claim w).1 = Resolved tt →
    ∃ row,
      db (JwtService.createEmbeddedClaimRecord jwtId issuerDid claim w).2
        = with_votes (votes (db w) ++ [row]) (db w)
      ∧ vote_jwtId row = jwtId ∧ vote_issuerDid row = issuerDid)
   ∧ (∀ e, (JwtService.createEmbeddedClaimRecord jwtId issuerDid claim w).1 = Rejected e →
           e ≠ StoreError →
           db (JwtService.createEmbeddedClaimRecord jwtId issuerDid claim w).2 = db w))
  ∧ (JwtService.claimKind claim = Resolved JwtService.KOrganizationRole →
     ((JwtService.createEmbeddedClaimRecord jwtId issuerDid claim w).1 = Resolved tt →
      ∃ row,
        db (JwtService.createEmbeddedClaimRecord jwtId issuerDid claim w).2
          = with_orgRoles (orgRoles (db w) ++ [row]) (db w)
        ∧ orgRole_jwtId row = jwtId ∧ orgRole_issuerDid row = issuerDid)
     ∧ (∀ e, (JwtService.createEmbeddedClaimRecord jwtId issuerDid claim w).1 = Rejected e →
             e ≠ StoreError →
             db (JwtService.createEmbeddedClaimRecord jwtId issuerDid claim w).2 = db w))
  ∧ (JwtService.claimKind claim = Resolved JwtService.KTenure →
     ((JwtService.createEmbeddedClaimRecord jwtId issuerDid claim w).1 = Resolved tt →
      ∃ row,
        db (JwtService.createEmbeddedClaimRecord jwtId issuerDid claim w).2
          = with_tenures (tenures (db w) ++ [row]) (db w)
        ∧ tenure_jwtId row = jwtId ∧ tenure_issuerDid row = issuerDid)
     ∧ (∀ e, (JwtService.createEmbeddedClaimRecord jwtId issuerDid claim w).1 = Rejected e →
             e ≠ StoreError →
             db (JwtService.createEmbeddedClaimRecord jwtId issuerDid claim w).2 = db w)).
Proof.
  unfold JwtService.createEmbeddedClaimRecord.
  split; [| split]; intros Hkind; rewrite (bind_settle _ _ _ _ Hkind).
  - unfold JwtService.recordVote.
    repeat settle_or_unchanged. insert_or_unchanged.
  - unfold JwtService.recordOrgRole.
    repeat settle_or_unchanged. insert_or_unchanged.
  - unfold JwtService.recordTenure.
    repeat settle_or_unchanged. insert_or_unchanged.
Qed.

End TypedRecords.

(** X26 at Alice's vote and at a vote that names no event; at Carol's role in
    an organization; and at Carol's tenure of a plot and at a tenure whose
    polygon [calcBbox] cannot read. *)
Lemma typed_record_references_envelope_witness :
  (∃ row,
     db (@JwtService.createEmbeddedClaimRecord Cases.P 1 (VStr Scenario.alice)
           Cases.vote Scenario.start).2
       = with_votes (votes (db Scenario.start) ++ [row]) (db Scenario.start)
     ∧ vote_jwtId row = 1%Z ∧ vote_issuerDid row = VStr Scenario.alice)
  ∧ db (@JwtService.createEmbeddedClaimRecord Cases.P 1 (VStr Scenario.alice)
          Cases.voteForNothing Scenario.start).2
    = db Scenario.start
  ∧ (∃ row,
       db (@JwtService.createEmbeddedClaimRecord Registry.P 1 (VStr Scenario.alice)
             Registry.role Scenario.start).2
         = with_orgRoles (orgRoles (db Scenario.start) ++ [row]) (db Scenario.start)
       ∧ orgRole_jwtId row = 1%Z ∧ orgRole_issuerDid row = VStr Scenario.alice)
  ∧ (∃ row,
       db (@JwtService.createEmbeddedClaimRecord Registry.P 1 (VStr Scenario.alice)
             Registry.tenure Scenario.start).2
         = with_tenures (tenures (db Scenario.start) ++ [row]) (db Scenario.start)
       ∧ tenure_jwtId row = 1%Z ∧ tenure_issuerDid row = VStr Scenario.alice)
  ∧ db (@JwtService.createEmbeddedClaimRecord Registry.P 1 (VStr Scenario.alice)
          Registry.tenureOfNowhere Scenario.start).2
    = db Scenario.start.
Proof.
  split; [| split; [| split; [| split]]].
  - apply (proj1 (proj1 (@typed_record_references_envelope Cases.P 1
                           (VStr Scenario.alice) Cases.vote Scenario.start) eq_refl)).
    vm_compute. reflexivity.
  - apply (proj2 (proj1 (@typed_record_references_envelope Cases.P 1
                           (VStr Scenario.alice) Cases.voteForNothing Scenario.start)
                    eq_refl) TypeError).
    + vm_compute. reflexivity.
    + discriminate.
  - apply (proj1 (proj1 (proj2 (@typed_record_references_envelope Registry.P 1
                                  (VStr Scenario.alice) Registry.role Scenario.start))
                    eq_refl)).
    vm_compute. reflexivity.
  - apply (proj1 (proj2 (proj2 (@typed_record_references_envelope Registry.P 1
                                  (VStr Scenario.alice) Registry.tenure Scenario.start))
                    eq_refl)).
    vm_compute. reflexivity.
  - apply (proj2 (proj2 (proj2 (@typed_record_references_envelope Registry.P 1
                                  (VStr Scenario.alice) Registry.tenureOfNowhere
                                  Scenario.start))
                    eq_refl) TypeError).
    + vm_compute. reflexivity.
    + discriminate.
Defined.
